(** * Overlay-listener reconciliation of scrypted-osd-manager

    A shallow embedding of [src/utils.ts]: the overlay model ([getOverlayKeys],
    [getOverlay], [getOverlaySettings]), the listener reconciliation pass
    ([listenersIntevalFn]) and the template formatter ([parseOverlayData]),
    followed by the properties of the specification that concern them.

    The collaborators of the source are modelled as follows.  The device
    registry, [sdk.systemManager.getDeviceById], is a function from ids to
    devices, the same throughout a pass.  The calls a pass makes on the
    console, on subscription handles, on devices and on [onUpdateFn] are
    recorded, in program order, in a trace; they do not throw.  A pass works
    on a store, reads and writes it as the source reads and writes
    [currentListeners], and may end in an exception, with the store and the
    trace as they were when it was thrown. *)

From Stdlib Require Import ZArith QArith Qabs String Ascii List Decimal DecimalString.
From Stdlib Require DecimalN.
From stdpp Require Import gmap strings list fin_maps.

Local Open Scope string_scope.
Local Open Scope list_scope.

(** ** JavaScript values

    Settings values, device ids and sensor readings are primitives.  A finite
    number is represented by the exact rational value of the double; [NaN] and
    the two infinities are separate constructors. *)

Inductive jsnum : Type :=
| NaN
| Infinity (negative : bool)
| Finite (q : Q).

Inductive prim : Type :=
| VUndefined
| VNull
| VBool (b : bool)
| VNumber (n : jsnum)
| VString (s : string).

(** ToBoolean. *)
Definition truthy (v : prim) : bool :=
  match v with
  | VUndefined | VNull => false
  | VBool b => b
  | VNumber NaN => false
  | VNumber (Infinity _) => true
  | VNumber (Finite q) => negb (Qeq_bool q 0)
  | VString s => negb (String.eqb s EmptyString)
  end.

(** [a === b] on primitives; [NaN] is not equal to itself. *)
Definition strict_eq (a b : prim) : bool :=
  match a, b with
  | VUndefined, VUndefined => true
  | VNull, VNull => true
  | VBool x, VBool y => Bool.eqb x y
  | VNumber (Finite x), VNumber (Finite y) => Qeq_bool x y
  | VNumber (Infinity x), VNumber (Infinity y) => Bool.eqb x y
  | VString x, VString y => String.eqb x y
  | _, _ => false
  end.

(** [a ?? b]. *)
Definition nullish_or (a b : prim) : prim :=
  match a with
  | VUndefined | VNull => b
  | _ => a
  end.

(** ** Enumerations of the source *)

Inductive OverlayType : Type := Text | Device | FaceDetection.

(** The string value of each member of [enum OverlayType]. *)
Definition OverlayType_value (t : OverlayType) : prim :=
  match t with
  | Text => VString "Text"
  | Device => VString "Device"
  | FaceDetection => VString "FaceDetection"
  end.

Inductive ListenerType : Type := Face | Humidity | Temperature.

Global Instance ListenerType_eq_dec : EqDecision ListenerType.
Proof. solve_decision. Defined.

(** The members of the SDK's [ScryptedInterface] that the source names; any
    other interface a device may expose is an [OtherInterface]. *)
Inductive ScryptedInterface : Type :=
| Thermometer
| HumiditySensor
| ObjectDetection
| VideoTextOverlays
| OtherInterface (name : string).

Global Instance ScryptedInterface_eq_dec : EqDecision ScryptedInterface.
Proof. solve_decision. Defined.

(** [interfaces.includes(i)]. *)
Definition includes (i : ScryptedInterface) (l : list ScryptedInterface) : bool :=
  existsb (fun j => bool_decide (j = i)) l.

(** ** Overlay model *)

Definition osdManagerPrefix : string := "osdManager".

(** What [getOverlay] reads of a [Setting]: its key and its value. *)
Record Setting : Type := { key : string; value : prim }.

Module Overlay.
Record t : Type := {
  text : prim;
  type : prim;
  device : prim;
  regex : prim;
  maxDecimals : prim
}.
End Overlay.

Record OverlayKeys : Type := {
  textKey : string;
  typeKey : string;
  regexKey : string;
  deviceKey : string;
  maxDecimalsKey : string
}.

Definition getOverlayKeys (overlayId : string) : OverlayKeys :=
  {| textKey := "overlay:" +:+ overlayId +:+ ":text";
     typeKey := "overlay:" +:+ overlayId +:+ ":type";
     regexKey := "overlay:" +:+ overlayId +:+ ":regex";
     deviceKey := "overlay:" +:+ overlayId +:+ ":device";
     maxDecimalsKey := "overlay:" +:+ overlayId +:+ ":maxDecimals" |}.

(** [settings.reduce((tot, curr) => ({...tot, [curr.key]: curr}), {})]. *)
Definition settingsByKey (settings : list Setting) : gmap string Setting :=
  foldl (fun tot curr => <[key curr := curr]> tot) ∅ settings.

(** [settingsByKey[k]?.value]. *)
Definition value_at (m : gmap string Setting) (k : string) : prim :=
  match m !! k with
  | Some s => value s
  | None => VUndefined
  end.

Definition getOverlay (settings : list Setting) (overlayId : string) : Overlay.t :=
  let byKey := settingsByKey settings in
  let keys := getOverlayKeys overlayId in
  let type := nullish_or (value_at byKey (osdManagerPrefix +:+ ":" +:+ typeKey keys))
                         (OverlayType_value Text) in
  let device := value_at byKey (osdManagerPrefix +:+ ":" +:+ deviceKey keys) in
  let text := value_at byKey (osdManagerPrefix +:+ ":" +:+ textKey keys) in
  let regex := value_at byKey (osdManagerPrefix +:+ ":" +:+ regexKey keys) in
  let maxDecimals := value_at byKey (osdManagerPrefix +:+ ":" +:+ maxDecimalsKey keys) in
  {| Overlay.device := device;
     Overlay.type := type;
     Overlay.regex := regex;
     Overlay.text := text;
     Overlay.maxDecimals := maxDecimals |}.

(** [a || b]. *)
Definition or_else (a b : prim) : prim := if truthy a then a else b.

(** The settings view of the slots, as far as keys and values go;
    [getItem] is [storage.getItem]. *)
Definition getOverlaySettings (getItem : string -> prim) (overlayIds : list string) :
    list Setting :=
  flat_map (fun overlayId =>
    let keys := getOverlayKeys overlayId in
    let type := nullish_or (getItem (typeKey keys)) (OverlayType_value Text) in
    let regexSetting :=
      {| key := regexKey keys;
         value := or_else (getItem (regexKey keys)) (VString "${value} ${unit}") |} in
    [{| key := typeKey keys; value := type |}]
    ++ (if strict_eq type (OverlayType_value Text)
        then [{| key := textKey keys; value := getItem (textKey keys) |}]
        else [])
    ++ (if strict_eq type (OverlayType_value Device)
        then [{| key := deviceKey keys; value := getItem (deviceKey keys) |};
              regexSetting;
              {| key := maxDecimalsKey keys;
                 value := nullish_or (getItem (maxDecimalsKey keys)) (VNumber (Finite 1)) |}]
        else if strict_eq type (OverlayType_value FaceDetection)
        then [regexSetting]
        else [])) overlayIds.

(** ** Devices, bindings and side effects *)

(** What the source reads of a device of the registry. *)
Record ScryptedDevice : Type := {
  name : string;
  interfaces : list ScryptedInterface;
  temperature : prim;
  humidity : prim;
  temperatureUnit : option string
}.

(** A detection event, [ObjectsDetected] in the SDK. *)
Record ObjectDetectionResult : Type := {
  className : string;
  label : option string
}.

Record ObjectsDetected : Type := {
  detections : option (list ObjectDetectionResult)
}.

(** The [data: any] of an update: a primitive (a sensor reading, a static
    text) or a detection event. *)
Inductive any : Type :=
| APrim (p : prim)
| AObjects (od : ObjectsDetected).

(** An [EventListenerRegister], identified by the order of creation. *)
Definition Handle : Type := nat.

(** An entry of [ListenersMap].  The source tests [currentListener?.listener]
    before it releases, so the handle of an entry may be missing; [device] is
    the [overlay.device] the entry was written with. *)
Module Binding.
Record t : Type := {
  listenerType : ListenerType;
  listener : option Handle;
  device : prim
}.
End Binding.

(** The props object handed to [OnUpdateOverlayFn]. *)
Module Update.
Record t : Type := {
  overlayId : string;
  listenerType : option ListenerType;
  listenInterface : option ScryptedInterface;
  data : any;
  device : option ScryptedDevice;
  noLog : option bool
}.
End Update.

Inductive LogLine : Type :=
| DeviceNotFound (device : prim)
| StartingListener (overlayId : string) (deviceName : string)
    (listenerType : ListenerType) (listenInterface : ScryptedInterface).

(** The calls the pass makes on its collaborators, in program order. *)
Inductive Effect : Type :=
| ConsoleLog (line : LogLine)
| RemoveListener (h : Handle)
| Listen (deviceId : prim) (listenInterface : ScryptedInterface)
    (callback : any -> Update.t) (h : Handle)
| OnUpdate (props : Update.t).

Inductive JSError : Type := TypeError | RangeError.

Inductive Completion (A : Type) : Type :=
| Normal (a : A)
| Throw (e : JSError).
Arguments Normal {A} a.
Arguments Throw {A} e.

(** The mutable state a pass works on: the [currentListeners] object, and the
    handle the next [listen] call returns.  Overlay ids are taken not to name
    a member of [Object.prototype], so that a lookup finds own entries only. *)
Record Store : Type := {
  currentListeners : gmap string Binding.t;
  nextHandle : Handle
}.

(** Computations that read and write the store, emit effects and may throw;
    what was written and emitted before a throw stays. *)
Definition M (A : Type) : Type := Store -> Completion A * Store * list Effect.

Definition ret {A} (a : A) : M A := fun s => (Normal a, s, []).

Definition bind {A B} (m : M A) (f : A -> M B) : M B :=
  fun s =>
    match m s with
    | (Normal a, s1, t1) =>
        match f a s1 with
        | (c, s2, t2) => (c, s2, t1 ++ t2)
        end
    | (Throw e, s1, t1) => (Throw e, s1, t1)
    end.

Global Instance M_ret : MRet M := @ret.
Global Instance M_bind : MBind M := fun A B f m => bind m f.

Definition throw {A} (e : JSError) : M A := fun s => (Throw e, s, []).
Definition emit (e : Effect) : M unit := fun s => (Normal tt, s, [e]).
Definition when (b : bool) (m : M unit) : M unit := if b then m else ret tt.

(** [currentListeners[overlayId]]. *)
Definition readListener (overlayId : string) : M (option Binding.t) :=
  fun s => (Normal (currentListeners s !! overlayId), s, []).

(** [currentListeners[overlayId] = b]. *)
Definition writeListener (overlayId : string) (b : Binding.t) : M unit :=
  fun s => (Normal tt,
            {| currentListeners := <[overlayId := b]> (currentListeners s);
               nextHandle := nextHandle s |},
            []).

(** [realDevice.listen(listenInterface, callback)]: registers the callback and
    returns a new handle. *)
Definition listen (deviceId : prim) (listenInterface : ScryptedInterface)
    (callback : any -> Update.t) : M Handle :=
  fun s => (Normal (nextHandle s),
            {| currentListeners := currentListeners s;
               nextHandle := S (nextHandle s) |},
            [Listen deviceId listenInterface callback (nextHandle s)]).

(** [for (const x of xs) body(x)]. *)
Fixpoint forOf {A} (xs : list A) (body : A -> M unit) : M unit :=
  match xs with
  | [] => ret tt
  | x :: rest => body x;; forOf rest body
  end.

(** ** Listener reconciliation *)

Section Reconciler.

(** [sdk.systemManager.getDeviceById]. *)
Variable getDeviceById : prim -> option ScryptedDevice.

(** The three [let] variables a slot resolves to. *)
Record Resolved : Type := {
  r_listenerType : option ListenerType;
  r_listenInterface : option ScryptedInterface;
  r_deviceId : prim
}.

Definition unresolved : Resolved :=
  {| r_listenerType := None; r_listenInterface := None; r_deviceId := VUndefined |}.

(** Lines 173-196: the desired listener of a slot. *)
Definition resolveListener (overlay : Overlay.t) (id : string) : M Resolved :=
  let overlayType := Overlay.type overlay in
  if strict_eq overlayType (OverlayType_value Device) then
    match getDeviceById (Overlay.device overlay) with
    | Some realDevice =>
        if includes Thermometer (interfaces realDevice) then
          ret {| r_listenerType := Some Temperature;
                 r_listenInterface := Some Thermometer;
                 r_deviceId := Overlay.device overlay |}
        else if includes HumiditySensor (interfaces realDevice) then
          ret {| r_listenerType := Some Humidity;
                 r_listenInterface := Some HumiditySensor;
                 r_deviceId := Overlay.device overlay |}
        else ret unresolved
    | None =>
        emit (ConsoleLog (DeviceNotFound (Overlay.device overlay)));;
        ret unresolved
    end
  else if strict_eq overlayType (OverlayType_value FaceDetection) then
    ret {| r_listenerType := Some Face;
           r_listenInterface := Some ObjectDetection;
           r_deviceId := VString id |}
  else ret unresolved.

(** [currentListener.listenerType !== listenerType]. *)
Definition listenerType_differs (current : ListenerType)
    (listenerType : option ListenerType) : bool :=
  negb (bool_decide (Some current = listenerType)).

(** [currentListener?.listener && currentListener.listener.removeListener()]. *)
Definition removeCurrent (currentListener : option Binding.t) : M unit :=
  match currentListener with
  | Some b =>
      match Binding.listener b with
      | Some h => emit (RemoveListener h)
      | None => ret tt
      end
  | None => ret tt
  end.

(** The body of the loop of [listenersIntevalFn], for one [overlayId]. *)
Definition reconcileOverlay (settings : list Setting) (id : string)
    (overlayId : string) : M unit :=
  let overlay := getOverlay settings overlayId in
  let overlayType := Overlay.type overlay in
  r ← resolveListener overlay id;
  let listenerType := r_listenerType r in
  let listenInterface := r_listenInterface r in
  let deviceId := r_deviceId r in
  currentListener ← readListener overlayId;
  let currentDevice :=
    match currentListener with
    | Some b => Binding.device b
    | None => VUndefined
    end in
  let differentType :=
    match currentListener with
    | None => true
    | Some b => listenerType_differs (Binding.listenerType b) listenerType
    end in
  let differentDevice :=
    if strict_eq (Overlay.type overlay) (OverlayType_value Device)
    then negb (strict_eq currentDevice (Overlay.device overlay))
    else false in
  match listenerType with
  | Some lt =>
      match listenInterface with
      | Some li =>
          when (truthy deviceId && (differentType || differentDevice))
            match getDeviceById deviceId with
            | None => throw TypeError (* realDevice.name of undefined *)
            | Some realDevice =>
                emit (ConsoleLog (StartingListener overlayId (name realDevice) lt li));;
                removeCurrent currentListener;;
                let update (data : any) : Update.t :=
                  {| Update.listenInterface := Some li;
                     Update.overlayId := overlayId;
                     Update.data := data;
                     Update.listenerType := Some lt;
                     Update.device := Some realDevice;
                     Update.noLog := None |} in
                newListener ← listen deviceId li update;
                (if bool_decide (li = Thermometer) then
                   emit (OnUpdate (update (APrim (temperature realDevice))))
                 else if bool_decide (li = HumiditySensor) then
                   emit (OnUpdate (update (APrim (humidity realDevice))))
                 else ret tt);;
                writeListener overlayId
                  {| Binding.listenerType := lt;
                     Binding.device := Overlay.device overlay;
                     Binding.listener := Some newListener |}
            end
      | None => ret tt
      end
  | None =>
      when (strict_eq overlayType (OverlayType_value Text))
        (removeCurrent currentListener;;
         emit (OnUpdate
                 {| Update.overlayId := overlayId;
                    Update.listenerType := listenerType;
                    Update.listenInterface := None;
                    Update.data := APrim (Overlay.text overlay);
                    Update.device := None;
                    Update.noLog := Some true |}))
  end.

Definition listenersIntevalFn (overlayIds : list string) (settings : list Setting)
    (id : string) : M unit :=
  forOf overlayIds (reconcileOverlay settings id).

End Reconciler.

(** ** Template formatter *)

Global Instance Completion_ret : MRet Completion := @Normal.
Global Instance Completion_bind : MBind Completion := fun A B f c =>
  match c with
  | Normal a => f a
  | Throw e => Throw e
  end.

(** *** [String.prototype.replace] with a string pattern *)

(** GetSubstitution when the pattern is a string: there are no captures, so
    only [$$], [$&], [$`] and [$'] are expanded, every other character of the
    replacement is copied. *)
Fixpoint getSubstitution (matched before after template : string) : string :=
  match template with
  | EmptyString => EmptyString
  | String a tl =>
      if Ascii.eqb a "$" then
        match tl with
        | String c rest =>
            if Ascii.eqb c "$" then String "$" (getSubstitution matched before after rest)
            else if Ascii.eqb c "&" then matched +:+ getSubstitution matched before after rest
            else if Ascii.eqb c "`" then before +:+ getSubstitution matched before after rest
            else if Ascii.eqb c "'" then after +:+ getSubstitution matched before after rest
            else String "$" (getSubstitution matched before after tl)
        | EmptyString => String "$" EmptyString
        end
      else String a (getSubstitution matched before after tl)
  end.

(** [s.replace(searchValue, replaceValue)]: the first occurrence only. *)
Definition replace (s searchValue replaceValue : string) : string :=
  match String.index 0 searchValue s with
  | None => s
  | Some pos =>
      let tailPos := (pos + String.length searchValue)%nat in
      let before := String.substring 0 pos s in
      let after := String.substring tailPos (String.length s - tailPos) s in
      before +:+ getSubstitution searchValue before after replaceValue +:+ after
  end.

(** *** [Number.prototype.toFixed] *)

Inductive IntegerOrInfinity : Type :=
| IInfinity (negative : bool)
| IInteger (z : Z).

(** The decimal digits of a natural number. *)
Definition decimal (n : Z) : string := NilZero.string_of_uint (N.to_uint (Z.to_N n)).

Definition zeros (n : nat) : string := string_of_list_ascii (repeat "0"%char n).

Section Formatter.

Variable getDeviceById : prim -> option ScryptedDevice.

(** StringToNumber of the language: the double a string denotes, [NaN] when
    it denotes none. *)
Variable StringToNumber : string -> jsnum.

(** Number::toString of the language, on the finite numbers not below
    [10^21], which print in exponent notation. *)
Variable NumberToString : Q -> string.

(** ToNumber on primitives. *)
Definition ToNumber (v : prim) : jsnum :=
  match v with
  | VUndefined => NaN
  | VNull => Finite 0
  | VBool b => if b then Finite 1 else Finite 0
  | VNumber n => n
  | VString s => StringToNumber s
  end.

(** [Number(data ?? 0)]; an object that is a detection event has no numeric
    value. *)
Definition Number_or_0 (data : any) : jsnum :=
  match data with
  | APrim p => ToNumber (nullish_or p (VNumber (Finite 0)))
  | AObjects _ => NaN
  end.

Definition ToIntegerOrInfinity (v : prim) : IntegerOrInfinity :=
  match ToNumber v with
  | NaN => IInteger 0
  | Infinity negative => IInfinity negative
  | Finite q => IInteger (Z.quot (Qnum q) (Zpos (Qden q)))
  end.

(** The integer [n] for which [n / 10^f - x] is closest to zero, the larger
    one of two, for [x >= 0]. *)
Definition nearest (x : Q) (f : Z) : Z :=
  (2 * Qnum x * 10 ^ f + Zpos (Qden x)) / (2 * Zpos (Qden x)).

(** The digits of [n] with a point before the last [f] of them. *)
Definition pointed (n : Z) (f : nat) : string :=
  let m := if (n =? 0)%Z then "0" else decimal n in
  match f with
  | O => m
  | S _ =>
      let k := String.length m in
      let m := if (k <=? f)%nat then zeros (f + 1 - k) +:+ m else m in
      let k := String.length m in
      String.substring 0 (k - f) m +:+ "." +:+ String.substring (k - f) f m
  end.

(** [x.toFixed(fractionDigits)]. *)
Definition toFixed (x : jsnum) (fractionDigits : prim) : Completion string :=
  match ToIntegerOrInfinity fractionDigits with
  | IInfinity _ => Throw RangeError
  | IInteger f =>
      if ((f <? 0) || (100 <? f))%Z then Throw RangeError
      else
        match x with
        | NaN => Normal "NaN"
        | Infinity negative => Normal (if negative then "-Infinity" else "Infinity")
        | Finite q =>
            let s := if (Qnum q <? 0)%Z then "-" else EmptyString in
            let x := Qabs q in
            if Qle_bool (inject_Z (10 ^ 21)) x then Normal (s +:+ NumberToString x)
            else Normal (s +:+ pointed (nearest x f) (Z.to_nat f))
        end
  end.

(** [data?.detections?.find(det => det.className === 'face')?.label]. *)
Definition faceLabel (data : any) : option string :=
  match data with
  | APrim _ => None
  | AObjects od =>
      match detections od with
      | None => None
      | Some dets =>
          match List.find (fun det => String.eqb (className det) "face") dets with
          | Some det => label det
          | None => None
          end
      end
  end.

(** ToBoolean of a string or [undefined]. *)
Definition truthy_string (v : option string) : bool :=
  match v with
  | Some s => negb (String.eqb s EmptyString)
  | None => false
  end.

(** [v || '']. *)
Definition or_empty (v : option string) : string :=
  if truthy_string v then default EmptyString v else EmptyString.

Definition parseOverlayData (listenerType : option ListenerType) (data : any)
    (overlay : Overlay.t) : Completion prim :=
  let regex := Overlay.regex overlay in
  let text := Overlay.text overlay in
  let device := Overlay.device overlay in
  let maxDecimals := Overlay.maxDecimals overlay in
  let realDevice := if truthy device then getDeviceById device else None in
  let textToUpdate := text in
  vu ← match listenerType with
       | Some Face => Normal (faceLabel data, None)
       | Some Temperature =>
           value ← toFixed (Number_or_0 data) maxDecimals;
           unit ← match realDevice with
                  | Some d => Normal (temperatureUnit d)
                  | None => Throw TypeError (* realDevice.temperatureUnit of undefined *)
                  end;
           Normal (Some value, unit)
       | Some Humidity =>
           value ← toFixed (Number_or_0 data) maxDecimals;
           Normal (Some value, Some "%")
       | None => Normal (None, None)
       end;
  let value := vu.1 in
  let unit := vu.2 in
  if truthy_string value then
    match regex with
    | VString template =>
        Normal (VString (replace (replace template "${value}" (or_empty value))
                                 "${unit}" (or_empty unit)))
    | _ => Throw TypeError (* regex.replace of a value that has no such method *)
    end
  else Normal textToUpdate.

End Formatter.

(** * Vocabulary of the properties *)

(** ** Reading traces *)

Definition is_listen (e : Effect) : bool :=
  match e with Listen _ _ _ _ => true | _ => false end.

Definition is_remove (e : Effect) : bool :=
  match e with RemoveListener _ => true | _ => false end.

(** The number of [listen] calls, and of [removeListener] calls, of a trace. *)
Definition subscribes (t : list Effect) : nat := length (filter (fun e => is_listen e = true) t).
Definition releases (t : list Effect) : nat := length (filter (fun e => is_remove e = true) t).

(** The [removeListener] call that the guard
    [currentListener?.listener && ...] lets through. *)
Definition removal (entry : option Binding.t) : list Effect :=
  match entry with
  | Some b =>
      match Binding.listener b with
      | Some h => [RemoveListener h]
      | None => []
      end
  | None => []
  end.

(** The props the [update] closure of a subscription hands to [onUpdateFn]. *)
Definition updateProps (overlayId : string) (lt : ListenerType) (li : ScryptedInterface)
    (realDevice : ScryptedDevice) (data : any) : Update.t :=
  {| Update.listenInterface := Some li;
     Update.overlayId := overlayId;
     Update.data := data;
     Update.listenerType := Some lt;
     Update.device := Some realDevice;
     Update.noLog := None |}.

(** The push of the current reading that follows a new subscription. *)
Definition firstPush (overlayId : string) (lt : ListenerType) (li : ScryptedInterface)
    (realDevice : ScryptedDevice) : list Effect :=
  match li with
  | Thermometer => [OnUpdate (updateProps overlayId lt li realDevice (APrim (temperature realDevice)))]
  | HumiditySensor => [OnUpdate (updateProps overlayId lt li realDevice (APrim (humidity realDevice)))]
  | _ => []
  end.

(** The interface each listener type listens on. *)
Definition interfaceOf (lt : ListenerType) : ScryptedInterface :=
  match lt with
  | Temperature => Thermometer
  | Humidity => HumiditySensor
  | Face => ObjectDetection
  end.

(** The listener type and interface a sensor resolves to: temperature is
    looked for first. *)
Definition sensorKind (d : ScryptedDevice) : option (ListenerType * ScryptedInterface) :=
  if includes Thermometer (interfaces d) then Some (Temperature, Thermometer)
  else if includes HumiditySensor (interfaces d) then Some (Humidity, HumiditySensor)
  else None.

(** The current reading of a sensor on an interface. *)
Definition reading (li : ScryptedInterface) (d : ScryptedDevice) : prim :=
  match li with
  | Thermometer => temperature d
  | HumiditySensor => humidity d
  | _ => VUndefined
  end.

(** Whether a recorded binding differs from the desired one in listener type
    or in device. *)
Definition bindingChanged (b : Binding.t) (lt : ListenerType) (device : prim) : bool :=
  negb (bool_decide (Binding.listenerType b = lt)) || negb (strict_eq (Binding.device b) device).

(** The push of a static text. *)
Definition textPush (overlayId : string) (text : prim) : Effect :=
  OnUpdate {| Update.overlayId := overlayId;
              Update.listenerType := None;
              Update.listenInterface := None;
              Update.data := APrim text;
              Update.device := None;
              Update.noLog := Some true |}.

(** The rest of a pass: the overlay ids [post] from the store [s], after the
    trace [t]. *)
Definition then_pass (getDeviceById : prim -> option ScryptedDevice) (settings : list Setting)
    (id : string) (post : list string) (s : Store) (t : list Effect) :
    Completion unit * Store * list Effect :=
  let r := listenersIntevalFn getDeviceById post settings id s in
  (r.1.1, r.1.2, t ++ r.2).

(** ** Reading settings *)

(** The namespaced key under which a field of a slot is looked up. *)
Definition slotKey (overlayId field : string) : string :=
  "osdManager:overlay:" +:+ overlayId +:+ ":" +:+ field.

(** No setting of the list has the key [k]. *)
Definition no_setting (settings : list Setting) (k : string) : Prop :=
  forall s, In s settings -> key s <> k.

(** ** Runs of the loop body *)

(** The guard of line 203, once the slot has resolved to a listener type and
    an interface. *)
Definition changed (overlay : Overlay.t) (lt : ListenerType) (deviceId : prim)
    (entry : option Binding.t) : bool :=
  let differentType :=
    match entry with
    | None => true
    | Some b => listenerType_differs (Binding.listenerType b) (Some lt)
    end in
  let differentDevice :=
    if strict_eq (Overlay.type overlay) (OverlayType_value Device)
    then negb (strict_eq (match entry with Some b => Binding.device b | None => VUndefined end)
                         (Overlay.device overlay))
    else false in
  truthy deviceId && (differentType || differentDevice).

Section ReconcilerNotions.

Variable getDeviceById : prim -> option ScryptedDevice.
Variable settings : list Setting.
Variable id : string.

Local Abbreviation slot := (reconcileOverlay getDeviceById settings id).

(** A slot is at rest on an entry when, in every store that holds this
    entry for it, reconciling the slot leaves the store as it is and
    produces the trace [t]. *)
Definition at_rest (overlayId : string) (entry : option Binding.t) (t : list Effect) : Prop :=
  forall s, currentListeners s !! overlayId = entry -> slot overlayId s = (Normal tt, s, t).

(** The three ways the loop body can go. *)
Inductive SlotRun (overlayId : string) (s : Store) : Prop :=
| RunRest (t : list Effect)
    (Hrest : at_rest overlayId (currentListeners s !! overlayId) t)
    (Hlisten : Forall (fun e => is_listen e = false) t)
    (Hremove : forall h, In (RemoveListener h) t ->
               strict_eq (Overlay.type (getOverlay settings overlayId)) (OverlayType_value Text) = true /\
               exists b, currentListeners s !! overlayId = Some b /\ Binding.listener b = Some h)
| RunThrow
    (Hface : strict_eq (Overlay.type (getOverlay settings overlayId))
               (OverlayType_value FaceDetection) = true)
    (Hid : truthy (VString id) = true)
    (Hhost : getDeviceById (VString id) = None)
    (Hthrow : forall s', currentListeners s' !! overlayId = currentListeners s !! overlayId ->
              slot overlayId s' = (Throw TypeError, s', []))
| RunSubscribe (realDevice : ScryptedDevice) (lt : ListenerType) (li : ScryptedInterface)
    (deviceId : prim)
    (Hdevice : getDeviceById deviceId = Some realDevice)
    (Hkind : li = interfaceOf lt)
    (Hsensor : li <> ObjectDetection ->
               deviceId = Overlay.device (getOverlay settings overlayId))
    (Hrun : slot overlayId s =
            (Normal tt,
             {| currentListeners :=
                  <[overlayId := {| Binding.listenerType := lt;
                                    Binding.listener := Some (nextHandle s);
                                    Binding.device := Overlay.device (getOverlay settings overlayId) |}]>
                    (currentListeners s);
                nextHandle := S (nextHandle s) |},
             ConsoleLog (StartingListener overlayId (name realDevice) lt li)
               :: removal (currentListeners s !! overlayId)
               ++ Listen deviceId li (updateProps overlayId lt li realDevice) (nextHandle s)
               :: firstPush overlayId lt li realDevice))
    (Hafter : at_rest overlayId
                (Some {| Binding.listenerType := lt;
                         Binding.listener := Some (nextHandle s);
                         Binding.device := Overlay.device (getOverlay settings overlayId) |})
                []).

End ReconcilerNotions.

(** ** Reading formatted numbers *)

Definition is_digit (c : ascii) : bool :=
  (48 <=? nat_of_ascii c)%nat && (nat_of_ascii c <=? 57)%nat.

Fixpoint all_digits (s : string) : bool :=
  match s with
  | EmptyString => true
  | String c rest => is_digit c && all_digits rest
  end.

Definition no_dollar (s : string) : bool :=
  forallb (fun c => negb (Ascii.eqb c "$")) (list_ascii_of_string s).

(** The sign [toFixed] prints. *)
Definition sign (q : Q) : string := if (Qnum q <? 0)%Z then "-" else EmptyString.

(** ** Sample inputs *)

Definition deviceA : ScryptedDevice :=
  {| name := "Sensor A"; interfaces := [Thermometer];
     temperature := VNumber (Finite (215 # 10)); humidity := VUndefined;
     temperatureUnit := Some "C" |}.

Definition deviceB : ScryptedDevice :=
  {| name := "Sensor B"; interfaces := [Thermometer; HumiditySensor];
     temperature := VNumber (Finite (19 # 1)); humidity := VNumber (Finite (40 # 1));
     temperatureUnit := Some "C" |}.

Definition camera : ScryptedDevice :=
  {| name := "Camera"; interfaces := [ObjectDetection; VideoTextOverlays];
     temperature := VUndefined; humidity := VUndefined; temperatureUnit := None |}.

(** A registry with two sensors and the host camera. *)
Definition registry (deviceId : prim) : option ScryptedDevice :=
  match deviceId with
  | VString "deviceA" => Some deviceA
  | VString "deviceB" => Some deviceB
  | VString "camera" => Some camera
  | _ => None
  end.

(** A registry in which the host camera does not resolve. *)
Definition registry_without_camera (deviceId : prim) : option ScryptedDevice :=
  match deviceId with
  | VString "deviceA" => Some deviceA
  | _ => None
  end.

Definition setting (overlayId field : string) (v : prim) : Setting :=
  {| key := slotKey overlayId field; value := v |}.

Definition bound_to (overlayId device : string) : list Setting :=
  [setting overlayId "type" (VString "Device");
   setting overlayId "device" (VString device)].

Definition face_slot (overlayId : string) : list Setting :=
  [setting overlayId "type" (VString "FaceDetection")].

Definition text_slot (overlayId text : string) : list Setting :=
  [setting overlayId "type" (VString "Text");
   setting overlayId "text" (VString text)].

Definition emptyStore : Store := {| currentListeners := ∅; nextHandle := 0 |}.

(** A store in which slot 1 holds a subscription [h] of kind [lt] stamped
    with [device]. *)
Definition bound_store (lt : ListenerType) (h : Handle) (device : prim) : Store :=
  {| currentListeners :=
       {[ "1" := {| Binding.listenerType := lt; Binding.listener := Some h;
                    Binding.device := device |} ]};
     nextHandle := S h |}.

(** A first pass over a sensor slot and a face slot. *)
Definition first_pass_sample : Completion unit * Store * list Effect :=
  listenersIntevalFn registry ["1"; "2"] (bound_to "1" "deviceA" ++ face_slot "2")
    "camera" emptyStore.

(** The store a pass over slot 1 as a face slot leaves, and the pass over the
    same slot as a text slot that follows it. *)
Definition store_after_face : Store :=
  (listenersIntevalFn registry ["1"] (face_slot "1") "camera" emptyStore).1.2.

Definition first_text_pass : Completion unit * Store * list Effect :=
  listenersIntevalFn registry ["1"] (text_slot "1" "Hello") "camera" store_after_face.

(** A first pass over a slot bound to a thermometer. *)
Definition first_subscription : Completion unit * Store * list Effect :=
  listenersIntevalFn registry ["1"] (bound_to "1" "deviceA") "camera" emptyStore.

(** A storage that holds the type and the device of slot 1 and nothing else. *)
Definition storage_of_a_bound_slot (k : string) : prim :=
  if String.eqb k "overlay:1:type" then VString "Device"
  else if String.eqb k "overlay:1:device" then VString "deviceA"
  else VUndefined.

(** Stand-ins for the two functions of the language the formatter is
    parameterised by; the sample inputs reach neither, and give the same
    results whatever the two functions are. *)
Definition noNumericString (s : string) : jsnum := NaN.
Definition exponentForm (q : Q) : string := "1e+21".

Definition sample_overlay (template : prim) (maxDecimals : prim) : Overlay.t :=
  {| Overlay.text := VString "Hello"; Overlay.type := VString "Device";
     Overlay.device := VString "deviceA"; Overlay.regex := template;
     Overlay.maxDecimals := maxDecimals |}.

Definition detected (dets : list ObjectDetectionResult) : any :=
  AObjects {| detections := Some dets |}.

(** ** Reading the settings view, traces and digits *)
(** The five keys of a slot, and the five field names they end in. *)
Definition slotKeys (overlayId : string) : list string :=
  let keys := getOverlayKeys overlayId in
  [textKey keys; typeKey keys; regexKey keys; deviceKey keys; maxDecimalsKey keys].

Definition slotFields : list string := ["text"; "type"; "regex"; "device"; "maxDecimals"].

Fixpoint has_colon (s : string) : bool :=
  match s with
  | EmptyString => false
  | String c rest => Ascii.eqb c ":" || has_colon rest
  end.

(** The body of the loop of [getOverlaySettings]: the settings one slot
    contributes. *)
Definition slotSettings (getItem : string -> prim) (overlayId : string) : list Setting :=
  let keys := getOverlayKeys overlayId in
  let type := nullish_or (getItem (typeKey keys)) (OverlayType_value Text) in
  let regexSetting :=
    {| key := regexKey keys;
       value := or_else (getItem (regexKey keys)) (VString "${value} ${unit}") |} in
  [{| key := typeKey keys; value := type |}]
  ++ (if strict_eq type (OverlayType_value Text)
      then [{| key := textKey keys; value := getItem (textKey keys) |}]
      else [])
  ++ (if strict_eq type (OverlayType_value Device)
      then [{| key := deviceKey keys; value := getItem (deviceKey keys) |};
            regexSetting;
            {| key := maxDecimalsKey keys;
               value := nullish_or (getItem (maxDecimalsKey keys)) (VNumber (Finite 1)) |}]
      else if strict_eq type (OverlayType_value FaceDetection)
      then [regexSetting]
      else []).

(** The settings with their keys under the group key of the mixin
    ([groupKey: osdManagerPrefix]), which is where [getOverlay] looks them
    up. *)
Definition underPrefix (settings : list Setting) : list Setting :=
  map (fun s => {| key := osdManagerPrefix +:+ ":" +:+ key s; value := value s |}) settings.

(** The last setting of a list that has the key [k]. *)
Definition lastSetting (settings : list Setting) (k : string) : option Setting :=
  List.find (fun s => String.eqb (key s) k) (rev settings).

(** The value the settings hold for a key: that of the last setting that has
    the key, [undefined] when no setting has it. *)
Definition lastValue (settings : list Setting) (k : string) : prim :=
  match lastSetting settings k with
  | Some s => value s
  | None => VUndefined
  end.

(** Whether the settings view of a slot of type [type] holds a field, and
    the value it holds for it. *)
Definition shows (type : prim) (field : string) : bool :=
  if String.eqb field "type" then true
  else if String.eqb field "text" then strict_eq type (OverlayType_value Text)
  else if String.eqb field "device" then strict_eq type (OverlayType_value Device)
  else if String.eqb field "regex" then
    strict_eq type (OverlayType_value Device) || strict_eq type (OverlayType_value FaceDetection)
  else if String.eqb field "maxDecimals" then strict_eq type (OverlayType_value Device)
  else false.

Definition shownValue (getItem : string -> prim) (overlayId field : string) : prim :=
  let k := "overlay:" +:+ overlayId +:+ ":" +:+ field in
  if String.eqb field "type" then nullish_or (getItem k) (OverlayType_value Text)
  else if String.eqb field "regex" then or_else (getItem k) (VString "${value} ${unit}")
  else if String.eqb field "maxDecimals" then nullish_or (getItem k) (VNumber (Finite 1))
  else getItem k.

(** The overlay of a slot no setting is found for. *)
Definition blankOverlay : Overlay.t :=
  {| Overlay.text := VUndefined; Overlay.type := OverlayType_value Text;
     Overlay.device := VUndefined; Overlay.regex := VUndefined;
     Overlay.maxDecimals := VUndefined |}.

(** A storage that holds a face slot 1 with a template, and a text slot 2. *)
Definition storage_of_two_slots (k : string) : prim :=
  if String.eqb k "overlay:1:type" then VString "FaceDetection"
  else if String.eqb k "overlay:1:regex" then VString "Seen: ${value}"
  else if String.eqb k "overlay:1:text" then VString "Nobody"
  else if String.eqb k "overlay:2:text" then VString "Hello"
  else VUndefined.

(** The number of [onUpdateFn] calls of a trace. *)
Definition is_update (e : Effect) : bool :=
  match e with OnUpdate _ => true | _ => false end.

Definition pushes (t : list Effect) : nat := length (filter (fun e => is_update e = true) t).

(** The number a string of decimal digits denotes. *)
Fixpoint digitsValueFrom (acc : Z) (s : string) : Z :=
  match s with
  | EmptyString => acc
  | String c rest => digitsValueFrom (10 * acc + (Z.of_nat (nat_of_ascii c) - 48)) rest
  end.

Definition digitsValue (s : string) : Z := digitsValueFrom 0 s.

(** Whether [toFixed] refuses a number of fraction digits. *)
Definition outOfRange (i : IntegerOrInfinity) : bool :=
  match i with
  | IInfinity _ => true
  | IInteger f => (f <? 0)%Z || (100 <? f)%Z
  end.

(** * Properties of the reconciliation *)

Lemma strict_eq_refl_truthy (v : prim) : truthy v = true -> strict_eq v v = true.
Proof.
  destruct v as [| |b|[|b|q]|s]; simpl; try done.
  - intros _. by destruct b.
  - intros _. by destruct b.
  - intros _. apply Qeq_bool_iff. reflexivity.
  - intros _. apply String.eqb_refl.
Qed.

Lemma strict_eq_string (s : string) (v : prim) :
  strict_eq v (VString s) = true <-> v = VString s.
Proof.
  split.
  - destruct v as [| |b|[|b|q]|s']; simpl; try done.
    intros H. apply String.eqb_eq in H. by subst.
  - intros ->. simpl. apply String.eqb_refl.
Qed.

Ltac unfold_M :=
  unfold mbind, M_bind, bind, readListener, when, removeCurrent, emit, listen,
    writeListener, ret, throw in *.

Lemma listenerType_differs_same (lt : ListenerType) :
  listenerType_differs lt (Some lt) = false.
Proof. unfold listenerType_differs. by rewrite bool_decide_eq_true_2. Qed.

Lemma removal_In (entry : option Binding.t) (h : Handle) :
  In (RemoveListener h) (removal entry) ->
  exists b, entry = Some b /\ Binding.listener b = Some h.
Proof.
  destruct entry as [[lt [h'|] dev]|]; simpl; try tauto.
  intros [H|[]]. injection H as ->. eauto.
Qed.

Lemma removal_no_listen (entry : option Binding.t) :
  Forall (fun e => is_listen e = false) (removal entry).
Proof. destruct entry as [[lt [h'|] dev]|]; simpl; repeat constructor. Qed.

Ltac run_slot Hov :=
  unfold reconcileOverlay, resolveListener; rewrite <- ?Hov; unfold_M.

Section ReconcilerFacts.

Variable getDeviceById : prim -> option ScryptedDevice.
Variable settings : list Setting.
Variable id : string.

Local Abbreviation slot := (reconcileOverlay getDeviceById settings id).
Local Abbreviation pass := (fun overlayIds => listenersIntevalFn getDeviceById overlayIds settings id).
Local Abbreviation resting := (at_rest getDeviceById settings id).
Local Abbreviation Run := (SlotRun getDeviceById settings id).

(** The loop body after a resolution to a listener type. *)
Lemma slot_resolved (overlayId : string) (lt : ListenerType) (li : ScryptedInterface)
    (deviceId : prim) (s : Store) :
  let overlay := getOverlay settings overlayId in
  (forall s', resolveListener getDeviceById overlay id s' =
              (Normal {| r_listenerType := Some lt; r_listenInterface := Some li;
                         r_deviceId := deviceId |}, s', [])) ->
  slot overlayId s =
  if changed overlay lt deviceId (currentListeners s !! overlayId) then
    match getDeviceById deviceId with
    | None => (Throw TypeError, s, [])
    | Some realDevice =>
        (Normal tt,
         {| currentListeners :=
              <[overlayId := {| Binding.listenerType := lt;
                                Binding.listener := Some (nextHandle s);
                                Binding.device := Overlay.device overlay |}]>
                (currentListeners s);
            nextHandle := S (nextHandle s) |},
         ConsoleLog (StartingListener overlayId (name realDevice) lt li)
           :: removal (currentListeners s !! overlayId)
           ++ Listen deviceId li (updateProps overlayId lt li realDevice) (nextHandle s)
           :: firstPush overlayId lt li realDevice)
    end
  else (Normal tt, s, []).
Proof.
  intros overlay Hres. unfold reconcileOverlay. fold overlay.
  unfold mbind, M_bind, bind at 1. rewrite Hres. cbn [r_listenerType r_listenInterface r_deviceId].
  unfold bind at 1, readListener.
  fold (changed overlay lt deviceId (currentListeners s !! overlayId)).
  destruct (changed overlay lt deviceId (currentListeners s !! overlayId)); [|done].
  unfold when. destruct (getDeviceById deviceId) as [d|]; [|done].
  unfold_M. unfold removal, firstPush, updateProps.
  by destruct (currentListeners s !! overlayId) as [[lt0 [h|] dev0]|], li.
Qed.

Lemma slot_run_resolved (overlayId : string) (s : Store) (lt : ListenerType)
    (li : ScryptedInterface) (deviceId : prim) :
  let overlay := getOverlay settings overlayId in
  (forall s', resolveListener getDeviceById overlay id s' =
              (Normal {| r_listenerType := Some lt; r_listenInterface := Some li;
                         r_deviceId := deviceId |}, s', [])) ->
  (strict_eq (Overlay.type overlay) (OverlayType_value Device) = true ->
   deviceId = Overlay.device overlay /\ is_Some (getDeviceById deviceId)) ->
  (strict_eq (Overlay.type overlay) (OverlayType_value Device) = false ->
   strict_eq (Overlay.type overlay) (OverlayType_value FaceDetection) = true /\
   deviceId = VString id /\ li = ObjectDetection) ->
  li = interfaceOf lt ->
  Run overlayId s.
Proof.
  intros overlay Hres HD HF Hkind.
  pose proof (strict_eq_refl_truthy (Overlay.device overlay)) as Hrefl.
  pose proof (fun s' => slot_resolved overlayId lt li deviceId s' Hres) as Hbody.
  subst overlay. cbv zeta in Hbody.
  destruct (changed (getOverlay settings overlayId) lt deviceId (currentListeners s !! overlayId)) eqn:Hc.
  - assert (Htr : truthy deviceId = true).
    { unfold changed in Hc. by apply andb_true_iff in Hc as [? _]. }
    destruct (getDeviceById deviceId) as [d|] eqn:Hd.
    + apply RunSubscribe with (realDevice := d) (lt := lt) (li := li) (deviceId := deviceId).
      * done.
      * done.
      * intros Hli. destruct (strict_eq (Overlay.type (getOverlay settings overlayId)) (OverlayType_value Device)) eqn:Ht.
        -- by destruct HD.
        -- destruct HF as (_ & _ & ?); done.
      * by rewrite Hbody, Hc.
      * intros s' Hs'. rewrite Hbody, Hs'.
        replace (changed (getOverlay settings overlayId) lt deviceId _) with false; [done|].
        unfold changed. cbn [Binding.listenerType Binding.device].
        rewrite listenerType_differs_same, orb_false_l.
        destruct (strict_eq (Overlay.type (getOverlay settings overlayId)) (OverlayType_value Device)) eqn:Ht.
        -- destruct HD as [-> _]; [done|]. rewrite Hrefl by done.
           by rewrite andb_false_r.
        -- by rewrite andb_false_r.
    + destruct (strict_eq (Overlay.type (getOverlay settings overlayId)) (OverlayType_value Device)) eqn:Ht.
      { destruct HD as [_ [? ?]]; [done|congruence]. }
      destruct HF as (Hface & -> & ->); [done|].
      apply RunThrow; try done.
      intros s' Hs'. by rewrite Hbody, Hs', Hc.
  - apply RunRest with (t := []).
    + intros s' Hs'. by rewrite Hbody, Hs', Hc.
    + constructor.
    + intros h [].
Qed.

Lemma slot_run (overlayId : string) (s : Store) : Run overlayId s.
Proof.
  remember (getOverlay settings overlayId) as overlay eqn:Hov.
  destruct (strict_eq (Overlay.type overlay) (OverlayType_value Device)) eqn:HtD.
  - assert (HtT : strict_eq (Overlay.type overlay) (OverlayType_value Text) = false).
    { apply strict_eq_string in HtD. by rewrite HtD. }
    destruct (getDeviceById (Overlay.device overlay)) as [d|] eqn:Hd.
    + destruct (includes Thermometer (interfaces d)) eqn:Hth;
        [|destruct (includes HumiditySensor (interfaces d)) eqn:Hhu].
      * apply slot_run_resolved with (lt := Temperature) (li := Thermometer)
          (deviceId := Overlay.device overlay); rewrite <- ?Hov.
        -- intros s'. unfold resolveListener. by rewrite HtD, Hd, Hth.
        -- intros _. by rewrite Hd.
        -- congruence.
        -- done.
      * apply slot_run_resolved with (lt := Humidity) (li := HumiditySensor)
          (deviceId := Overlay.device overlay); rewrite <- ?Hov.
        -- intros s'. unfold resolveListener. by rewrite HtD, Hd, Hth, Hhu.
        -- intros _. by rewrite Hd.
        -- congruence.
        -- done.
      * apply RunRest with (t := []).
        -- intros s' Hs'. run_slot Hov. rewrite HtD, Hd, Hth, Hhu. by rewrite HtT.
        -- constructor.
        -- intros h [].
    + apply RunRest with (t := [ConsoleLog (DeviceNotFound (Overlay.device overlay))]).
      * intros s' Hs'. run_slot Hov. rewrite HtD, Hd. by rewrite HtT.
      * repeat constructor.
      * intros h [?|[]]. done.
  - destruct (strict_eq (Overlay.type overlay) (OverlayType_value FaceDetection)) eqn:HtF.
    + apply slot_run_resolved with (lt := Face) (li := ObjectDetection)
        (deviceId := VString id); rewrite <- ?Hov.
      * intros s'. unfold resolveListener. by rewrite HtD, HtF.
      * congruence.
      * done.
      * done.
    + destruct (strict_eq (Overlay.type overlay) (OverlayType_value Text)) eqn:HtT.
      * apply RunRest with
          (t := removal (currentListeners s !! overlayId)
                ++ [textPush overlayId (Overlay.text overlay)]).
        -- intros s' Hs'. run_slot Hov. rewrite HtD, HtF, HtT, Hs'.
           unfold removal, textPush.
           by destruct (currentListeners s !! overlayId) as [[lt0 [h|] dev0]|].
        -- apply Forall_app. split; [apply removal_no_listen|repeat constructor].
        -- intros h Hin. apply in_app_or in Hin as [Hin|[?|[]]]; [|done].
           rewrite <- Hov. split; [done|]. by apply removal_In.
      * apply RunRest with (t := []).
        -- intros s' Hs'. run_slot Hov. by rewrite HtD, HtF, HtT.
        -- constructor.
        -- intros h [].
Qed.

(** *** From the loop body to the pass *)

Lemma pass_cons (overlayId : string) (rest : list string) (s : Store) :
  pass (overlayId :: rest) s =
  match slot overlayId s with
  | (Normal _, s1, t1) =>
      match pass rest s1 with
      | (c, s2, t2) => (c, s2, t1 ++ t2)
      end
  | (Throw e, s1, t1) => (Throw e, s1, t1)
  end.
Proof. reflexivity. Qed.

(** Reconciling one slot leaves the entries of the other slots alone. *)
Lemma slot_other_entry (overlayId other : string) (s s' : Store) (c : Completion unit)
    (t : list Effect) :
  overlayId <> other -> slot overlayId s = (c, s', t) ->
  currentListeners s' !! other = currentListeners s !! other.
Proof.
  intros Hne Hrun. destruct (slot_run overlayId s).
  - rewrite (Hrest s eq_refl) in Hrun. by simplify_eq.
  - rewrite (Hthrow s eq_refl) in Hrun. by simplify_eq.
  - rewrite Hrun0 in Hrun. simplify_eq. simpl. by rewrite lookup_insert_ne.
Qed.

(** An entry on which its slot is at rest survives any slot's reconciliation. *)
Lemma slot_keeps_rest (overlayId other : string) (entry : option Binding.t)
    (t0 t : list Effect) (s s' : Store) (c : Completion unit) :
  resting other entry t0 -> currentListeners s !! other = entry ->
  slot overlayId s = (c, s', t) ->
  currentListeners s' !! other = entry.
Proof.
  intros Hrest Hentry Hrun. destruct (decide (overlayId = other)) as [->|Hne].
  - rewrite (Hrest s Hentry) in Hrun. by simplify_eq.
  - by rewrite (slot_other_entry _ _ _ _ _ _ Hne Hrun).
Qed.

Lemma pass_keeps_rest (overlayIds : list string) (other : string)
    (entry : option Binding.t) (t0 t : list Effect) (s s' : Store) (c : Completion unit) :
  resting other entry t0 -> currentListeners s !! other = entry ->
  pass overlayIds s = (c, s', t) ->
  currentListeners s' !! other = entry.
Proof.
  intros Hrest. revert s t. induction overlayIds as [|overlayId rest IH]; intros s t Hentry Hrun.
  - cbv in Hrun. by simplify_eq.
  - rewrite pass_cons in Hrun.
    destruct (slot overlayId s) as [[[[]|e] s1] t1] eqn:Hslot.
    + destruct (pass rest s1) as [[c2 s2] t2] eqn:Hpass. simplify_eq.
      eapply IH; [|done]. by eapply slot_keeps_rest.
    + simplify_eq. by eapply slot_keeps_rest.
Qed.

(** A pass that is run again on the store it produced ends the same way,
    leaves the store as it is and subscribes to nothing; what it releases are
    the handles still recorded for slots of type [Text]. *)
Lemma pass_again (overlayIds : list string) (s s1 : Store) (c : Completion unit)
    (t1 : list Effect) :
  pass overlayIds s = (c, s1, t1) ->
  exists t2,
    pass overlayIds s1 = (c, s1, t2) /\
    Forall (fun e => is_listen e = false) t2 /\
    forall h, In (RemoveListener h) t2 ->
      exists overlayId b,
        In overlayId overlayIds /\
        strict_eq (Overlay.type (getOverlay settings overlayId)) (OverlayType_value Text) = true /\
        currentListeners s1 !! overlayId = Some b /\ Binding.listener b = Some h.
Proof.
  revert s t1. induction overlayIds as [|overlayId rest IH]; intros s t1 Hrun.
  - cbv in Hrun. simplify_eq. exists []. split_and!; [done|constructor|intros h []].
  - rewrite pass_cons in Hrun.
    assert (Hstep : forall entry t0 sa ta,
      resting overlayId entry t0 -> currentListeners sa !! overlayId = entry ->
      Forall (fun e => is_listen e = false) t0 ->
      (forall h, In (RemoveListener h) t0 ->
         strict_eq (Overlay.type (getOverlay settings overlayId)) (OverlayType_value Text) = true /\
         exists b, entry = Some b /\ Binding.listener b = Some h) ->
      pass rest sa = (c, s1, ta) ->
      exists t2,
        pass (overlayId :: rest) s1 = (c, s1, t2) /\
        Forall (fun e => is_listen e = false) t2 /\
        forall h, In (RemoveListener h) t2 ->
          exists overlayId0 b,
            In overlayId0 (overlayId :: rest) /\
            strict_eq (Overlay.type (getOverlay settings overlayId0)) (OverlayType_value Text) = true /\
            currentListeners s1 !! overlayId0 = Some b /\ Binding.listener b = Some h).
    { intros entry t0 sa ta Hrest Hentry Hl Hr Hpass.
      pose proof (pass_keeps_rest _ _ _ _ _ _ _ _ Hrest Hentry Hpass) as Hentry1.
      destruct (IH _ _ Hpass) as (t2 & Hpass2 & Hl2 & Hr2).
      exists (t0 ++ t2). split_and!.
      - rewrite pass_cons, (Hrest s1 Hentry1), Hpass2. done.
      - by apply Forall_app.
      - intros h Hin. apply in_app_or in Hin as [Hin|Hin].
        + destruct (Hr h Hin) as (Htext & b & -> & Hb).
          exists overlayId, b. split_and!; try done. by left.
        + destruct (Hr2 h Hin) as (o & b & ? & ? & ? & ?).
          exists o, b. split_and!; try done. by right. }
    destruct (slot_run overlayId s).
    + rewrite (Hrest s eq_refl) in Hrun.
      destruct (pass rest s) as [[c2 s2] t2] eqn:Hpass. simplify_eq.
      eapply Hstep; try done.
    + rewrite (Hthrow s eq_refl) in Hrun. simplify_eq.
      exists []. split_and!; [|constructor|intros h []].
      by rewrite pass_cons, (Hthrow s1 eq_refl).
    + rewrite Hrun0 in Hrun. cbv beta iota in Hrun.
      match type of Hrun with context [listenersIntevalFn _ rest _ _ ?sa] =>
        destruct (pass rest sa) as [[c2 s2] t2] eqn:Hpass end.
      simplify_eq.
      eapply Hstep; [exact Hafter| |constructor|intros h []|exact Hpass].
      simpl. by rewrite lookup_insert_eq.
Qed.

End ReconcilerFacts.

(** ** The loop body case by case, and whole passes *)

Lemma subscribes_none (t : list Effect) :
  Forall (fun e => is_listen e = false) t -> subscribes t = 0%nat.
Proof.
  unfold subscribes. induction 1 as [|e t He _ IH]; [done|].
  rewrite filter_cons_False; [done|]. by rewrite He.
Qed.

Lemma releases_none (t : list Effect) :
  (forall h, ~ In (RemoveListener h) t) -> releases t = 0%nat.
Proof.
  unfold releases. induction t as [|e t IH]; intros Hno; [done|].
  rewrite filter_cons_False.
  - apply IH. intros h Hin. apply (Hno h). by right.
  - destruct e; simpl; try done. exfalso. apply (Hno h). by left.
Qed.

Section PassFacts.

Variable getDeviceById : prim -> option ScryptedDevice.
Variable settings : list Setting.
Variable id : string.

Local Abbreviation slot := (reconcileOverlay getDeviceById settings id).
Local Abbreviation pass := (fun overlayIds => listenersIntevalFn getDeviceById overlayIds settings id).
Local Abbreviation resting := (at_rest getDeviceById settings id).
Local Abbreviation Run := (SlotRun getDeviceById settings id).

Lemma pass_app (pre post : list string) (s : Store) :
  pass (pre ++ post) s =
  match pass pre s with
  | (Normal _, s1, t1) =>
      match pass post s1 with
      | (c, s2, t2) => (c, s2, t1 ++ t2)
      end
  | (Throw e, s1, t1) => (Throw e, s1, t1)
  end.
Proof.
  revert s. induction pre as [|overlayId pre IH]; intros s.
  - simpl. by destruct (listenersIntevalFn _ post _ _ s) as [[c s2] t2].
  - rewrite <- app_comm_cons, !pass_cons.
    destruct (slot overlayId s) as [[[[]|e] s1] t1]; [|done].
    rewrite IH.
    destruct (pass pre s1) as [[[[]|e] s2] t2]; [|done].
    destruct (pass post s2) as [[c s3] t3]. by rewrite app_assoc.
Qed.

(** What a pass does at an overlay id it reaches is the loop body, run on the
    store the overlay ids before it left. *)
Lemma pass_at_slot (pre post : list string) (overlayId : string) (s s1 : Store)
    (t1 : list Effect) :
  pass pre s = (Normal tt, s1, t1) ->
  pass (pre ++ overlayId :: post) s =
  match slot overlayId s1 with
  | (Normal _, s2, t2) =>
      match pass post s2 with
      | (c, s3, t3) => (c, s3, t1 ++ t2 ++ t3)
      end
  | (Throw e, s2, t2) => (Throw e, s2, t1 ++ t2)
  end.
Proof.
  intros Hpre. cbv beta in *. rewrite pass_app, Hpre, pass_cons.
  destruct (slot overlayId s1) as [[[[]|e] s2] t2]; [|done].
  by destruct (listenersIntevalFn getDeviceById post settings id s2) as [[c s3] t3].
Qed.

(** A pass leaves alone the entries of the slots it does not visit. *)
Lemma pass_other_entry (overlayIds : list string) (other : string) (s s' : Store)
    (c : Completion unit) (t : list Effect) :
  ~ In other overlayIds -> pass overlayIds s = (c, s', t) ->
  currentListeners s' !! other = currentListeners s !! other.
Proof.
  revert s t. induction overlayIds as [|overlayId rest IH]; intros s t Hnot Hrun.
  - cbv in Hrun. by simplify_eq.
  - rewrite pass_cons in Hrun.
    assert (Hne : overlayId <> other) by (intros ->; apply Hnot; by left).
    assert (Hrest : ~ In other rest) by (intros ?; apply Hnot; by right).
    destruct (slot overlayId s) as [[[[]|e] s1] t1] eqn:Hslot.
    + destruct (pass rest s1) as [[c2 s2] t2] eqn:Hpass. simplify_eq.
      rewrite (IH _ _ Hrest Hpass). by eapply slot_other_entry.
    + simplify_eq. by eapply slot_other_entry.
Qed.

(** A slot of type [Text]: release what is recorded, push the text. *)
Lemma slot_text (overlayId : string) (s : Store) :
  strict_eq (Overlay.type (getOverlay settings overlayId)) (OverlayType_value Text) = true ->
  slot overlayId s =
  (Normal tt, s,
   removal (currentListeners s !! overlayId)
   ++ [textPush overlayId (Overlay.text (getOverlay settings overlayId))]).
Proof.
  intros HtT. pose proof HtT as Hty. apply strict_eq_string in Hty.
  unfold reconcileOverlay, resolveListener. unfold_M. rewrite HtT, Hty.
  unfold removal, textPush. simpl.
  by destruct (currentListeners s !! overlayId) as [[lt0 [h|] dev0]|].
Qed.

(** A slot of type [Device] whose device is not in the registry. *)
Lemma slot_device_not_found (overlayId : string) (s : Store) :
  strict_eq (Overlay.type (getOverlay settings overlayId)) (OverlayType_value Device) = true ->
  getDeviceById (Overlay.device (getOverlay settings overlayId)) = None ->
  slot overlayId s =
  (Normal tt, s, [ConsoleLog (DeviceNotFound (Overlay.device (getOverlay settings overlayId)))]).
Proof.
  intros HtD Hd. pose proof HtD as Hty. apply strict_eq_string in Hty.
  unfold reconcileOverlay, resolveListener. unfold_M. rewrite HtD, Hd, Hty. done.
Qed.

(** A slot of type [Device] whose device has neither capability. *)
Lemma slot_device_incapable (overlayId : string) (s : Store) (d : ScryptedDevice) :
  strict_eq (Overlay.type (getOverlay settings overlayId)) (OverlayType_value Device) = true ->
  getDeviceById (Overlay.device (getOverlay settings overlayId)) = Some d ->
  includes Thermometer (interfaces d) = false ->
  includes HumiditySensor (interfaces d) = false ->
  slot overlayId s = (Normal tt, s, []).
Proof.
  intros HtD Hd Hth Hhu. pose proof HtD as Hty. apply strict_eq_string in Hty.
  unfold reconcileOverlay, resolveListener. unfold_M. rewrite HtD, Hd, Hth, Hhu, Hty. done.
Qed.

(** A slot of type [Device] whose device resolves to a sensor. *)
Lemma slot_sensor (overlayId : string) (s : Store) (d : ScryptedDevice)
    (lt : ListenerType) (li : ScryptedInterface) :
  let overlay := getOverlay settings overlayId in
  strict_eq (Overlay.type overlay) (OverlayType_value Device) = true ->
  getDeviceById (Overlay.device overlay) = Some d ->
  sensorKind d = Some (lt, li) ->
  slot overlayId s =
  if changed overlay lt (Overlay.device overlay) (currentListeners s !! overlayId) then
    (Normal tt,
     {| currentListeners :=
          <[overlayId := {| Binding.listenerType := lt;
                            Binding.listener := Some (nextHandle s);
                            Binding.device := Overlay.device overlay |}]>
            (currentListeners s);
        nextHandle := S (nextHandle s) |},
     ConsoleLog (StartingListener overlayId (name d) lt li)
       :: removal (currentListeners s !! overlayId)
       ++ Listen (Overlay.device overlay) li (updateProps overlayId lt li d) (nextHandle s)
       :: firstPush overlayId lt li d)
  else (Normal tt, s, []).
Proof.
  intros overlay HtD Hd Hkind.
  rewrite (slot_resolved getDeviceById settings id overlayId lt li (Overlay.device overlay) s).
  - fold overlay. by rewrite Hd.
  - intros s'. fold overlay. unfold resolveListener. rewrite HtD, Hd.
    unfold sensorKind in Hkind.
    destruct (includes Thermometer (interfaces d)); [by simplify_eq|].
    destruct (includes HumiditySensor (interfaces d)); by simplify_eq.
Qed.

(** If the host id resolves whenever it is not empty, no slot throws and the
    pass visits every overlay id. *)
Lemma pass_normal (overlayIds : list string) (s : Store) :
  (truthy (VString id) = true -> is_Some (getDeviceById (VString id))) ->
  exists s' t, pass overlayIds s = (Normal tt, s', t).
Proof.
  intros Hhost. revert s. induction overlayIds as [|overlayId rest IH]; intros s.
  - by eexists _, _.
  - rewrite pass_cons. destruct (slot_run getDeviceById settings id overlayId s).
    + rewrite (Hrest s eq_refl). destruct (IH s) as (s' & t' & ->). by eexists _, _.
    + destruct (Hhost Hid) as [d Hd]. congruence.
    + rewrite Hrun. cbv beta iota.
      match goal with |- context [listenersIntevalFn _ rest _ _ ?sa] =>
        destruct (IH sa) as (s' & t' & Hp) end.
      cbv beta in Hp. rewrite Hp. by eexists _, _.
Qed.

End PassFacts.

Lemma listenerType_differs_decide (current lt : ListenerType) :
  listenerType_differs current (Some lt) = negb (bool_decide (current = lt)).
Proof.
  unfold listenerType_differs. f_equal. apply bool_decide_ext. split; congruence.
Qed.

Lemma changed_binding (overlay : Overlay.t) (lt : ListenerType) (b : Binding.t) :
  strict_eq (Overlay.type overlay) (OverlayType_value Device) = true ->
  truthy (Overlay.device overlay) = true ->
  changed overlay lt (Overlay.device overlay) (Some b) =
  bindingChanged b lt (Overlay.device overlay).
Proof.
  intros HtD Htr. unfold changed, bindingChanged.
  by rewrite HtD, Htr, listenerType_differs_decide.
Qed.

Lemma sensorKind_interface (d : ScryptedDevice) (lt : ListenerType) (li : ScryptedInterface) :
  sensorKind d = Some (lt, li) ->
  (lt = Temperature /\ li = Thermometer) \/ (lt = Humidity /\ li = HumiditySensor).
Proof.
  unfold sensorKind. repeat case_match; intros; simplify_eq; eauto.
Qed.

Section FromSlotToPass.

Variable getDeviceById : prim -> option ScryptedDevice.
Variable id : string.

(** The loop body reads of the settings the type, the device and the text of
    the slot, and nothing else. *)
Lemma slot_reads (settings settings' : list Setting) (overlayId : string) (s : Store) :
  Overlay.type (getOverlay settings' overlayId) = Overlay.type (getOverlay settings overlayId) ->
  Overlay.device (getOverlay settings' overlayId) = Overlay.device (getOverlay settings overlayId) ->
  Overlay.text (getOverlay settings' overlayId) = Overlay.text (getOverlay settings overlayId) ->
  reconcileOverlay getDeviceById settings' id overlayId s =
  reconcileOverlay getDeviceById settings id overlayId s.
Proof.
  intros Htype Hdevice Htext. unfold reconcileOverlay, resolveListener. cbv zeta.
  by rewrite Htype, Hdevice, Htext.
Qed.

(** So a pass is the same under settings that differ in regex and maxDecimals
    only. *)
Lemma pass_reads (settings settings' : list Setting) (overlayIds : list string) (s : Store) :
  (forall overlayId, In overlayId overlayIds ->
     Overlay.type (getOverlay settings' overlayId) = Overlay.type (getOverlay settings overlayId) /\
     Overlay.device (getOverlay settings' overlayId) = Overlay.device (getOverlay settings overlayId) /\
     Overlay.text (getOverlay settings' overlayId) = Overlay.text (getOverlay settings overlayId)) ->
  listenersIntevalFn getDeviceById overlayIds settings' id s =
  listenersIntevalFn getDeviceById overlayIds settings id s.
Proof.
  revert s. induction overlayIds as [|overlayId rest IH]; intros s Hsame; [done|].
  rewrite !pass_cons.
  destruct (Hsame overlayId (or_introl eq_refl)) as (Htype & Hdevice & Htext).
  rewrite (slot_reads settings settings' overlayId s Htype Hdevice Htext).
  destruct (reconcileOverlay getDeviceById settings id overlayId s) as [[[[]|e] s1] t1]; [|done].
  rewrite IH; [done|]. intros o Ho. apply Hsame. by right.
Qed.

(** A pass that reaches a slot which ends normally goes on with the overlay
    ids after it. *)
Lemma pass_through_slot (settings : list Setting) (pre post : list string)
    (overlayId : string) (s s1 s2 : Store) (t1 t2 : list Effect) :
  listenersIntevalFn getDeviceById pre settings id s = (Normal tt, s1, t1) ->
  reconcileOverlay getDeviceById settings id overlayId s1 = (Normal tt, s2, t2) ->
  listenersIntevalFn getDeviceById (pre ++ overlayId :: post) settings id s =
  then_pass getDeviceById settings id post s2 (t1 ++ t2).
Proof.
  intros Hpre Hslot. rewrite (pass_at_slot _ _ _ _ _ _ _ _ _ Hpre), Hslot.
  unfold then_pass.
  destruct (listenersIntevalFn getDeviceById post settings id s2) as [[c s3] t3].
  by rewrite app_assoc.
Qed.

End FromSlotToPass.

(** * Claims on the reconciliation *)

(** C1 (amended).  The pass run twice in a row, with the same settings,
    registry and overlay ids, the second run starting from the store the first
    one left: the second run ends as the first did, leaves the store as it is
    and makes no [listen] call.  The [removeListener] calls it makes are those
    of the slots of type [Text] whose entry still records a handle; when no
    slot is of type [Text] it makes none. *)
Theorem second_pass_subscribes_nothing
    (getDeviceById : prim -> option ScryptedDevice) (settings : list Setting) (id : string)
    (overlayIds : list string) (s s1 s2 : Store) (c c2 : Completion unit)
    (t1 t2 : list Effect) :
  listenersIntevalFn getDeviceById overlayIds settings id s = (c, s1, t1) ->
  listenersIntevalFn getDeviceById overlayIds settings id s1 = (c2, s2, t2) ->
  c2 = c /\ s2 = s1 /\ subscribes t2 = 0%nat /\
  (forall h, In (RemoveListener h) t2 ->
     exists overlayId b,
       In overlayId overlayIds /\
       strict_eq (Overlay.type (getOverlay settings overlayId)) (OverlayType_value Text) = true /\
       currentListeners s1 !! overlayId = Some b /\ Binding.listener b = Some h) /\
  ((forall overlayId, In overlayId overlayIds ->
      strict_eq (Overlay.type (getOverlay settings overlayId)) (OverlayType_value Text) = false) ->
   releases t2 = 0%nat).
Proof.
  intros Hfirst Hsecond.
  destruct (pass_again _ _ _ _ _ _ _ _ Hfirst) as (t2' & Hagain & Hlisten & Hremove).
  rewrite Hagain in Hsecond. simplify_eq. split_and!; try done.
  - by apply subscribes_none.
  - intros Hnotext. apply releases_none. intros h Hin.
    destruct (Hremove h Hin) as (o & b & Ho & Htext & _).
    rewrite (Hnotext o Ho) in Htext. done.
Qed.

(** The theorem at a pass over a sensor slot and a face slot. *)
Lemma second_pass_subscribes_nothing_witness :
  listenersIntevalFn registry ["1"; "2"] (bound_to "1" "deviceA" ++ face_slot "2")
    "camera" emptyStore = (Normal tt, first_pass_sample.1.2, first_pass_sample.2) /\
  listenersIntevalFn registry ["1"; "2"] (bound_to "1" "deviceA" ++ face_slot "2")
    "camera" first_pass_sample.1.2 = (Normal tt, first_pass_sample.1.2, []) /\
  subscribes first_pass_sample.2 = 2%nat /\
  subscribes [] = 0%nat.
Proof.
  assert (H1 : listenersIntevalFn registry ["1"; "2"] (bound_to "1" "deviceA" ++ face_slot "2")
    "camera" emptyStore = (Normal tt, first_pass_sample.1.2, first_pass_sample.2))
    by (vm_compute; reflexivity).
  assert (H2 : listenersIntevalFn registry ["1"; "2"] (bound_to "1" "deviceA" ++ face_slot "2")
    "camera" first_pass_sample.1.2 = (Normal tt, first_pass_sample.1.2, []))
    by (vm_compute; reflexivity).
  split_and!; [exact H1|exact H2|vm_compute; reflexivity|].
  exact (proj1 (proj2 (proj2 (second_pass_subscribes_nothing _ _ _ _ _ _ _ _ _ _ _ H1 H2)))).
Defined.

(** C1 as stated fails: a slot that went from face detection to static text
    keeps its entry, and every pass over it calls [removeListener] again. *)
Lemma text_slot_released_on_every_pass :
  first_text_pass =
    (Normal tt, store_after_face, [RemoveListener 0; textPush "1" (VString "Hello")]) /\
  listenersIntevalFn registry ["1"] (text_slot "1" "Hello") "camera" first_text_pass.1.2 =
    (Normal tt, store_after_face, [RemoveListener 0; textPush "1" (VString "Hello")]) /\
  releases [RemoveListener 0; textPush "1" (VString "Hello")] = 1%nat.
Proof. split_and!; vm_compute; reflexivity. Qed.

(** C2 (amended).  A pass reaches a slot of type [Device] that has a recorded
    binding.  When the device of the slot, of a truthy id, resolves to a
    sensor: if the listener type or the device id differs from the recorded
    one, the pass releases the recorded handle, listens anew on the device,
    pushes its reading and records the new binding; otherwise it does nothing
    at this slot.  When the device is not found, the pass only logs that, and
    when it has neither capability the pass does nothing at this slot: in both
    cases nothing is released, nothing is subscribed and the store stays as it
    was, whatever the recorded binding is.  A pass under settings that agree
    on type, device and text of every slot, whatever their regex and
    maxDecimals, is the same pass. *)
Theorem bound_device_resubscribes_iff_changed
    (getDeviceById : prim -> option ScryptedDevice) (settings : list Setting) (id : string)
    (pre post : list string) (overlayId : string) (s s1 : Store) (t1 : list Effect)
    (b : Binding.t) :
  let overlay := getOverlay settings overlayId in
  let overlayIds := pre ++ overlayId :: post in
  listenersIntevalFn getDeviceById pre settings id s = (Normal tt, s1, t1) ->
  currentListeners s1 !! overlayId = Some b ->
  strict_eq (Overlay.type overlay) (OverlayType_value Device) = true ->
  (forall (d : ScryptedDevice) (lt : ListenerType) (li : ScryptedInterface),
     getDeviceById (Overlay.device overlay) = Some d ->
     sensorKind d = Some (lt, li) ->
     truthy (Overlay.device overlay) = true ->
     (bindingChanged b lt (Overlay.device overlay) = true ->
      listenersIntevalFn getDeviceById overlayIds settings id s =
      then_pass getDeviceById settings id post
        {| currentListeners :=
             <[overlayId := {| Binding.listenerType := lt;
                               Binding.listener := Some (nextHandle s1);
                               Binding.device := Overlay.device overlay |}]>
               (currentListeners s1);
           nextHandle := S (nextHandle s1) |}
        (t1 ++ ConsoleLog (StartingListener overlayId (name d) lt li)
            :: removal (Some b)
            ++ Listen (Overlay.device overlay) li (updateProps overlayId lt li d) (nextHandle s1)
            :: firstPush overlayId lt li d)) /\
     (bindingChanged b lt (Overlay.device overlay) = false ->
      listenersIntevalFn getDeviceById overlayIds settings id s =
      then_pass getDeviceById settings id post s1 t1)) /\
  (getDeviceById (Overlay.device overlay) = None ->
   listenersIntevalFn getDeviceById overlayIds settings id s =
   then_pass getDeviceById settings id post s1
     (t1 ++ [ConsoleLog (DeviceNotFound (Overlay.device overlay))]) /\
   releases [ConsoleLog (DeviceNotFound (Overlay.device overlay))] = 0%nat /\
   subscribes [ConsoleLog (DeviceNotFound (Overlay.device overlay))] = 0%nat) /\
  (forall d : ScryptedDevice,
     getDeviceById (Overlay.device overlay) = Some d -> sensorKind d = None ->
     listenersIntevalFn getDeviceById overlayIds settings id s =
     then_pass getDeviceById settings id post s1 t1) /\
  (forall settings',
     (forall o, In o overlayIds ->
        Overlay.type (getOverlay settings' o) = Overlay.type (getOverlay settings o) /\
        Overlay.device (getOverlay settings' o) = Overlay.device (getOverlay settings o) /\
        Overlay.text (getOverlay settings' o) = Overlay.text (getOverlay settings o)) ->
     listenersIntevalFn getDeviceById overlayIds settings' id s =
     listenersIntevalFn getDeviceById overlayIds settings id s).
Proof.
  intros overlay overlayIds Hpre Hentry HtD. split_and!.
  - intros d lt li Hd Hkind Htr.
    pose proof (slot_sensor getDeviceById settings id overlayId s1 d lt li HtD Hd Hkind) as Hrun.
    cbv zeta in Hrun. fold overlay in Hrun.
    rewrite Hentry, (changed_binding overlay lt b HtD Htr) in Hrun.
    split.
    + intros Hch. rewrite Hch in Hrun. by apply (pass_through_slot _ _ _ _ _ _ _ s1).
    + intros Hch. rewrite Hch in Hrun.
      rewrite <- (app_nil_r t1). by apply (pass_through_slot _ _ _ _ _ _ _ s1).
  - intros Hd. split; [|done].
    apply (pass_through_slot _ _ _ _ _ _ _ s1); [done|].
    by apply slot_device_not_found.
  - intros d Hd Hkind. unfold sensorKind in Hkind.
    destruct (includes Thermometer (interfaces d)) eqn:Hth; [done|].
    destruct (includes HumiditySensor (interfaces d)) eqn:Hhu; [done|].
    rewrite <- (app_nil_r t1). apply (pass_through_slot _ _ _ _ _ _ _ s1); [done|].
    by eapply slot_device_incapable.
  - intros settings' Hsame. by apply pass_reads.
Qed.

(** The theorem at a change of device, at no change, at a device that is not
    in the registry, at a device that has neither capability, and at a change
    of regex and maxDecimals only. *)
Lemma bound_device_resubscribes_iff_changed_witness :
  listenersIntevalFn registry ["1"] (bound_to "1" "deviceB") "camera"
    (bound_store Temperature 0 (VString "deviceA")) =
  (Normal tt,
   {| currentListeners :=
        <[ "1" := {| Binding.listenerType := Temperature;
                     Binding.listener := Some 1%nat;
                     Binding.device := VString "deviceB" |}]>
          (currentListeners (bound_store Temperature 0 (VString "deviceA")));
      nextHandle := 2 |},
   [ConsoleLog (StartingListener "1" "Sensor B" Temperature Thermometer);
    RemoveListener 0;
    Listen (VString "deviceB") Thermometer (updateProps "1" Temperature Thermometer deviceB) 1%nat;
    OnUpdate (updateProps "1" Temperature Thermometer deviceB (APrim (VNumber (Finite (19 # 1)))))]) /\
  listenersIntevalFn registry ["1"] (bound_to "1" "deviceA") "camera"
    (bound_store Temperature 0 (VString "deviceA")) =
  (Normal tt, bound_store Temperature 0 (VString "deviceA"), []) /\
  listenersIntevalFn registry ["1"] (bound_to "1" "deviceD") "camera"
    (bound_store Temperature 0 (VString "deviceA")) =
  (Normal tt, bound_store Temperature 0 (VString "deviceA"),
   [ConsoleLog (DeviceNotFound (VString "deviceD"))]) /\
  listenersIntevalFn registry ["1"] (bound_to "1" "camera") "camera"
    (bound_store Temperature 0 (VString "deviceA")) =
  (Normal tt, bound_store Temperature 0 (VString "deviceA"), []) /\
  listenersIntevalFn registry ["1"]
    (bound_to "1" "deviceA" ++ [setting "1" "regex" (VString "${value}");
                                setting "1" "maxDecimals" (VNumber (Finite (3 # 1)))])
    "camera" (bound_store Temperature 0 (VString "deviceA")) =
  listenersIntevalFn registry ["1"] (bound_to "1" "deviceA") "camera"
    (bound_store Temperature 0 (VString "deviceA")).
Proof.
  pose proof (fun device =>
    bound_device_resubscribes_iff_changed registry (bound_to "1" device) "camera"
      [] [] "1" (bound_store Temperature 0 (VString "deviceA"))
      (bound_store Temperature 0 (VString "deviceA")) []
      {| Binding.listenerType := Temperature; Binding.listener := Some 0%nat;
         Binding.device := VString "deviceA" |} eq_refl eq_refl eq_refl) as H.
  split_and!.
  - destruct (H "deviceB") as (Hsensor & _).
    exact (proj1 (Hsensor deviceB Temperature Thermometer eq_refl eq_refl eq_refl) eq_refl).
  - destruct (H "deviceA") as (Hsensor & _).
    exact (proj2 (Hsensor deviceA Temperature Thermometer eq_refl eq_refl eq_refl) eq_refl).
  - destruct (H "deviceD") as (_ & Hmissing & _).
    exact (proj1 (Hmissing eq_refl)).
  - destruct (H "camera") as (_ & _ & Hincapable & _).
    exact (Hincapable camera eq_refl eq_refl).
  - destruct (H "deviceA") as (_ & _ & _ & Hformat).
    apply Hformat. intros o [<-|[]]. split_and!; vm_compute; reflexivity.
Defined.

(** C2 as stated fails: the bound device id differs from the recorded one,
    but the device is not in the registry, and nothing is released or
    subscribed. *)
Lemma vanished_device_keeps_subscription :
  strict_eq (VString "deviceA") (VString "deviceC") = false /\
  registry (VString "deviceC") = None /\
  listenersIntevalFn registry ["1"] (bound_to "1" "deviceC") "camera"
    (bound_store Temperature 0 (VString "deviceA")) =
  (Normal tt, bound_store Temperature 0 (VString "deviceA"),
   [ConsoleLog (DeviceNotFound (VString "deviceC"))]).
Proof. split_and!; vm_compute; reflexivity. Qed.

(** C3 (amended).  A pass reaches a slot that has an entry in
    [currentListeners].  When the type of the slot is [Text], the pass
    releases the recorded handle, if there is one, and pushes the static text
    with [noLog] set; when the type is [Device] and the device is not found,
    it only logs that, and when the device has neither capability it does
    nothing.  In all three cases the pass goes on from the store as it was:
    the entry stays. *)
Theorem unbound_slot_with_binding
    (getDeviceById : prim -> option ScryptedDevice) (settings : list Setting) (id : string)
    (pre post : list string) (overlayId : string) (s s1 : Store) (t1 : list Effect)
    (b : Binding.t) :
  let overlay := getOverlay settings overlayId in
  let overlayIds := pre ++ overlayId :: post in
  listenersIntevalFn getDeviceById pre settings id s = (Normal tt, s1, t1) ->
  currentListeners s1 !! overlayId = Some b ->
  (strict_eq (Overlay.type overlay) (OverlayType_value Text) = true ->
   listenersIntevalFn getDeviceById overlayIds settings id s =
   then_pass getDeviceById settings id post s1
     (t1 ++ removal (Some b) ++ [textPush overlayId (Overlay.text overlay)])) /\
  (strict_eq (Overlay.type overlay) (OverlayType_value Device) = true ->
   getDeviceById (Overlay.device overlay) = None ->
   listenersIntevalFn getDeviceById overlayIds settings id s =
   then_pass getDeviceById settings id post s1
     (t1 ++ [ConsoleLog (DeviceNotFound (Overlay.device overlay))])) /\
  (strict_eq (Overlay.type overlay) (OverlayType_value Device) = true ->
   forall d, getDeviceById (Overlay.device overlay) = Some d -> sensorKind d = None ->
   listenersIntevalFn getDeviceById overlayIds settings id s =
   then_pass getDeviceById settings id post s1 t1).
Proof.
  intros overlay overlayIds Hpre Hentry. split_and!.
  - intros HtT. apply (pass_through_slot _ _ _ _ _ _ _ s1); [done|].
    by rewrite slot_text, Hentry.
  - intros HtD Hd. apply (pass_through_slot _ _ _ _ _ _ _ s1); [done|].
    by apply slot_device_not_found.
  - intros HtD d Hd Hkind. unfold sensorKind in Hkind.
    destruct (includes Thermometer (interfaces d)) eqn:Hth; [done|].
    destruct (includes HumiditySensor (interfaces d)) eqn:Hhu; [done|].
    rewrite <- (app_nil_r t1). apply (pass_through_slot _ _ _ _ _ _ _ s1); [done|].
    by eapply slot_device_incapable.
Qed.

(** The theorem at a text slot, a missing device and a device without
    capability. *)
Lemma unbound_slot_with_binding_witness :
  currentListeners (bound_store Face 0 VUndefined) !! "1" =
    Some {| Binding.listenerType := Face; Binding.listener := Some 0%nat;
            Binding.device := VUndefined |} /\
  listenersIntevalFn registry ["1"] (text_slot "1" "Hello") "camera"
    (bound_store Face 0 VUndefined) =
  (Normal tt, bound_store Face 0 VUndefined,
   [RemoveListener 0; textPush "1" (VString "Hello")]) /\
  listenersIntevalFn registry ["1"] (bound_to "1" "deviceC") "camera"
    (bound_store Face 0 VUndefined) =
  (Normal tt, bound_store Face 0 VUndefined, [ConsoleLog (DeviceNotFound (VString "deviceC"))]) /\
  listenersIntevalFn registry ["1"] (bound_to "1" "camera") "camera"
    (bound_store Face 0 VUndefined) =
  (Normal tt, bound_store Face 0 VUndefined, []).
Proof.
  assert (H : currentListeners (bound_store Face 0 VUndefined) !! "1" =
    Some {| Binding.listenerType := Face; Binding.listener := Some 0%nat;
            Binding.device := VUndefined |}) by (vm_compute; reflexivity).
  split_and!; [exact H| | |].
  - apply (proj1 (unbound_slot_with_binding registry (text_slot "1" "Hello") "camera"
                    [] [] "1" _ _ [] _ eq_refl H)).
    vm_compute; reflexivity.
  - apply (proj1 (proj2 (unbound_slot_with_binding registry (bound_to "1" "deviceC") "camera"
                           [] [] "1" _ _ [] _ eq_refl H))); vm_compute; reflexivity.
  - apply (proj2 (proj2 (unbound_slot_with_binding registry (bound_to "1" "camera") "camera"
                           [] [] "1" _ _ [] _ eq_refl H)) eq_refl camera); vm_compute; reflexivity.
Defined.

(** C3 as stated fails: a slot whose device is not found keeps its handle,
    and a text slot keeps its entry. *)
Lemma unresolved_slot_keeps_handle_and_entry :
  listenersIntevalFn registry ["1"] (bound_to "1" "deviceC") "camera"
    (bound_store Temperature 0 (VString "deviceC")) =
  (Normal tt, bound_store Temperature 0 (VString "deviceC"),
   [ConsoleLog (DeviceNotFound (VString "deviceC"))]) /\
  currentListeners
    (listenersIntevalFn registry ["1"] (text_slot "1" "Hello") "camera"
       (bound_store Temperature 0 (VString "deviceA"))).1.2 !! "1" =
  Some {| Binding.listenerType := Temperature; Binding.listener := Some 0%nat;
          Binding.device := VString "deviceA" |}.
Proof. split; vm_compute; reflexivity. Qed.

(** C4.  A pass reaches a slot of type [Device] that holds a subscription to
    device A and is now bound to device B, which resolves to a sensor of the
    same listener type.  The part of the trace that belongs to the slot
    is the log line, the release of A's handle, the [listen] call on B and the
    push of B's reading, in this order: one release, then one subscription. *)
Theorem device_change_releases_then_subscribes
    (getDeviceById : prim -> option ScryptedDevice) (settings : list Setting) (id : string)
    (pre post : list string) (overlayId : string) (s s1 : Store) (t1 : list Effect)
    (lt : ListenerType) (li : ScryptedInterface) (hA : Handle) (deviceIdA : prim)
    (realDeviceB : ScryptedDevice) :
  let overlay := getOverlay settings overlayId in
  let deviceIdB := Overlay.device overlay in
  let slotTrace :=
    [ConsoleLog (StartingListener overlayId (name realDeviceB) lt li);
     RemoveListener hA;
     Listen deviceIdB li (updateProps overlayId lt li realDeviceB) (nextHandle s1);
     OnUpdate (updateProps overlayId lt li realDeviceB (APrim (reading li realDeviceB)))] in
  listenersIntevalFn getDeviceById pre settings id s = (Normal tt, s1, t1) ->
  currentListeners s1 !! overlayId =
    Some {| Binding.listenerType := lt; Binding.listener := Some hA;
            Binding.device := deviceIdA |} ->
  strict_eq (Overlay.type overlay) (OverlayType_value Device) = true ->
  getDeviceById deviceIdB = Some realDeviceB ->
  sensorKind realDeviceB = Some (lt, li) ->
  truthy deviceIdB = true ->
  strict_eq deviceIdA deviceIdB = false ->
  listenersIntevalFn getDeviceById (pre ++ overlayId :: post) settings id s =
    then_pass getDeviceById settings id post
      {| currentListeners :=
           <[overlayId := {| Binding.listenerType := lt;
                             Binding.listener := Some (nextHandle s1);
                             Binding.device := deviceIdB |}]>
             (currentListeners s1);
         nextHandle := S (nextHandle s1) |}
      (t1 ++ slotTrace) /\
  releases slotTrace = 1%nat /\ subscribes slotTrace = 1%nat.
Proof.
  intros overlay deviceIdB slotTrace Hpre Hentry1 HtD Hd Hkind Htr Hne.
  split; [|split; reflexivity].
  apply (pass_through_slot _ _ _ _ _ _ _ s1); [done|].
  rewrite (slot_sensor getDeviceById settings id overlayId s1 realDeviceB lt li HtD Hd Hkind).
  fold overlay. fold deviceIdB. rewrite Hentry1.
  rewrite (changed_binding overlay lt _ HtD Htr). unfold bindingChanged.
  cbn [Binding.device Binding.listenerType]. fold deviceIdB. rewrite Hne.
  rewrite orb_true_r. cbn [removal Binding.listener].
  f_equal. unfold slotTrace.
  by destruct (sensorKind_interface _ _ _ Hkind) as [[-> ->]|[-> ->]].
Qed.

(** The theorem at a pass over one slot that moves from device A to B. *)
Lemma device_change_releases_then_subscribes_witness :
  listenersIntevalFn registry ["1"] (bound_to "1" "deviceB") "camera"
    (bound_store Temperature 0 (VString "deviceA")) =
  (Normal tt,
   {| currentListeners :=
        <[ "1" := {| Binding.listenerType := Temperature; Binding.listener := Some 1%nat;
                     Binding.device := VString "deviceB" |}]>
          (currentListeners (bound_store Temperature 0 (VString "deviceA")));
      nextHandle := 2 |},
   [ConsoleLog (StartingListener "1" "Sensor B" Temperature Thermometer);
    RemoveListener 0;
    Listen (VString "deviceB") Thermometer (updateProps "1" Temperature Thermometer deviceB) 1%nat;
    OnUpdate (updateProps "1" Temperature Thermometer deviceB (APrim (VNumber (Finite (19 # 1)))))]).
Proof.
  apply (proj1 (device_change_releases_then_subscribes registry (bound_to "1" "deviceB") "camera"
                  [] [] "1" (bound_store Temperature 0 (VString "deviceA"))
                  (bound_store Temperature 0 (VString "deviceA")) []
                  Temperature Thermometer 0%nat (VString "deviceA") deviceB
                  eq_refl eq_refl eq_refl eq_refl eq_refl eq_refl eq_refl)).
Defined.

Section SubscriptionFacts.

Variable getDeviceById : prim -> option ScryptedDevice.
Variable settings : list Setting.
Variable id : string.

Local Abbreviation slot := (reconcileOverlay getDeviceById settings id).
Local Abbreviation pass := (fun overlayIds => listenersIntevalFn getDeviceById overlayIds settings id).

(** C6.  Every [listen] call a pass makes on the thermometer or the humidity
    interface is on a device of the registry, is followed at once in the trace
    by the push, through the same [update] closure, of the current temperature
    or humidity of that device, and the binding of the new handle and the
    device id is the entry of the slot when the pass ends. *)
Theorem new_sensor_subscription_pushes_reading (overlayIds : list string) (s s' : Store) (c : Completion unit)
    (t : list Effect) (deviceId : prim) (li : ScryptedInterface)
    (callback : any -> Update.t) (h : Handle) :
  pass overlayIds s = (c, s', t) ->
  In (Listen deviceId li callback h) t ->
  li = Thermometer \/ li = HumiditySensor ->
  exists d overlayId lt t1 t2,
    getDeviceById deviceId = Some d /\
    li = interfaceOf lt /\
    callback = updateProps overlayId lt li d /\
    t = t1 ++ Listen deviceId li callback h
           :: OnUpdate (callback (APrim (reading li d))) :: t2 /\
    currentListeners s' !! overlayId =
      Some {| Binding.listenerType := lt; Binding.listener := Some h;
              Binding.device := deviceId |}.
Proof.
  revert s t. induction overlayIds as [|overlayId rest IH]; intros s t Hrun Hin Hli.
  - cbv in Hrun. simplify_eq. destruct Hin.
  - rewrite pass_cons in Hrun.
    assert (Htail : forall sa ta tb,
      pass rest sa = (c, s', ta) -> In (Listen deviceId li callback h) ta ->
      exists d overlayId0 lt t1 t2,
        getDeviceById deviceId = Some d /\
        li = interfaceOf lt /\
        callback = updateProps overlayId0 lt li d /\
        tb ++ ta = t1 ++ Listen deviceId li callback h
                      :: OnUpdate (callback (APrim (reading li d))) :: t2 /\
        currentListeners s' !! overlayId0 =
          Some {| Binding.listenerType := lt; Binding.listener := Some h;
                  Binding.device := deviceId |}).
    { intros sa ta tb Hpass Hin'.
      destruct (IH _ _ Hpass Hin' Hli) as (d & o & lt & ta1 & ta2 & ? & ? & ? & -> & ?).
      exists d, o, lt, (tb ++ ta1), ta2. split_and!; try done. by rewrite <- app_assoc. }
    destruct (slot_run getDeviceById settings id overlayId s).
    + rewrite (Hrest s eq_refl) in Hrun.
      destruct (pass rest s) as [[c2 s2] t2] eqn:Hpass. simplify_eq.
      apply in_app_or in Hin as [Hin|Hin].
      * rewrite Forall_forall in Hlisten. apply list_elem_of_In, Hlisten in Hin. done.
      * by eapply Htail.
    + rewrite (Hthrow s eq_refl) in Hrun. simplify_eq. destruct Hin.
    + rewrite Hrun0 in Hrun. cbv beta iota in Hrun.
      match type of Hrun with context [listenersIntevalFn _ rest _ _ ?sa] =>
        destruct (pass rest sa) as [[c2 s2] t2] eqn:Hpass end.
      simplify_eq.
      apply in_app_or in Hin as [Hin|Hin]; [|by eapply Htail].
      destruct Hin as [Hin|Hin]; [done|].
      apply in_app_or in Hin as [Hin|Hin].
      { pose proof (removal_no_listen (currentListeners s !! overlayId)) as Hf.
        rewrite Forall_forall in Hf. apply list_elem_of_In, Hf in Hin. done. }
      assert (Hnotpush : ~ In (Listen deviceId li callback h) (firstPush overlayId lt (interfaceOf lt) realDevice)).
      { unfold firstPush. destruct lt; simpl; try tauto; intros [?|?]; done. }
      destruct Hin as [Hin|Hin]; [|done].
      injection Hin as <- <- <- <-.
      assert (Hdev : deviceId0 = Overlay.device (getOverlay settings overlayId)).
      { apply Hsensor. destruct Hli as [->| ->]; done. }
      subst deviceId0.
      exists realDevice, overlayId, lt.
      exists (ConsoleLog (StartingListener overlayId (name realDevice) lt (interfaceOf lt))
                :: removal (currentListeners s !! overlayId)).
      exists t2. split_and!; try done.
      * simpl. f_equal. rewrite <- app_assoc. f_equal. simpl. f_equal.
        destruct lt; simpl in *; try done. by destruct Hli.
      * eapply pass_keeps_rest; [exact Hafter| |exact Hpass].
        simpl. by rewrite lookup_insert_eq.
Qed.

(** A slot of type [Text] is pushed by every pass that ends normally. *)
Lemma pass_text_push (overlayIds : list string) (overlayId : string) (s s' : Store)
    (t : list Effect) :
  In overlayId overlayIds ->
  strict_eq (Overlay.type (getOverlay settings overlayId)) (OverlayType_value Text) = true ->
  pass overlayIds s = (Normal tt, s', t) ->
  In (textPush overlayId (Overlay.text (getOverlay settings overlayId))) t.
Proof.
  intros Hin HtT. revert s t. induction overlayIds as [|o rest IH]; intros s t Hrun; [done|].
  rewrite pass_cons in Hrun.
  destruct (slot o s) as [[[[]|e] s1] t1] eqn:Hslot; [|done].
  destruct (pass rest s1) as [[c2 s2] t2] eqn:Hpass. simplify_eq.
  apply in_or_app. destruct Hin as [->|Hin].
  - left. rewrite slot_text in Hslot by done. simplify_eq.
    apply in_or_app. right. by left.
  - right. by eapply IH.
Qed.

(** A pass that does not push the text of one of its [Text] slots has thrown
    at a face slot before the first occurrence of that slot. *)
Lemma pass_text_push_or_throw (overlayIds : list string) (overlayId : string) (s s' : Store)
    (c : Completion unit) (t : list Effect) :
  In overlayId overlayIds ->
  strict_eq (Overlay.type (getOverlay settings overlayId)) (OverlayType_value Text) = true ->
  pass overlayIds s = (c, s', t) ->
  In (textPush overlayId (Overlay.text (getOverlay settings overlayId))) t \/
  (c = Throw TypeError /\ truthy (VString id) = true /\
   getDeviceById (VString id) = None /\
   exists pre faceId post,
     overlayIds = pre ++ faceId :: post /\ ~ In overlayId pre /\
     strict_eq (Overlay.type (getOverlay settings faceId))
       (OverlayType_value FaceDetection) = true /\
     pass pre s = (Normal tt, s', t)).
Proof.
  intros Hin HtT. revert s t. induction overlayIds as [|o rest IH]; intros s t Hrun; [done|].
  rewrite pass_cons in Hrun.
  destruct (decide (o = overlayId)) as [->|Hne].
  { left. rewrite slot_text in Hrun by done.
    destruct (pass rest s) as [[c2 s2] t2] eqn:Hpass. simplify_eq.
    apply in_or_app. left. apply in_or_app. right. by left. }
  destruct Hin as [?|Hin]; [done|].
  assert (Hgo : forall s1 t1 t2, slot o s = (Normal tt, s1, t1) ->
            pass rest s1 = (c, s', t2) ->
            In (textPush overlayId (Overlay.text (getOverlay settings overlayId))) (t1 ++ t2) \/
            (c = Throw TypeError /\ truthy (VString id) = true /\
             getDeviceById (VString id) = None /\
             exists pre faceId post,
               o :: rest = pre ++ faceId :: post /\ ~ In overlayId pre /\
               strict_eq (Overlay.type (getOverlay settings faceId))
                 (OverlayType_value FaceDetection) = true /\
               pass pre s = (Normal tt, s', t1 ++ t2))).
  { intros s1 t1 t2 Hslot Hpass.
    destruct (IH Hin _ _ Hpass)
      as [Hpush|(Hc & Hid & Hhost & pre & f & post & -> & Hpre & Hface & Hrunpre)].
    - left. apply in_or_app. by right.
    - right. split_and!; try done. exists (o :: pre), f, post. split_and!; try done.
      + intros [?|?]; done.
      + by rewrite pass_cons, Hslot, Hrunpre. }
  destruct (slot_run getDeviceById settings id o s).
  - pose proof (Hrest s eq_refl) as Hslot. rewrite Hslot in Hrun.
    destruct (pass rest s) as [[c2 s2] t2] eqn:Hpass. simplify_eq. by eapply Hgo.
  - rewrite (Hthrow s eq_refl) in Hrun. simplify_eq. right.
    split_and!; try done. exists [], o, rest. split_and!; try done. intros [].
  - pose proof Hrun0 as Hslot. rewrite Hrun0 in Hrun. cbv beta iota in Hrun.
    match type of Hrun with context [listenersIntevalFn _ rest _ _ ?sa] =>
      destruct (pass rest sa) as [[c2 s2] t2] eqn:Hpass end.
    simplify_eq. by eapply Hgo.
Qed.

End SubscriptionFacts.

(** The theorem at the first pass over a slot bound to a thermometer. *)
Lemma new_sensor_subscription_pushes_reading_witness :
  exists d overlayId lt t1 t2,
    registry (VString "deviceA") = Some d /\
    Thermometer = interfaceOf lt /\
    updateProps "1" Temperature Thermometer deviceA = updateProps overlayId lt Thermometer d /\
    first_subscription.2 =
      t1 ++ Listen (VString "deviceA") Thermometer
              (updateProps "1" Temperature Thermometer deviceA) 0%nat
         :: OnUpdate (updateProps "1" Temperature Thermometer deviceA
                        (APrim (reading Thermometer d))) :: t2 /\
    currentListeners first_subscription.1.2 !! overlayId =
      Some {| Binding.listenerType := lt; Binding.listener := Some 0%nat;
              Binding.device := VString "deviceA" |}.
Proof.
  apply (new_sensor_subscription_pushes_reading registry (bound_to "1" "deviceA") "camera" ["1"] emptyStore
           first_subscription.1.2 (Normal tt) first_subscription.2).
  - vm_compute; reflexivity.
  - right. left. reflexivity.
  - left. reflexivity.
Defined.

(** C10 (amended).  For a slot of type [Text]: whatever the store holds, the
    loop body ends normally and pushes the static text with [noLog] set,
    after the release of a recorded handle.  So every pass that reaches the
    slot makes the push, however the pass ends afterwards; a pass that does
    not make it has thrown a [TypeError] at a [FaceDetection] slot before the
    first occurrence of the slot, on a host id that is not empty and does not
    resolve.  In particular every pass that ends normally makes the push, and
    every pass does when the host id is empty or resolves. *)
Theorem text_slot_pushed_when_reached
    (getDeviceById : prim -> option ScryptedDevice) (settings : list Setting) (id : string)
    (overlayId : string) :
  let overlay := getOverlay settings overlayId in
  let push := textPush overlayId (Overlay.text overlay) in
  strict_eq (Overlay.type overlay) (OverlayType_value Text) = true ->
  (forall s,
     reconcileOverlay getDeviceById settings id overlayId s =
     (Normal tt, s, removal (currentListeners s !! overlayId) ++ [push])) /\
  (forall pre post s s1 t1,
     listenersIntevalFn getDeviceById pre settings id s = (Normal tt, s1, t1) ->
     listenersIntevalFn getDeviceById (pre ++ overlayId :: post) settings id s =
       then_pass getDeviceById settings id post s1
         (t1 ++ removal (currentListeners s1 !! overlayId) ++ [push]) /\
     In push (listenersIntevalFn getDeviceById (pre ++ overlayId :: post) settings id s).2) /\
  (forall overlayIds s c s' t,
     In overlayId overlayIds ->
     listenersIntevalFn getDeviceById overlayIds settings id s = (c, s', t) ->
     In push t \/
     (c = Throw TypeError /\ truthy (VString id) = true /\
      getDeviceById (VString id) = None /\
      exists pre faceId post,
        overlayIds = pre ++ faceId :: post /\ ~ In overlayId pre /\
        strict_eq (Overlay.type (getOverlay settings faceId))
          (OverlayType_value FaceDetection) = true /\
        listenersIntevalFn getDeviceById pre settings id s = (Normal tt, s', t))) /\
  (forall overlayIds s s' t,
     In overlayId overlayIds ->
     listenersIntevalFn getDeviceById overlayIds settings id s = (Normal tt, s', t) ->
     In push t) /\
  (forall overlayIds s,
     In overlayId overlayIds ->
     (truthy (VString id) = true -> is_Some (getDeviceById (VString id))) ->
     exists s' t,
       listenersIntevalFn getDeviceById overlayIds settings id s = (Normal tt, s', t) /\
       In push t).
Proof.
  intros overlay push HtT. split_and!.
  - intros s. by apply slot_text.
  - intros pre post s s1 t1 Hpre.
    assert (Hrun : listenersIntevalFn getDeviceById (pre ++ overlayId :: post) settings id s =
              then_pass getDeviceById settings id post s1
                (t1 ++ removal (currentListeners s1 !! overlayId) ++ [push])).
    { apply (pass_through_slot _ _ _ _ _ _ _ s1); [done|]. by apply slot_text. }
    split; [done|]. rewrite Hrun. unfold then_pass. cbn [snd].
    apply in_or_app. left. apply in_or_app. right. apply in_or_app. right. by left.
  - intros overlayIds s c s' t Hin Hrun. by eapply pass_text_push_or_throw.
  - intros overlayIds s s' t Hin Hrun. by eapply pass_text_push.
  - intros overlayIds s Hin Hhost.
    destruct (pass_normal getDeviceById settings id overlayIds s Hhost) as (s' & t & Hrun).
    exists s', t. split; [done|]. by eapply pass_text_push.
Qed.

(** The theorem at a pass over one text slot from the empty store, and at a
    pass that pushes the text of slot 2 and throws at the slot that follows. *)
Lemma text_slot_pushed_when_reached_witness :
  listenersIntevalFn registry ["1"] (text_slot "1" "Hello") "camera" emptyStore =
    (Normal tt, emptyStore, [textPush "1" (VString "Hello")]) /\
  In (textPush "1" (VString "Hello")) [textPush "1" (VString "Hello")] /\
  listenersIntevalFn registry_without_camera ["2"; "1"]
    (face_slot "1" ++ text_slot "2" "Hello") "camera" emptyStore =
    (Throw TypeError, emptyStore, [textPush "2" (VString "Hello")]) /\
  In (textPush "2" (VString "Hello"))
     (listenersIntevalFn registry_without_camera ["2"; "1"]
        (face_slot "1" ++ text_slot "2" "Hello") "camera" emptyStore).2.
Proof.
  assert (H : listenersIntevalFn registry ["1"] (text_slot "1" "Hello") "camera" emptyStore =
    (Normal tt, emptyStore, [textPush "1" (VString "Hello")])) by (vm_compute; reflexivity).
  pose proof (text_slot_pushed_when_reached registry (text_slot "1" "Hello") "camera" "1"
                eq_refl) as (_ & _ & _ & Hnormal & _).
  pose proof (text_slot_pushed_when_reached registry_without_camera
                (face_slot "1" ++ text_slot "2" "Hello") "camera" "2" eq_refl)
    as (_ & Hreached & _).
  destruct (Hreached [] ["1"] emptyStore emptyStore [] eq_refl) as [Hrun Hpush].
  split_and!.
  - exact H.
  - exact (Hnormal ["1"] emptyStore _ _ (or_introl eq_refl) H).
  - exact Hrun.
  - exact Hpush.
Defined.

(** C10 as stated fails: a pass that throws at a face slot before it reaches
    a text slot does not push the text of that slot; the same slots in the
    other order are pushed before the throw. *)
Lemma text_slot_not_pushed_after_a_throw :
  strict_eq (Overlay.type (getOverlay (face_slot "1" ++ text_slot "2" "Hello") "2"))
    (OverlayType_value Text) = true /\
  listenersIntevalFn registry_without_camera ["1"; "2"]
    (face_slot "1" ++ text_slot "2" "Hello") "camera" emptyStore =
    (Throw TypeError, emptyStore, []) /\
  ~ In (textPush "2" (VString "Hello"))
       (listenersIntevalFn registry_without_camera ["1"; "2"]
          (face_slot "1" ++ text_slot "2" "Hello") "camera" emptyStore).2 /\
  listenersIntevalFn registry_without_camera ["2"; "1"]
    (face_slot "1" ++ text_slot "2" "Hello") "camera" emptyStore =
    (Throw TypeError, emptyStore, [textPush "2" (VString "Hello")]).
Proof. split_and!; [vm_compute; reflexivity..| |vm_compute; reflexivity]. intros []. Qed.

(** * Claims on the overlay model *)

Lemma foldl_insert_missing (settings : list Setting) (m : gmap string Setting) (k : string) :
  no_setting settings k -> m !! k = None ->
  foldl (fun tot curr => <[key curr := curr]> tot) m settings !! k = None.
Proof.
  revert m. induction settings as [|x settings IH]; intros m Hno Hm; [done|].
  simpl. apply IH.
  - intros y Hy. apply Hno. by right.
  - rewrite lookup_insert_ne; [done|]. apply Hno. by left.
Qed.

Lemma value_at_missing (settings : list Setting) (k : string) :
  no_setting settings k -> value_at (settingsByKey settings) k = VUndefined.
Proof.
  intros Hno. unfold value_at, settingsByKey.
  by rewrite foldl_insert_missing.
Qed.

(** The last setting of a key is the one that is read. *)
Lemma value_at_last (settings : list Setting) (x : Setting) :
  value_at (settingsByKey (settings ++ [x])) (key x) = value x.
Proof.
  unfold value_at, settingsByKey. rewrite foldl_app. simpl.
  by rewrite lookup_insert_eq.
Qed.

Lemma settingsByKey_snoc (settings : list Setting) (x : Setting) :
  settingsByKey (settings ++ [x]) = <[key x := x]> (settingsByKey settings).
Proof. unfold settingsByKey. by rewrite foldl_app. Qed.

(** The object built by [reduce] holds, under each key, the last setting of
    the key. *)
Lemma settingsByKey_lookup_last (settings : list Setting) (k : string) :
  settingsByKey settings !! k = lastSetting settings k.
Proof.
  unfold lastSetting. induction settings as [|x settings IH] using rev_ind; [done|].
  rewrite settingsByKey_snoc, rev_app_distr. cbn [rev app find].
  destruct (String.eqb_spec (key x) k) as [<-|Hne].
  - by rewrite lookup_insert_eq.
  - by rewrite lookup_insert_ne.
Qed.

Lemma value_at_lastValue (settings : list Setting) (k : string) :
  value_at (settingsByKey settings) k = lastValue settings k.
Proof. unfold value_at, lastValue. by rewrite settingsByKey_lookup_last. Qed.

Lemma lastSetting_Some (settings : list Setting) (k : string) (s : Setting) :
  lastSetting settings k = Some s -> In s settings /\ key s = k.
Proof.
  unfold lastSetting. intros H. apply find_some in H as [H1 H2].
  split; [by apply in_rev|by apply String.eqb_eq].
Qed.

Lemma lastSetting_None (settings : list Setting) (k : string) :
  lastSetting settings k = None -> no_setting settings k.
Proof.
  unfold lastSetting. intros H s Hs Hk.
  pose proof (find_none _ _ H s (proj1 (in_rev _ _) Hs)) as Hne.
  cbn beta in Hne. apply String.eqb_neq in Hne. done.
Qed.

Lemma find_in_app {A : Type} (f : A -> bool) (l1 l2 : list A) :
  find f (l1 ++ l2) = match find f l1 with Some x => Some x | None => find f l2 end.
Proof. induction l1 as [|x l1 IH]; [done|]. cbn [app find]. by destruct (f x). Qed.

(** When all settings of a key agree on the value, this value is read. *)
Lemma lastValue_unique (settings : list Setting) (k : string) (v : prim) :
  (exists s, In s settings /\ key s = k) ->
  (forall s, In s settings -> key s = k -> value s = v) ->
  lastValue settings k = v.
Proof.
  intros (s0 & Hs0 & Hk0) Hall. unfold lastValue.
  destruct (lastSetting settings k) as [s|] eqn:Hlast.
  - apply lastSetting_Some in Hlast as [Hs Hk]. by apply Hall.
  - apply lastSetting_None in Hlast. by destruct (Hlast s0 Hs0).
Qed.

Lemma value_at_unique (settings : list Setting) (k : string) (v : prim) :
  (exists s, In s settings /\ key s = k) ->
  (forall s, In s settings -> key s = k -> value s = v) ->
  value_at (settingsByKey settings) k = v.
Proof. rewrite value_at_lastValue. apply lastValue_unique. Qed.

(** C7 (amended).  For every list of settings, [getOverlay] returns, for the
    type, the regex and the maxDecimals of a slot, the value the settings
    hold for the key of the field: the value of the last setting of the list
    that has this key, wherever it stands in the list, and [undefined] when
    no setting has the key; the type alone is defaulted, to [Text], when this
    value is [null] or [undefined].  So a missing regex or maxDecimals
    setting reads [undefined].  The defaults ["${value} ${unit}"] and [1]
    are those of the settings view: [getOverlaySettings] fills them in for a
    slot of type [Device]. *)
Theorem getOverlay_defaults (settings : list Setting) (overlayId : string) :
  let overlay := getOverlay settings overlayId in
  (Overlay.type overlay =
     nullish_or (lastValue settings (slotKey overlayId "type")) (OverlayType_value Text) /\
   Overlay.regex overlay = lastValue settings (slotKey overlayId "regex") /\
   Overlay.maxDecimals overlay = lastValue settings (slotKey overlayId "maxDecimals")) /\
  (forall k, no_setting settings k -> lastValue settings k = VUndefined) /\
  (forall s, In s settings ->
     (forall s', In s' settings -> key s' = key s -> value s' = value s) ->
     lastValue settings (key s) = value s) /\
  (forall before x after,
     settings = before ++ x :: after -> no_setting after (key x) ->
     lastValue settings (key x) = value x) /\
  (no_setting settings (slotKey overlayId "type") ->
   Overlay.type overlay = OverlayType_value Text) /\
  (no_setting settings (slotKey overlayId "regex") ->
   Overlay.regex overlay = VUndefined) /\
  (no_setting settings (slotKey overlayId "maxDecimals") ->
   Overlay.maxDecimals overlay = VUndefined) /\
  (forall (rest : list Setting) (v : prim),
     settings = rest ++ [{| key := slotKey overlayId "type"; value := v |}] ->
     Overlay.type overlay = nullish_or v (OverlayType_value Text)) /\
  (forall (rest : list Setting) (v : prim),
     settings = rest ++ [{| key := slotKey overlayId "regex"; value := v |}] ->
     Overlay.regex overlay = v) /\
  (forall (rest : list Setting) (v : prim),
     settings = rest ++ [{| key := slotKey overlayId "maxDecimals"; value := v |}] ->
     Overlay.maxDecimals overlay = v) /\
  (forall getItem : string -> prim,
     let keys := getOverlayKeys overlayId in
     nullish_or (getItem (typeKey keys)) (OverlayType_value Text) = OverlayType_value Device ->
     getOverlaySettings getItem [overlayId] =
     [{| key := typeKey keys; value := OverlayType_value Device |};
      {| key := deviceKey keys; value := getItem (deviceKey keys) |};
      {| key := regexKey keys;
         value := or_else (getItem (regexKey keys)) (VString "${value} ${unit}") |};
      {| key := maxDecimalsKey keys;
         value := nullish_or (getItem (maxDecimalsKey keys)) (VNumber (Finite 1)) |}]).
Proof.
  intros overlay.
  assert (Hfields :
    Overlay.type overlay =
      nullish_or (lastValue settings (slotKey overlayId "type")) (OverlayType_value Text) /\
    Overlay.regex overlay = lastValue settings (slotKey overlayId "regex") /\
    Overlay.maxDecimals overlay = lastValue settings (slotKey overlayId "maxDecimals")).
  { unfold overlay, getOverlay. cbn [Overlay.type Overlay.regex Overlay.maxDecimals].
    change (osdManagerPrefix +:+ ":" +:+ typeKey (getOverlayKeys overlayId))
      with (slotKey overlayId "type").
    change (osdManagerPrefix +:+ ":" +:+ regexKey (getOverlayKeys overlayId))
      with (slotKey overlayId "regex").
    change (osdManagerPrefix +:+ ":" +:+ maxDecimalsKey (getOverlayKeys overlayId))
      with (slotKey overlayId "maxDecimals").
    by rewrite !value_at_lastValue. }
  assert (Hmissing : forall k, no_setting settings k -> lastValue settings k = VUndefined).
  { intros k Hno. by rewrite <- value_at_lastValue, value_at_missing. }
  destruct Hfields as (Htype & Hregex & Hmax).
  split_and!; try done.
  - intros s Hs Hsame. apply lastValue_unique; [by exists s|done].
  - intros before x after -> Hno. unfold lastValue, lastSetting.
    rewrite rev_app_distr. cbn [rev]. rewrite <- app_assoc. cbn [app].
    rewrite find_in_app.
    destruct (find _ (rev after)) as [y|] eqn:Hfind.
    + apply find_some in Hfind as [Hy Hk]. apply String.eqb_eq in Hk.
      by destruct (Hno y (proj2 (in_rev _ _) Hy)).
    + cbn [find]. by rewrite String.eqb_refl.
  - intros Hno. by rewrite Htype, Hmissing.
  - intros Hno. by rewrite Hregex, Hmissing.
  - intros Hno. by rewrite Hmax, Hmissing.
  - intros rest v ->. rewrite Htype, <- value_at_lastValue.
    change (slotKey overlayId "type")
      with (key {| key := slotKey overlayId "type"; value := v |}).
    by rewrite value_at_last.
  - intros rest v ->. rewrite Hregex, <- value_at_lastValue.
    change (slotKey overlayId "regex")
      with (key {| key := slotKey overlayId "regex"; value := v |}).
    by rewrite value_at_last.
  - intros rest v ->. rewrite Hmax, <- value_at_lastValue.
    change (slotKey overlayId "maxDecimals")
      with (key {| key := slotKey overlayId "maxDecimals"; value := v |}).
    by rewrite value_at_last.
  - intros getItem keys Htype'. unfold getOverlaySettings. cbn [flat_map].
    fold keys. by rewrite Htype'.
Qed.

(** The theorem at settings that hold nothing for slot 1, at settings that
    hold a regex for it (as their last setting, as their first one, and
    twice), at a type setting whose value is [null], and at a storage without
    regex and maxDecimals. *)
Lemma getOverlay_defaults_witness :
  Overlay.type (getOverlay (bound_to "2" "deviceA") "1") = VString "Text" /\
  Overlay.regex (getOverlay (bound_to "2" "deviceA") "1") = VUndefined /\
  Overlay.maxDecimals (getOverlay (bound_to "2" "deviceA") "1") = VUndefined /\
  Overlay.regex (getOverlay (bound_to "1" "deviceA" ++ [setting "1" "regex" (VString "${value}")]) "1")
    = VString "${value}" /\
  Overlay.regex (getOverlay (setting "1" "regex" (VString "${value}") :: bound_to "1" "deviceA") "1")
    = VString "${value}" /\
  Overlay.maxDecimals
    (getOverlay (setting "1" "maxDecimals" (VNumber (Finite (3 # 1))) :: bound_to "1" "deviceA") "1")
    = VNumber (Finite (3 # 1)) /\
  Overlay.regex
    (getOverlay [setting "1" "regex" (VString "${value}"); setting "1" "type" (VString "Device");
                 setting "1" "regex" (VString "${value} ${unit}")] "1")
    = VString "${value} ${unit}" /\
  Overlay.type (getOverlay [setting "1" "type" VNull; setting "1" "device" (VString "deviceA")] "1")
    = VString "Text" /\
  getOverlaySettings storage_of_a_bound_slot ["1"] =
    [{| key := "overlay:1:type"; value := VString "Device" |};
     {| key := "overlay:1:device"; value := VString "deviceA" |};
     {| key := "overlay:1:regex"; value := VString "${value} ${unit}" |};
     {| key := "overlay:1:maxDecimals"; value := VNumber (Finite 1) |}].
Proof.
  assert (Hno : forall field, no_setting (bound_to "2" "deviceA") (slotKey "1" field)).
  { intros field s [<-|[<-|[]]]; simpl; intros H; by injection H. }
  pose proof (getOverlay_defaults (bound_to "2" "deviceA") "1")
    as (_ & _ & _ & _ & H1 & H2 & H3 & _).
  pose proof (getOverlay_defaults
                (bound_to "1" "deviceA" ++ [setting "1" "regex" (VString "${value}")]) "1")
    as (_ & _ & _ & _ & _ & _ & _ & _ & H5 & _ & H7).
  pose proof (getOverlay_defaults
                (setting "1" "regex" (VString "${value}") :: bound_to "1" "deviceA") "1")
    as ((_ & Hfirst & _) & _).
  pose proof (getOverlay_defaults
                (setting "1" "maxDecimals" (VNumber (Finite (3 # 1))) :: bound_to "1" "deviceA") "1")
    as ((_ & _ & Hdecimals) & _).
  pose proof (getOverlay_defaults
                [setting "1" "regex" (VString "${value}"); setting "1" "type" (VString "Device");
                 setting "1" "regex" (VString "${value} ${unit}")] "1")
    as ((_ & Htwice & _) & _).
  pose proof (getOverlay_defaults
                [setting "1" "type" VNull; setting "1" "device" (VString "deviceA")] "1")
    as ((Hnull & _) & _).
  split_and!.
  - exact (H1 (Hno "type")).
  - exact (H2 (Hno "regex")).
  - exact (H3 (Hno "maxDecimals")).
  - exact (H5 (bound_to "1" "deviceA") (VString "${value}") eq_refl).
  - exact Hfirst.
  - exact Hdecimals.
  - exact Htwice.
  - exact Hnull.
  - exact (H7 storage_of_a_bound_slot eq_refl).
Defined.

(** C7 as stated fails: with no settings, the regex and maxDecimals of the
    overlay are [undefined]. *)
Lemma getOverlay_leaves_template_and_decimals_undefined :
  Overlay.type (getOverlay [] "1") = VString "Text" /\
  Overlay.regex (getOverlay [] "1") = VUndefined /\
  Overlay.maxDecimals (getOverlay [] "1") = VUndefined.
Proof. split_and!; vm_compute; reflexivity. Qed.

(** * Properties of the formatter *)

Lemma all_digits_app (a b : string) :
  all_digits (a +:+ b) = all_digits a && all_digits b.
Proof. induction a as [|c a IH]; simpl; [done|]. by rewrite IH, andb_assoc. Qed.

Lemma length_app (a b : string) :
  String.length (a +:+ b) = (String.length a + String.length b)%nat.
Proof. induction a as [|c a IH]; simpl; [done|]. by rewrite IH. Qed.

Lemma length_substring (n m : nat) (s : string) :
  (n + m <= String.length s)%nat -> String.length (substring n m s) = m.
Proof.
  revert n m. induction s as [|c s IH]; intros n m Hle; simpl in *.
  - assert (m = 0%nat) as -> by lia. by destruct n.
  - destruct n as [|n].
    + destruct m as [|m]; [done|]. simpl. rewrite IH; [done|]. simpl. lia.
    + apply IH. lia.
Qed.

Lemma all_digits_substring (n m : nat) (s : string) :
  all_digits s = true -> all_digits (substring n m s) = true.
Proof.
  revert n m. induction s as [|c s IH]; intros n m Hs; simpl in *.
  - by destruct n, m.
  - apply andb_true_iff in Hs as [Hc Hs]. destruct n as [|n].
    + destruct m as [|m]; [done|]. simpl. rewrite Hc. by apply IH.
    + by apply IH.
Qed.

Lemma all_digits_uint (d : uint) : all_digits (NilEmpty.string_of_uint d) = true.
Proof. induction d; simpl; done. Qed.

Lemma all_digits_decimal (n : Z) : all_digits (decimal n) = true.
Proof.
  unfold decimal, NilZero.string_of_uint.
  destruct (N.to_uint (Z.to_N n)); try done; simpl; apply all_digits_uint.
Qed.

Lemma decimal_nonempty (n : Z) : (1 <= String.length (decimal n))%nat.
Proof.
  unfold decimal, NilZero.string_of_uint.
  destruct (N.to_uint (Z.to_N n)); simpl; lia.
Qed.

Lemma all_digits_zeros (n : nat) : all_digits (zeros n) = true.
Proof. induction n; simpl; done. Qed.

Lemma length_zeros (n : nat) : String.length (zeros n) = n.
Proof. induction n; simpl; [done|]. by f_equal. Qed.

(** With a positive number of fraction digits, the result has an integer
    part, a point and exactly [f] fraction digits. *)
Lemma pointed_shape (n : Z) (f : nat) :
  (0 < f)%nat ->
  exists int frac,
    pointed n f = int +:+ "." +:+ frac /\
    String.length frac = f /\ (1 <= String.length int)%nat /\
    all_digits int = true /\ all_digits frac = true.
Proof.
  intros Hf. unfold pointed. destruct f as [|f']; [lia|].
  set (m0 := if (n =? 0)%Z then "0" else decimal n).
  assert (Hm0 : all_digits m0 = true /\ (1 <= String.length m0)%nat).
  { unfold m0. destruct (n =? 0)%Z; [done|].
    split; [apply all_digits_decimal|apply decimal_nonempty]. }
  destruct Hm0 as [Hd0 Hl0].
  set (m := if (String.length m0 <=? S f')%nat
            then zeros (S f' + 1 - String.length m0) +:+ m0 else m0).
  assert (Hm : all_digits m = true /\ (S f' + 1 <= String.length m)%nat).
  { unfold m. destruct (String.length m0 <=? S f')%nat eqn:Hk.
    - apply Nat.leb_le in Hk. split.
      + by rewrite all_digits_app, all_digits_zeros, Hd0.
      + rewrite length_app, length_zeros. lia.
    - apply Nat.leb_gt in Hk. split; [done|lia]. }
  destruct Hm as [Hd Hl].
  exists (substring 0 (String.length m - S f') m), (substring (String.length m - S f') (S f') m).
  split_and!.
  - done.
  - apply length_substring. lia.
  - rewrite length_substring; lia.
  - by apply all_digits_substring.
  - by apply all_digits_substring.
Qed.

Lemma pointed_zero_digits (n : Z) :
  all_digits (pointed n 0) = true /\ (1 <= String.length (pointed n 0))%nat.
Proof.
  unfold pointed. destruct (n =? 0)%Z; [done|].
  split; [apply all_digits_decimal|apply decimal_nonempty].
Qed.

Lemma pointed_nonempty (n : Z) (f : nat) : (1 <= String.length (pointed n f))%nat.
Proof.
  destruct f as [|f'].
  - apply pointed_zero_digits.
  - destruct (pointed_shape n (S f')) as (int & frac & -> & _ & Hint & _); [lia|].
    rewrite length_app. lia.
Qed.

Lemma getSubstitution_plain (matched before after template : string) :
  no_dollar template = true ->
  getSubstitution matched before after template = template.
Proof.
  unfold no_dollar. induction template as [|c rest IH]; simpl; [done|].
  intros H. apply andb_true_iff in H as [Hc Hrest].
  apply negb_true_iff in Hc. rewrite Hc. f_equal. by apply IH.
Qed.

(** With no [$] in the replacement, [replace] splices it in place of the first
    occurrence of the pattern. *)
Lemma replace_plain (s searchValue replaceValue : string) (pos : nat) :
  no_dollar replaceValue = true ->
  String.index 0 searchValue s = Some pos ->
  replace s searchValue replaceValue =
  substring 0 pos s +:+ replaceValue +:+
  substring (pos + String.length searchValue)
            (String.length s - (pos + String.length searchValue)) s.
Proof.
  intros Hplain Hpos. unfold replace. rewrite Hpos.
  by rewrite getSubstitution_plain.
Qed.

Lemma replace_absent (s searchValue replaceValue : string) :
  String.index 0 searchValue s = None -> replace s searchValue replaceValue = s.
Proof. intros H. unfold replace. by rewrite H. Qed.

Section FormatterFacts.

Variable getDeviceById : prim -> option ScryptedDevice.
Variable StringToNumber : string -> jsnum.
Variable NumberToString : Q -> string.

Local Abbreviation toFixed' := (toFixed StringToNumber NumberToString).
Local Abbreviation parse := (parseOverlayData getDeviceById StringToNumber NumberToString).
Local Abbreviation Number' := (Number_or_0 StringToNumber).

Lemma toFixed_finite (q : Q) (fractionDigits : prim) (f : Z) :
  ToIntegerOrInfinity StringToNumber fractionDigits = IInteger f ->
  (0 <= f <= 100)%Z ->
  Qle_bool (inject_Z (10 ^ 21)) (Qabs q) = false ->
  toFixed' (Finite q) fractionDigits =
  Normal (sign q +:+ pointed (nearest (Qabs q) f) (Z.to_nat f)).
Proof.
  intros Hf Hrange Hsmall. unfold toFixed. rewrite Hf.
  replace ((f <? 0)%Z || (100 <? f)%Z) with false by lia.
  by rewrite Hsmall.
Qed.

Lemma toFixed_normal (x : jsnum) (fractionDigits : prim) (f : Z) :
  ToIntegerOrInfinity StringToNumber fractionDigits = IInteger f ->
  (0 <= f <= 100)%Z ->
  exists v, toFixed' x fractionDigits = Normal v.
Proof.
  intros Hf Hrange. unfold toFixed. rewrite Hf.
  replace ((f <? 0)%Z || (100 <? f)%Z) with false by lia.
  destruct x as [|b|q]; [by eexists|by eexists|].
  destruct (Qle_bool _ _); by eexists.
Qed.

Lemma truthy_string_nonempty (v : string) :
  (1 <= String.length v)%nat -> truthy_string (Some v) = true.
Proof. destruct v; simpl; [lia|done]. Qed.

(** What [parseOverlayData] returns once a value was produced. *)
Lemma parse_humidity (data : any) (overlay : Overlay.t) (template v : string) :
  Overlay.regex overlay = VString template ->
  toFixed' (Number' data) (Overlay.maxDecimals overlay) = Normal v ->
  truthy_string (Some v) = true ->
  parse (Some Humidity) data overlay =
  Normal (VString (replace (replace template "${value}" v) "${unit}" "%")).
Proof.
  intros Hregex Hv Htruthy. unfold parseOverlayData. rewrite Hv.
  unfold mbind, Completion_bind. cbn [fst snd].
  rewrite Htruthy, Hregex. unfold or_empty at 1. by rewrite Htruthy.
Qed.

Lemma parse_temperature (data : any) (overlay : Overlay.t) (template v : string)
    (d : ScryptedDevice) :
  Overlay.regex overlay = VString template ->
  truthy (Overlay.device overlay) = true ->
  getDeviceById (Overlay.device overlay) = Some d ->
  toFixed' (Number' data) (Overlay.maxDecimals overlay) = Normal v ->
  truthy_string (Some v) = true ->
  parse (Some Temperature) data overlay =
  Normal (VString (replace (replace template "${value}" v) "${unit}"
                           (or_empty (temperatureUnit d)))).
Proof.
  intros Hregex Htr Hd Hv Htruthy. unfold parseOverlayData. rewrite Hv, Htr, Hd.
  unfold mbind, Completion_bind. cbn [fst snd].
  rewrite Htruthy, Hregex. unfold or_empty at 1. by rewrite Htruthy.
Qed.

Lemma faceLabel_no_face (dets : list ObjectDetectionResult) :
  (forall det, In det dets -> className det <> "face") ->
  faceLabel (AObjects {| detections := Some dets |}) = None.
Proof.
  intros Hnone. unfold faceLabel. simpl.
  destruct (List.find _ dets) as [det|] eqn:Hfind; [|done].
  apply List.find_some in Hfind as [Hin Heq].
  apply String.eqb_eq in Heq. by apply Hnone in Hin.
Qed.

Lemma parse_face_no_value (data : any) (overlay : Overlay.t) :
  truthy_string (faceLabel data) = false ->
  parse (Some Face) data overlay = Normal (Overlay.text overlay).
Proof.
  intros H. unfold parseOverlayData, mbind, Completion_bind. cbn [fst snd].
  by rewrite H.
Qed.

Lemma parse_face_value (data : any) (overlay : Overlay.t) (template l : string) :
  faceLabel data = Some l -> l <> EmptyString ->
  Overlay.regex overlay = VString template ->
  parse (Some Face) data overlay =
  Normal (VString (replace (replace template "${value}" l) "${unit}" EmptyString)).
Proof.
  intros Hl Hne Hregex.
  assert (Ht : truthy_string (Some l) = true).
  { simpl. apply negb_true_iff. by apply String.eqb_neq. }
  unfold parseOverlayData, mbind, Completion_bind. cbn [fst snd].
  rewrite Hl, Hregex, Ht. unfold or_empty at 1. by rewrite Ht.
Qed.

End FormatterFacts.

(** * Claims on the formatter *)

(** [nearest x f] is the integer closest to [x * 10^f], the larger one of
    two: [n - 1/2 <= x * 10^f < n + 1/2]. *)
Lemma nearest_spec (x : Q) (f : Z) :
  let n := nearest x f in
  (2 * n * Zpos (Qden x) <= 2 * Qnum x * 10 ^ f + Zpos (Qden x)
   < 2 * (n + 1) * Zpos (Qden x))%Z.
Proof.
  intros n. unfold n, nearest.
  pose proof (Z.div_mod (2 * Qnum x * 10 ^ f + Zpos (Qden x)) (2 * Zpos (Qden x))) as Hdm.
  pose proof (Z.mod_pos_bound (2 * Qnum x * 10 ^ f + Zpos (Qden x)) (2 * Zpos (Qden x))) as Hb.
  lia.
Qed.

Section FormatterClaims.

Variable getDeviceById : prim -> option ScryptedDevice.
Variable StringToNumber : string -> jsnum.
Variable NumberToString : Q -> string.

Local Abbreviation toFixed' := (toFixed StringToNumber NumberToString).
Local Abbreviation parse := (parseOverlayData getDeviceById StringToNumber NumberToString).
Local Abbreviation Number' := (Number_or_0 StringToNumber).

(** C8 (amended).  With a maxDecimals that coerces to an integer [f] from 0
    to 100: a missing raw value counts as 0; [NaN] and the infinities are
    printed by name, not as 0; a finite value below [10^21] in magnitude is
    printed with its sign, its integer digits and, for [f > 0], a point and
    exactly [f] fraction digits; [toFixed] throws for no number, negative,
    zero or not finite; and the text of a humidity or temperature update is
    the template with this value and the unit substituted. *)
Theorem numeric_formatting (maxDecimals : prim) (f : Z) :
  ToIntegerOrInfinity StringToNumber maxDecimals = IInteger f ->
  (0 <= f <= 100)%Z ->
  (Number' (APrim VUndefined) = Finite 0 /\ Number' (APrim VNull) = Finite 0) /\
  (toFixed' NaN maxDecimals = Normal "NaN" /\
   forall negative,
     toFixed' (Infinity negative) maxDecimals =
     Normal (if negative then "-Infinity" else "Infinity")) /\
  (forall q, Qle_bool (inject_Z (10 ^ 21)) (Qabs q) = false ->
     let digits := pointed (nearest (Qabs q) f) (Z.to_nat f) in
     toFixed' (Finite q) maxDecimals = Normal (sign q +:+ digits) /\
     truthy_string (Some (sign q +:+ digits)) = true /\
     ((0 < f)%Z ->
      exists int frac,
        digits = int +:+ "." +:+ frac /\
        String.length frac = Z.to_nat f /\ (1 <= String.length int)%nat /\
        all_digits int = true /\ all_digits frac = true) /\
     (f = 0%Z -> all_digits digits = true /\ (1 <= String.length digits)%nat)) /\
  (forall x, exists v, toFixed' x maxDecimals = Normal v) /\
  (forall data overlay template v,
     Overlay.maxDecimals overlay = maxDecimals ->
     Overlay.regex overlay = VString template ->
     toFixed' (Number' data) maxDecimals = Normal v ->
     truthy_string (Some v) = true ->
     parse (Some Humidity) data overlay =
       Normal (VString (replace (replace template "${value}" v) "${unit}" "%")) /\
     forall d,
       truthy (Overlay.device overlay) = true ->
       getDeviceById (Overlay.device overlay) = Some d ->
       parse (Some Temperature) data overlay =
         Normal (VString (replace (replace template "${value}" v) "${unit}"
                                  (or_empty (temperatureUnit d))))).
Proof.
  intros Hf Hrange. split_and!.
  - done.
  - done.
  - unfold toFixed. rewrite Hf.
    by replace ((f <? 0)%Z || (100 <? f)%Z) with false by lia.
  - intros negative. unfold toFixed. rewrite Hf.
    by replace ((f <? 0)%Z || (100 <? f)%Z) with false by lia.
  - intros q Hsmall digits. split_and!.
    + by apply toFixed_finite.
    + apply truthy_string_nonempty. rewrite length_app.
      pose proof (pointed_nonempty (nearest (Qabs q) f) (Z.to_nat f)). unfold digits. lia.
    + intros Hpos. apply pointed_shape. lia.
    + intros ->. apply pointed_zero_digits.
  - intros x. by eapply toFixed_normal.
  - intros data overlay template v Hmd Hregex Hv Htruthy. subst maxDecimals. split.
    + by apply parse_humidity.
    + intros d Htr Hd. by apply parse_temperature.
Qed.

(** C9 (amended).  For the listener type [Face]: data without detections, or
    with no detection of class ["face"], or whose first detection of class
    ["face"] has no label or an empty one, gives the static text of the slot;
    when the first detection of class ["face"] has a non-empty label and the
    regex is a string, the result is the regex with the first [${value}]
    replaced by the label and the first [${unit}] by the empty string. *)
Theorem face_formatting (overlay : Overlay.t) (dets : list ObjectDetectionResult) :
  (forall p, parse (Some Face) (APrim p) overlay = Normal (Overlay.text overlay)) /\
  parse (Some Face) (AObjects {| detections := None |}) overlay = Normal (Overlay.text overlay) /\
  ((forall det, In det dets -> className det <> "face") ->
   parse (Some Face) (detected dets) overlay = Normal (Overlay.text overlay)) /\
  (forall det,
     List.find (fun det => String.eqb (className det) "face") dets = Some det ->
     label det = None \/ label det = Some EmptyString ->
     parse (Some Face) (detected dets) overlay = Normal (Overlay.text overlay)) /\
  (forall det l template,
     List.find (fun det => String.eqb (className det) "face") dets = Some det ->
     label det = Some l -> l <> EmptyString ->
     Overlay.regex overlay = VString template ->
     parse (Some Face) (detected dets) overlay =
       Normal (VString (replace (replace template "${value}" l) "${unit}" EmptyString))).
Proof.
  split_and!.
  - intros p. by apply parse_face_no_value.
  - by apply parse_face_no_value.
  - intros Hnone. apply parse_face_no_value.
    unfold detected. by rewrite faceLabel_no_face.
  - intros det Hfind Hlabel. apply parse_face_no_value.
    unfold detected, faceLabel. cbn [detections]. rewrite Hfind.
    by destruct Hlabel as [-> | ->].
  - intros det l template Hfind Hlabel Hne Hregex.
    apply parse_face_value; [|done|done].
    unfold detected, faceLabel. cbn [detections]. by rewrite Hfind.
Qed.

(** What makes [parseOverlayData] return. *)
Lemma parse_returns (listenerType : option ListenerType) (data : any) (overlay : Overlay.t)
    (template : string) :
  Overlay.regex overlay = VString template ->
  (listenerType = Some Temperature \/ listenerType = Some Humidity ->
   exists f, ToIntegerOrInfinity StringToNumber (Overlay.maxDecimals overlay) = IInteger f /\
             (0 <= f <= 100)%Z) ->
  (listenerType = Some Temperature ->
   truthy (Overlay.device overlay) = true /\ is_Some (getDeviceById (Overlay.device overlay))) ->
  exists v, parse listenerType data overlay = Normal v.
Proof.
  intros Hregex Hnum Hdev.
  unfold parseOverlayData. rewrite Hregex.
  destruct listenerType as [[| |]|]; unfold mbind, Completion_bind; cbn [fst snd].
  - destruct (truthy_string (faceLabel data)); eexists; reflexivity.
  - destruct Hnum as (f & Hf & Hrange); [by right|].
    destruct (toFixed_normal StringToNumber NumberToString (Number' data)
                (Overlay.maxDecimals overlay) f Hf Hrange) as [v Hv].
    rewrite Hv. cbn [fst snd]. destruct (truthy_string (Some v)); eexists; reflexivity.
  - destruct Hnum as (f & Hf & Hrange); [by left|].
    destruct (toFixed_normal StringToNumber NumberToString (Number' data)
                (Overlay.maxDecimals overlay) f Hf Hrange) as [v Hv].
    rewrite Hv. destruct (Hdev eq_refl) as [-> [d ->]].
    cbn [fst snd]. destruct (truthy_string (Some v)); eexists; reflexivity.
  - eexists; reflexivity.
Qed.

(** Without a listener type the text of the slot is returned as it is. *)
Lemma parse_no_listener (data : any) (overlay : Overlay.t) :
  parse None data overlay = Normal (Overlay.text overlay).
Proof. reflexivity. Qed.

End FormatterClaims.

(** The theorem at two fraction digits. *)
Lemma numeric_formatting_witness :
  ToIntegerOrInfinity noNumericString (VNumber (Finite (2 # 1))) = IInteger 2 /\
  toFixed noNumericString exponentForm (Finite (- 21456 # 1000)) (VNumber (Finite (2 # 1))) =
    Normal "-21.46" /\
  toFixed noNumericString exponentForm NaN (VNumber (Finite (2 # 1))) = Normal "NaN" /\
  parseOverlayData registry noNumericString exponentForm (Some Humidity) (APrim VUndefined)
    (sample_overlay (VString "${value}${unit}") (VNumber (Finite (2 # 1)))) =
    Normal (VString "0.00%").
Proof.
  assert (Hf : ToIntegerOrInfinity noNumericString (VNumber (Finite (2 # 1))) = IInteger 2)
    by reflexivity.
  assert (Hrange : (0 <= 2 <= 100)%Z) by lia.
  pose proof (numeric_formatting registry noNumericString exponentForm
                (VNumber (Finite (2 # 1))) 2 Hf Hrange)
    as (_ & (Hnan & _) & Hfin & _ & Htext).
  split_and!.
  - exact Hf.
  - exact (proj1 (Hfin (- 21456 # 1000) eq_refl)).
  - exact Hnan.
  - exact (proj1 (Htext (APrim VUndefined)
                    (sample_overlay (VString "${value}${unit}") (VNumber (Finite (2 # 1))))
                    "${value}${unit}" "0.00" eq_refl eq_refl eq_refl eq_refl)).
Defined.

(** The readings [NaN] and 0, whatever the two functions of the language. *)
Lemma nan_and_zero_readings (StringToNumber : string -> jsnum) (NumberToString : Q -> string) :
  parseOverlayData registry StringToNumber NumberToString (Some Temperature)
    (APrim (VNumber NaN))
    (sample_overlay (VString "${value} ${unit}") (VNumber (Finite (1 # 1)))) =
    Normal (VString "NaN C") /\
  parseOverlayData registry StringToNumber NumberToString (Some Temperature)
    (APrim (VNumber (Finite 0)))
    (sample_overlay (VString "${value} ${unit}") (VNumber (Finite (1 # 1)))) =
    Normal (VString "0.0 C").
Proof. split; vm_compute; reflexivity. Qed.

(** C8 as stated fails: a reading that is [NaN] is not formatted as 0 is. *)
Lemma nan_reading_is_printed_as_NaN :
  parseOverlayData registry noNumericString exponentForm (Some Temperature)
    (APrim (VNumber NaN))
    (sample_overlay (VString "${value} ${unit}") (VNumber (Finite (1 # 1)))) =
    Normal (VString "NaN C") /\
  parseOverlayData registry noNumericString exponentForm (Some Temperature)
    (APrim (VNumber (Finite 0)))
    (sample_overlay (VString "${value} ${unit}") (VNumber (Finite (1 # 1)))) =
    Normal (VString "0.0 C").
Proof. exact (nan_and_zero_readings noNumericString exponentForm). Qed.

(** The theorem at an empty detection list and at a labelled face. *)
Lemma face_formatting_witness :
  parseOverlayData registry noNumericString exponentForm (Some Face)
    (detected [])
    (sample_overlay (VString "${value}") VUndefined) = Normal (VString "Hello") /\
  parseOverlayData registry noNumericString exponentForm (Some Face)
    (detected [{| className := "person"; label := Some "Bob" |};
               {| className := "face"; label := Some "Alice" |}])
    (sample_overlay (VString "Seen: ${value}${unit}") VUndefined) =
    Normal (VString "Seen: Alice").
Proof.
  split.
  - apply (proj1 (proj2 (proj2 (face_formatting registry noNumericString exponentForm
                                  (sample_overlay (VString "${value}") VUndefined) [])))).
    intros det [].
  - apply (proj2 (proj2 (proj2 (proj2
             (face_formatting registry noNumericString exponentForm
                (sample_overlay (VString "Seen: ${value}${unit}") VUndefined)
                [{| className := "person"; label := Some "Bob" |};
                 {| className := "face"; label := Some "Alice" |}]))))
             {| className := "face"; label := Some "Alice" |} "Alice" "Seen: ${value}${unit}");
      [reflexivity|reflexivity|discriminate|reflexivity].
Defined.

(** Faces without a label, whatever the two functions of the language. *)
Lemma unlabelled_faces (StringToNumber : string -> jsnum) (NumberToString : Q -> string) :
  parseOverlayData registry StringToNumber NumberToString (Some Face)
    (detected [{| className := "face"; label := None |}])
    (sample_overlay (VString "Seen: ${value}") VUndefined) = Normal (VString "Hello") /\
  parseOverlayData registry StringToNumber NumberToString (Some Face)
    (detected [{| className := "face"; label := None |};
               {| className := "face"; label := Some "Alice" |}])
    (sample_overlay (VString "Seen: ${value}") VUndefined) = Normal (VString "Hello").
Proof. split; vm_compute; reflexivity. Qed.

(** C9 as stated fails: a detection of class ["face"] exists, without a
    label, and the static text is returned instead of the template. *)
Lemma unlabelled_face_returns_static_text :
  parseOverlayData registry noNumericString exponentForm (Some Face)
    (detected [{| className := "face"; label := None |}])
    (sample_overlay (VString "Seen: ${value}") VUndefined) = Normal (VString "Hello") /\
  parseOverlayData registry noNumericString exponentForm (Some Face)
    (detected [{| className := "face"; label := None |};
               {| className := "face"; label := Some "Alice" |}])
    (sample_overlay (VString "Seen: ${value}") VUndefined) = Normal (VString "Hello").
Proof. exact (unlabelled_faces noNumericString exponentForm). Qed.

(** C5 (amended).  A pass ends normally, having visited every overlay id,
    when the host id, if not empty, resolves in the registry; a slot that
    throws ends the pass with its exception, and the overlay ids after it are
    not visited.  [parseOverlayData] returns when the regex is a string, for
    [Temperature] and [Humidity] maxDecimals coerces to an integer from 0 to
    100 and, for [Temperature], the device of the slot resolves; without a
    listener type it returns the text of the slot. *)
Theorem pass_and_formatter_completion
    (getDeviceById : prim -> option ScryptedDevice) (settings : list Setting) (id : string) :
  (forall overlayIds s,
     (truthy (VString id) = true -> is_Some (getDeviceById (VString id))) ->
     exists s' t, listenersIntevalFn getDeviceById overlayIds settings id s = (Normal tt, s', t)) /\
  (forall pre post overlayId s s1 s2 t1 t2 e,
     listenersIntevalFn getDeviceById pre settings id s = (Normal tt, s1, t1) ->
     reconcileOverlay getDeviceById settings id overlayId s1 = (Throw e, s2, t2) ->
     listenersIntevalFn getDeviceById (pre ++ overlayId :: post) settings id s =
       (Throw e, s2, t1 ++ t2)) /\
  (forall StringToNumber NumberToString listenerType data overlay template,
     Overlay.regex overlay = VString template ->
     (listenerType = Some Temperature \/ listenerType = Some Humidity ->
      exists f,
        ToIntegerOrInfinity StringToNumber (Overlay.maxDecimals overlay) = IInteger f /\
        (0 <= f <= 100)%Z) ->
     (listenerType = Some Temperature ->
      truthy (Overlay.device overlay) = true /\
      is_Some (getDeviceById (Overlay.device overlay))) ->
     exists v,
       parseOverlayData getDeviceById StringToNumber NumberToString listenerType data overlay =
       Normal v) /\
  (forall StringToNumber NumberToString data overlay,
     parseOverlayData getDeviceById StringToNumber NumberToString None data overlay =
     Normal (Overlay.text overlay)).
Proof.
  split_and!.
  - intros overlayIds s Hhost. by apply pass_normal.
  - intros pre post overlayId s s1 s2 t1 t2 e Hpre Hslot.
    by rewrite pass_app, Hpre, pass_cons, Hslot.
  - intros StringToNumber NumberToString listenerType data overlay template.
    apply parse_returns.
  - intros StringToNumber NumberToString data overlay. apply parse_no_listener.
Qed.

(** The theorem at a pass that completes, a pass that a slot aborts, and a
    temperature update. *)
Lemma pass_and_formatter_completion_witness :
  (exists s' t,
     listenersIntevalFn registry ["1"; "2"] (face_slot "1" ++ text_slot "2" "Hello")
       "camera" emptyStore = (Normal tt, s', t)) /\
  listenersIntevalFn registry_without_camera ["2"; "1"; "2"]
    (face_slot "1" ++ text_slot "2" "Hello") "camera" emptyStore =
    (Throw TypeError, emptyStore, [textPush "2" (VString "Hello")] ++ []) /\
  (exists v,
     parseOverlayData registry noNumericString exponentForm (Some Temperature)
       (APrim (VNumber (Finite (215 # 10))))
       (sample_overlay (VString "${value} ${unit}") (VNumber (Finite (1 # 1)))) = Normal v).
Proof.
  split_and!.
  - apply (proj1 (pass_and_formatter_completion registry
                    (face_slot "1" ++ text_slot "2" "Hello") "camera")).
    intros _. by exists camera.
  - apply (proj1 (proj2 (pass_and_formatter_completion registry_without_camera
                           (face_slot "1" ++ text_slot "2" "Hello") "camera"))
             ["2"] ["2"] "1" emptyStore emptyStore emptyStore); vm_compute; reflexivity.
  - apply (proj1 (proj2 (proj2 (pass_and_formatter_completion registry
                                  (face_slot "1" ++ text_slot "2" "Hello") "camera")))
             noNumericString exponentForm (Some Temperature) _ _ "${value} ${unit}");
      [reflexivity| |].
    + intros _. exists 1%Z. split; [reflexivity|lia].
    + intros _. split; [reflexivity|by exists deviceA].
Defined.

(** The formatter on a device that does not resolve and on a regex that is
    not a string, whatever the two functions of the language. *)
Lemma formatter_throws (StringToNumber : string -> jsnum) (NumberToString : Q -> string) :
  parseOverlayData registry StringToNumber NumberToString (Some Temperature)
    (APrim (VNumber (Finite (215 # 10))))
    {| Overlay.text := VString "Hello"; Overlay.type := VString "Device";
       Overlay.device := VString "deviceC"; Overlay.regex := VString "${value} ${unit}";
       Overlay.maxDecimals := VNumber (Finite (1 # 1)) |} = Throw TypeError /\
  parseOverlayData registry StringToNumber NumberToString (Some Face)
    (detected [{| className := "face"; label := Some "Alice" |}])
    (sample_overlay VUndefined VUndefined) = Throw TypeError.
Proof. split; vm_compute; reflexivity. Qed.

(** C5 as stated fails: the exception of slot 1 leaves the pass, slot 2 is
    never pushed, and the formatter throws on a device that does not resolve
    and on a regex that is not a string. *)
Lemma failing_slot_aborts_the_pass :
  listenersIntevalFn registry_without_camera ["1"; "2"]
    (face_slot "1" ++ text_slot "2" "Hello") "camera" emptyStore =
    (Throw TypeError, emptyStore, []) /\
  listenersIntevalFn registry_without_camera ["2"]
    (face_slot "1" ++ text_slot "2" "Hello") "camera" emptyStore =
    (Normal tt, emptyStore, [textPush "2" (VString "Hello")]) /\
  parseOverlayData registry noNumericString exponentForm (Some Temperature)
    (APrim (VNumber (Finite (215 # 10))))
    {| Overlay.text := VString "Hello"; Overlay.type := VString "Device";
       Overlay.device := VString "deviceC"; Overlay.regex := VString "${value} ${unit}";
       Overlay.maxDecimals := VNumber (Finite (1 # 1)) |} = Throw TypeError /\
  parseOverlayData registry noNumericString exponentForm (Some Face)
    (detected [{| className := "face"; label := Some "Alice" |}])
    (sample_overlay VUndefined VUndefined) = Throw TypeError.
Proof.
  split_and!; [vm_compute; reflexivity|vm_compute; reflexivity| |];
    apply (formatter_throws noNumericString exponentForm).
Qed.

(** * Further properties of the overlay model *)

Lemma append_cons (c : ascii) (a b : string) : String c a +:+ b = String c (a +:+ b).
Proof. reflexivity. Qed.

Lemma append_empty (b : string) : EmptyString +:+ b = b.
Proof. reflexivity. Qed.

Lemma has_colon_app (a b : string) : has_colon (a +:+ String ":" b) = true.
Proof.
  induction a as [|c a IH].
  - reflexivity.
  - rewrite append_cons. cbn [has_colon]. by rewrite IH, orb_true_r.
Qed.

Lemma append_inj_l (p x y : string) : p +:+ x = p +:+ y -> x = y.
Proof.
  induction p as [|c p IH]; [done|]. rewrite !append_cons.
  intros H. injection H as H. by apply IH.
Qed.

(** A string is cut in one way only at its last colon. *)
Lemma last_colon_inj (a b f g : string) :
  has_colon f = false -> has_colon g = false ->
  a +:+ String ":" f = b +:+ String ":" g -> a = b /\ f = g.
Proof.
  intros Hf Hg. revert b.
  induction a as [|x a IH]; intros [|y b] H;
    rewrite ?append_cons, ?append_empty in H.
  - by injection H as ->.
  - injection H as _ ->. by rewrite has_colon_app in Hf.
  - injection H as _ <-. by rewrite has_colon_app in Hg.
  - injection H as -> H. by destruct (IH _ H) as [-> ->].
Qed.

Lemma slotFields_no_colon (f : string) : In f slotFields -> has_colon f = false.
Proof. intros H. repeat (destruct H as [<-|H]; [done|]). destruct H. Qed.

(** The key of a field of a slot tells the slot and the field. *)
Lemma slot_key_inj (a b f g : string) :
  In f slotFields -> In g slotFields ->
  "overlay:" +:+ a +:+ ":" +:+ f = "overlay:" +:+ b +:+ ":" +:+ g -> a = b /\ f = g.
Proof.
  intros Hf Hg H. apply append_inj_l in H.
  apply (last_colon_inj a b f g); auto using slotFields_no_colon.
Qed.

Lemma slotKey_inj (a b f g : string) :
  In f slotFields -> In g slotFields ->
  slotKey a f = slotKey b g -> a = b /\ f = g.
Proof.
  intros Hf Hg H. unfold slotKey in H. apply append_inj_l in H.
  apply (last_colon_inj a b f g); auto using slotFields_no_colon.
Qed.

Lemma slotKeys_fields (overlayId : string) :
  slotKeys overlayId = map (fun f => "overlay:" +:+ overlayId +:+ ":" +:+ f) slotFields.
Proof. reflexivity. Qed.

Lemma In_slotKeys (overlayId k : string) :
  In k (slotKeys overlayId) <->
  exists f, In f slotFields /\ k = "overlay:" +:+ overlayId +:+ ":" +:+ f.
Proof.
  rewrite slotKeys_fields, in_map_iff. split; intros (f & H1 & H2); exists f; by split.
Qed.

Lemma NoDup_slotFields : NoDup slotFields.
Proof. apply (bool_decide_unpack _). by vm_compute. Qed.

(** X1.  The keys [getOverlayKeys] builds never collide: over overlay ids
    that are pairwise different, the keys of all fields of all slots are
    pairwise different, whatever characters the ids are made of. *)
Theorem overlay_keys_never_collide (overlayIds : list string) :
  NoDup overlayIds -> NoDup (flat_map slotKeys overlayIds).
Proof.
  induction 1 as [|o ids Hnot Hnd IH]; [constructor|].
  cbn [flat_map]. apply NoDup_app. split_and!.
  - rewrite slotKeys_fields. apply NoDup_fmap_2_strong; [|apply NoDup_slotFields].
    intros f g Hf Hg H. apply list_elem_of_In in Hf, Hg.
    by destruct (slot_key_inj o o f g Hf Hg H).
  - intros k Hk Hk'. apply list_elem_of_In in Hk, Hk'.
    apply In_slotKeys in Hk as (f & Hf & ->).
    apply in_flat_map in Hk' as (o' & Ho' & Hk').
    apply In_slotKeys in Hk' as (g & Hg & Heq).
    destruct (slot_key_inj o o' f g Hf Hg Heq) as [-> _].
    apply Hnot. by apply list_elem_of_In.
  - done.
Qed.

Lemma overlay_keys_never_collide_witness :
  NoDup ["1"; "1:text"; "2"] /\
  NoDup (flat_map slotKeys ["1"; "1:text"; "2"]).
Proof.
  assert (H : NoDup ["1"; "1:text"; "2"]) by (apply (bool_decide_unpack _); by vm_compute).
  split; [exact H|]. exact (overlay_keys_never_collide _ H).
Defined.

Lemma getOverlaySettings_slots (getItem : string -> prim) (overlayIds : list string) :
  getOverlaySettings getItem overlayIds = flat_map (slotSettings getItem) overlayIds.
Proof. reflexivity. Qed.

Local Ltac name_field :=
  let try_field f := (exists f; split_and!; [cbn; tauto|reflexivity|reflexivity]) in
  first [try_field "type" | try_field "text" | try_field "device" | try_field "regex"
        | try_field "maxDecimals"].

(** The settings of a slot, field by field. *)
Lemma slotSettings_In (getItem : string -> prim) (overlayId : string) (s : Setting) :
  let type := nullish_or (getItem (typeKey (getOverlayKeys overlayId))) (OverlayType_value Text) in
  In s (slotSettings getItem overlayId) <->
  exists f, In f slotFields /\ shows type f = true /\
            s = {| key := "overlay:" +:+ overlayId +:+ ":" +:+ f;
                   value := shownValue getItem overlayId f |}.
Proof.
  intros type. unfold slotSettings. fold type. unfold shows.
  destruct (strict_eq type (OverlayType_value Text)),
           (strict_eq type (OverlayType_value Device)),
           (strict_eq type (OverlayType_value FaceDetection));
    cbn [app In]; (split; [intros H|intros (f & Hf & Hs & ->)]).
  all: try (repeat (destruct H as [<-|H]; [name_field|]); by destruct H).
  all: cbn in Hf; repeat (destruct Hf as [<-|Hf]; [cbn in Hs; try discriminate Hs; tauto|]); by destruct Hf.
Qed.

Lemma getOverlaySettings_In (getItem : string -> prim) (overlayIds : list string) (s : Setting) :
  In s (getOverlaySettings getItem overlayIds) <->
  exists overlayId f,
    In overlayId overlayIds /\ In f slotFields /\
    shows (nullish_or (getItem (typeKey (getOverlayKeys overlayId))) (OverlayType_value Text)) f = true /\
    s = {| key := "overlay:" +:+ overlayId +:+ ":" +:+ f;
           value := shownValue getItem overlayId f |}.
Proof.
  rewrite getOverlaySettings_slots, in_flat_map. split.
  - intros (o & Ho & Hs). apply slotSettings_In in Hs as (f & Hf & Hshow & ->).
    by exists o, f.
  - intros (o & f & Ho & Hf & Hshow & ->). exists o. split; [done|].
    apply slotSettings_In. by exists f.
Qed.

Lemma slotSettings_keys (getItem : string -> prim) (overlayId : string) :
  exists fs, map key (slotSettings getItem overlayId) =
             map (fun f => "overlay:" +:+ overlayId +:+ ":" +:+ f) fs /\
             NoDup fs /\ forall f, In f fs -> In f slotFields.
Proof.
  unfold slotSettings.
  set (type := nullish_or _ _).
  destruct (strict_eq type (OverlayType_value Text)),
           (strict_eq type (OverlayType_value Device)),
           (strict_eq type (OverlayType_value FaceDetection)); cbn [app map key].
  1,2: exists ["type"; "text"; "device"; "regex"; "maxDecimals"].
  3: exists ["type"; "text"; "regex"].
  4: exists ["type"; "text"].
  5,6: exists ["type"; "device"; "regex"; "maxDecimals"].
  7: exists ["type"; "regex"].
  8: exists ["type"].
  all: split_and!; [reflexivity|apply (bool_decide_unpack _); by vm_compute|].
  all: intros f Hf; cbn in Hf |- *; tauto.
Qed.

(** X2.  The settings view holds no key twice when the overlay ids are
    pairwise different. *)
Theorem settings_view_keys_distinct (getItem : string -> prim) (overlayIds : list string) :
  NoDup overlayIds -> NoDup (map key (getOverlaySettings getItem overlayIds)).
Proof.
  rewrite getOverlaySettings_slots.
  induction 1 as [|o ids Hnot Hnd IH]; [constructor|].
  cbn [flat_map]. rewrite map_app. apply NoDup_app. split_and!.
  - destruct (slotSettings_keys getItem o) as (fs & -> & Hfs & Hsub).
    apply NoDup_fmap_2_strong; [|done].
    intros f g Hf Hg H. apply list_elem_of_In in Hf, Hg.
    by destruct (slot_key_inj o o f g (Hsub _ Hf) (Hsub _ Hg) H).
  - intros k Hk Hk'. apply list_elem_of_In in Hk, Hk'.
    apply in_map_iff in Hk as (s & <- & Hs).
    apply slotSettings_In in Hs as (f & Hf & _ & ->).
    apply in_map_iff in Hk' as (s' & Hkey & Hs').
    apply in_flat_map in Hs' as (o' & Ho' & Hs').
    apply slotSettings_In in Hs' as (g & Hg & _ & ->). cbn [key] in Hkey.
    destruct (slot_key_inj o' o g f Hg Hf Hkey) as [-> _].
    apply Hnot. by apply list_elem_of_In.
  - done.
Qed.

Lemma settings_view_keys_distinct_witness :
  NoDup ["1"; "2"] /\
  NoDup (map key (getOverlaySettings storage_of_two_slots ["1"; "2"])).
Proof.
  assert (H : NoDup ["1"; "2"]) by (apply (bool_decide_unpack _); by vm_compute).
  split; [exact H|]. exact (settings_view_keys_distinct _ _ H).
Defined.

Lemma nullish_or_not_nullish (a b : prim) :
  b <> VUndefined -> b <> VNull ->
  nullish_or a b <> VUndefined /\ nullish_or a b <> VNull.
Proof. intros H1 H2. by destruct a. Qed.

Lemma or_else_truthy (a b : prim) : truthy b = true -> truthy (or_else a b) = true.
Proof. intros H. unfold or_else. by destruct (truthy a) eqn:Ha. Qed.

(** X3.  The defaults of the settings view: whatever the storage holds, the
    type setting of a slot is never [null] or [undefined], its regex setting
    is always truthy (an empty template is replaced by the default one), and
    its maxDecimals setting is never [null] or [undefined]. *)
Theorem settings_view_defaults (getItem : string -> prim) (overlayIds : list string)
    (s : Setting) (overlayId : string) :
  In s (getOverlaySettings getItem overlayIds) ->
  let keys := getOverlayKeys overlayId in
  (key s = typeKey keys -> value s <> VUndefined /\ value s <> VNull) /\
  (key s = regexKey keys -> truthy (value s) = true) /\
  (key s = maxDecimalsKey keys -> value s <> VUndefined /\ value s <> VNull).
Proof.
  intros Hs keys. apply getOverlaySettings_In in Hs as (o & f & Ho & Hf & _ & ->).
  cbn [key value]. split_and!; intros Hk.
  - change (typeKey keys) with ("overlay:" +:+ overlayId +:+ ":" +:+ "type") in Hk.
    apply slot_key_inj in Hk as [-> ->]; [|done|cbn; tauto].
    by apply nullish_or_not_nullish.
  - change (regexKey keys) with ("overlay:" +:+ overlayId +:+ ":" +:+ "regex") in Hk.
    apply slot_key_inj in Hk as [-> ->]; [|done|cbn; tauto].
    by apply or_else_truthy.
  - change (maxDecimalsKey keys) with ("overlay:" +:+ overlayId +:+ ":" +:+ "maxDecimals") in Hk.
    apply slot_key_inj in Hk as [-> ->]; [|done|cbn; tauto].
    by apply nullish_or_not_nullish.
Qed.

Lemma settings_view_defaults_witness :
  In {| key := "overlay:2:type"; value := VString "Text" |}
     (getOverlaySettings storage_of_two_slots ["1"; "2"]) /\
  VString "Text" <> VUndefined /\ VString "Text" <> VNull.
Proof.
  assert (H : In {| key := "overlay:2:type"; value := VString "Text" |}
                 (getOverlaySettings storage_of_two_slots ["1"; "2"]))
    by (vm_compute; tauto).
  split; [exact H|].
  exact (proj1 (settings_view_defaults _ _ _ "2" H) eq_refl).
Defined.

(** X4.  The object [getOverlay] builds with [reduce] holds, under each key,
    the last setting of the list that has this key: a later setting of a key
    overrides the earlier ones, and a key no setting has is not found. *)
Theorem settingsByKey_holds_last (settings : list Setting) (k : string) :
  settingsByKey settings !! k = lastSetting settings k /\
  value_at (settingsByKey settings) k =
    match lastSetting settings k with
    | Some s => value s
    | None => VUndefined
    end.
Proof.
  split.
  - apply settingsByKey_lookup_last.
  - exact (value_at_lastValue settings k).
Qed.

Lemma getOverlay_slotKey (settings : list Setting) (overlayId : string) :
  getOverlay settings overlayId =
  let byKey := settingsByKey settings in
  {| Overlay.text := value_at byKey (slotKey overlayId "text");
     Overlay.type := nullish_or (value_at byKey (slotKey overlayId "type")) (OverlayType_value Text);
     Overlay.device := value_at byKey (slotKey overlayId "device");
     Overlay.regex := value_at byKey (slotKey overlayId "regex");
     Overlay.maxDecimals := value_at byKey (slotKey overlayId "maxDecimals") |}.
Proof. reflexivity. Qed.

Lemma underPrefix_In (settings : list Setting) (s : Setting) :
  In s (underPrefix settings) <->
  exists s0, In s0 settings /\ s = {| key := "osdManager:" +:+ key s0; value := value s0 |}.
Proof.
  unfold underPrefix. rewrite in_map_iff.
  split; intros (s0 & H1 & H2); exists s0; by split.
Qed.

(** What [getOverlay] finds of a field in the settings view. *)
Lemma view_value (getItem : string -> prim) (overlayIds : list string)
    (overlayId f : string) :
  In f slotFields ->
  let type := nullish_or (getItem (typeKey (getOverlayKeys overlayId))) (OverlayType_value Text) in
  value_at (settingsByKey (underPrefix (getOverlaySettings getItem overlayIds)))
           (slotKey overlayId f) =
  if bool_decide (overlayId ∈ overlayIds) && shows type f
  then shownValue getItem overlayId f else VUndefined.
Proof.
  intros Hf type.
  assert (Hkeys : forall s, In s (underPrefix (getOverlaySettings getItem overlayIds)) ->
            key s = slotKey overlayId f ->
            In overlayId overlayIds /\ shows type f = true /\
            value s = shownValue getItem overlayId f).
  { intros s Hs Hk. apply underPrefix_In in Hs as (s0 & Hs0 & ->).
    apply getOverlaySettings_In in Hs0 as (o & g & Ho & Hg & Hshow & ->).
    cbn [key value] in Hk |- *.
    change ("osdManager:" +:+ "overlay:" +:+ o +:+ ":" +:+ g) with (slotKey o g) in Hk.
    by apply slotKey_inj in Hk as [-> ->]. }
  destruct (bool_decide (overlayId ∈ overlayIds) && shows type f) eqn:Hcase.
  - apply andb_prop in Hcase as [Hin Hshow]. apply bool_decide_eq_true in Hin.
    apply list_elem_of_In in Hin.
    apply value_at_unique.
    + exists {| key := slotKey overlayId f; value := shownValue getItem overlayId f |}.
      split; [|done]. apply underPrefix_In.
      exists {| key := "overlay:" +:+ overlayId +:+ ":" +:+ f;
                value := shownValue getItem overlayId f |}.
      split; [|done]. apply getOverlaySettings_In. by exists overlayId, f.
    + intros s Hs Hk. by destruct (Hkeys s Hs Hk) as (_ & _ & ->).
  - apply value_at_missing. intros s Hs Hk.
    destruct (Hkeys s Hs Hk) as (Hin & Hshow & _).
    apply list_elem_of_In in Hin. by rewrite bool_decide_eq_true_2, Hshow in Hcase.
Qed.

Lemma nullish_or_twice (a b : prim) : nullish_or (nullish_or a b) b = nullish_or a b.
Proof. destruct a; try done; by destruct b. Qed.

(** X5.  Reading back the settings view.  For a slot of the view, [getOverlay]
    on the settings [getOverlaySettings] builds (with their keys under the
    group key) finds the stored type, [Text] by default; and it finds the
    fields the view shows for this type, with the defaults of the view:
    the text of a [Text] slot only, the device and the maxDecimals (1 by
    default) of a [Device] slot only, the template (["${value} ${unit}"] by
    default) of a [Device] or [FaceDetection] slot only.  A field the view
    does not show reads [undefined], whatever the storage holds for it. *)
Theorem settings_view_read_back (getItem : string -> prim) (overlayIds : list string)
    (overlayId : string) :
  In overlayId overlayIds ->
  let keys := getOverlayKeys overlayId in
  let type := nullish_or (getItem (typeKey keys)) (OverlayType_value Text) in
  getOverlay (underPrefix (getOverlaySettings getItem overlayIds)) overlayId =
  {| Overlay.type := type;
     Overlay.text :=
       if strict_eq type (OverlayType_value Text) then getItem (textKey keys) else VUndefined;
     Overlay.device :=
       if strict_eq type (OverlayType_value Device) then getItem (deviceKey keys) else VUndefined;
     Overlay.regex :=
       if strict_eq type (OverlayType_value Device)
          || strict_eq type (OverlayType_value FaceDetection)
       then or_else (getItem (regexKey keys)) (VString "${value} ${unit}") else VUndefined;
     Overlay.maxDecimals :=
       if strict_eq type (OverlayType_value Device)
       then nullish_or (getItem (maxDecimalsKey keys)) (VNumber (Finite 1)) else VUndefined |}.
Proof.
  intros Hin keys type. rewrite getOverlay_slotKey. cbv zeta.
  rewrite !view_value by (cbn; tauto).
  rewrite bool_decide_eq_true_2 by (by apply list_elem_of_In). cbn [andb]. fold keys type.
  f_equal.
  change (nullish_or (nullish_or (getItem (typeKey keys)) (OverlayType_value Text))
            (OverlayType_value Text) = type).
  apply nullish_or_twice.
Qed.

Lemma settings_view_read_back_witness :
  In "1" ["1"; "2"] /\
  getOverlay (underPrefix (getOverlaySettings storage_of_two_slots ["1"; "2"])) "1" =
  {| Overlay.type := VString "FaceDetection"; Overlay.text := VUndefined;
     Overlay.device := VUndefined; Overlay.regex := VString "Seen: ${value}";
     Overlay.maxDecimals := VUndefined |}.
Proof.
  assert (H : In "1" ["1"; "2"]) by (left; reflexivity).
  split; [exact H|]. exact (settings_view_read_back storage_of_two_slots _ _ H).
Defined.

(** X6.  Slots and key spaces the view does not cover.  A slot that is not
    among the overlay ids of the view reads as a blank [Text] slot; and
    without the group key before their keys, the settings of the view are
    found for no slot at all: [getOverlay] looks under [osdManager:] only. *)
Theorem settings_view_blank (getItem : string -> prim) (overlayIds : list string)
    (overlayId : string) :
  (~ In overlayId overlayIds ->
   getOverlay (underPrefix (getOverlaySettings getItem overlayIds)) overlayId = blankOverlay) /\
  getOverlay (getOverlaySettings getItem overlayIds) overlayId = blankOverlay.
Proof.
  split.
  - intros Hin. rewrite getOverlay_slotKey. cbv zeta.
    rewrite !view_value by (cbn; tauto).
    by rewrite bool_decide_eq_false_2 by (by rewrite list_elem_of_In).
  - rewrite getOverlay_slotKey. cbv zeta.
    assert (Hno : forall f, no_setting (getOverlaySettings getItem overlayIds)
                              (slotKey overlayId f)).
    { intros f s Hs Hk. apply getOverlaySettings_In in Hs as (o & g & _ & _ & _ & ->).
      cbn [key] in Hk. unfold slotKey in Hk. rewrite !append_cons in Hk. discriminate Hk. }
    by rewrite !value_at_missing by apply Hno.
Qed.

Lemma settings_view_blank_witness :
  ~ In "3" ["1"; "2"] /\
  getOverlay (underPrefix (getOverlaySettings storage_of_two_slots ["1"; "2"])) "3" =
    blankOverlay.
Proof.
  assert (H : ~ In "3" ["1"; "2"]) by (intros [H|[H|[]]]; discriminate H).
  split; [exact H|].
  exact (proj1 (settings_view_blank storage_of_two_slots ["1"; "2"] "3") H).
Defined.

(** * Further properties of the reconciliation *)

Lemma firstPush_no_remove (overlayId : string) (lt : ListenerType) (li : ScryptedInterface)
    (d : ScryptedDevice) (h : Handle) :
  ~ In (RemoveListener h) (firstPush overlayId lt li d).
Proof. destruct li; cbn; intros H; repeat (destruct H as [H|H]; [done|]); done. Qed.

Section PassInvariants.

Variable getDeviceById : prim -> option ScryptedDevice.
Variable settings : list Setting.
Variable id : string.

Local Abbreviation slot := (reconcileOverlay getDeviceById settings id).
Local Abbreviation pass overlayIds := (listenersIntevalFn getDeviceById overlayIds settings id).
Local Abbreviation resting := (at_rest getDeviceById settings id).

Lemma pass_step (overlayId : string) (rest : list string) (s : Store) :
  pass (overlayId :: rest) s =
  match slot overlayId s with
  | (Normal _, s1, t1) =>
      match pass rest s1 with
      | (c, s2, t2) => (c, s2, t1 ++ t2)
      end
  | (Throw e, s1, t1) => (Throw e, s1, t1)
  end.
Proof. reflexivity. Qed.

(** A pass over slots of type [Text] only. *)
Lemma pass_all_text (overlayIds : list string) (s : Store) :
  (forall overlayId, In overlayId overlayIds ->
     strict_eq (Overlay.type (getOverlay settings overlayId)) (OverlayType_value Text) = true) ->
  pass overlayIds s =
  (Normal tt, s,
   flat_map (fun overlayId =>
               removal (currentListeners s !! overlayId)
               ++ [textPush overlayId (Overlay.text (getOverlay settings overlayId))])
            overlayIds).
Proof.
  intros Htext. induction overlayIds as [|o rest IH]; [reflexivity|].
  rewrite pass_step, slot_text by (apply Htext; by left).
  rewrite IH by (intros o' Ho'; apply Htext; by right). done.
Qed.

(** The handles a pass releases, when the store it starts from differs from
    [s0] only by entries on which their slots are at rest without a call. *)
Lemma pass_releases_from (overlayIds : list string) (s0 s s' : Store) (c : Completion unit)
    (t : list Effect) (h : Handle) :
  (forall o, currentListeners s !! o = currentListeners s0 !! o \/
             resting o (currentListeners s !! o) []) ->
  pass overlayIds s = (c, s', t) -> In (RemoveListener h) t ->
  exists overlayId b,
    In overlayId overlayIds /\
    currentListeners s0 !! overlayId = Some b /\ Binding.listener b = Some h.
Proof.
  revert s t. induction overlayIds as [|o rest IH]; intros s t Hinv Hrun Hin.
  - cbv in Hrun. by simplify_eq.
  - rewrite pass_step in Hrun.
    assert (Hhere : forall b, currentListeners s !! o = Some b -> Binding.listener b = Some h ->
              forall t0 s1 c1, slot o s = (c1, s1, t0) -> t0 <> [] ->
              exists overlayId b0, In overlayId (o :: rest) /\
                currentListeners s0 !! overlayId = Some b0 /\ Binding.listener b0 = Some h).
    { intros b Hb Hh t0 s1 c1 Hslot Hne. destruct (Hinv o) as [Heq|Hquiet].
      - exists o, b. split_and!; [by left|by rewrite <- Heq|done].
      - rewrite (Hquiet s eq_refl) in Hslot. by simplify_eq. }
    assert (Hlater : forall s1 t2,
              (forall o', currentListeners s1 !! o' = currentListeners s0 !! o' \/
                          resting o' (currentListeners s1 !! o') []) ->
              pass rest s1 = (c, s', t2) -> In (RemoveListener h) t2 ->
              exists overlayId b0, In overlayId (o :: rest) /\
                currentListeners s0 !! overlayId = Some b0 /\ Binding.listener b0 = Some h).
    { intros s1 t2 Hinv1 Hpass Hin2.
      destruct (IH _ _ Hinv1 Hpass Hin2) as (o' & b & ? & ? & ?).
      exists o', b. split_and!; [by right|done|done]. }
    destruct (slot_run getDeviceById settings id o s).
    + pose proof (Hrest s eq_refl) as Hslot. rewrite Hslot in Hrun.
      destruct (pass rest s) as [[c2 s2] t2] eqn:Hpass. simplify_eq.
      apply in_app_or in Hin as [Hin|Hin].
      * destruct (Hremove h Hin) as (_ & b & Hb & Hh).
        eapply Hhere; [done|done|exact Hslot|]. by intros ->.
      * by eapply Hlater.
    + rewrite (Hthrow s eq_refl) in Hrun. by simplify_eq.
    + rewrite Hrun0 in Hrun. cbv beta iota in Hrun.
      match type of Hrun with context [listenersIntevalFn _ rest _ _ ?sa] =>
        destruct (pass rest sa) as [[c2 s2] t2] eqn:Hpass end.
      simplify_eq. apply in_app_or in Hin as [Hin|Hin].
      * destruct Hin as [?|Hin]; [done|].
        apply in_app_or in Hin as [Hin|[?|Hin]]; [|done|].
        -- apply removal_In in Hin as (b & Hb & Hh).
           eapply Hhere; [done|done|exact Hrun0|done].
        -- by apply firstPush_no_remove in Hin.
      * eapply Hlater; [|exact Hpass|done].
        intros o'. cbn [currentListeners]. destruct (decide (o = o')) as [<-|Hne].
        -- right. by rewrite lookup_insert_eq.
        -- rewrite lookup_insert_ne by done. apply Hinv.
Qed.

(** X7.  A pass over slots that are all of type [Text] never throws and
    never subscribes, whatever the registry and the host id are: it leaves
    [currentListeners] as it is and, slot by slot in the order of the
    overlay ids, releases the handle the slot's entry records (if any) and
    pushes the slot's text; it makes as many pushes as there are overlay
    ids. *)
Theorem static_pass (overlayIds : list string) (s : Store) :
  (forall overlayId, In overlayId overlayIds ->
     strict_eq (Overlay.type (getOverlay settings overlayId)) (OverlayType_value Text) = true) ->
  let t := flat_map (fun overlayId =>
                       removal (currentListeners s !! overlayId)
                       ++ [textPush overlayId (Overlay.text (getOverlay settings overlayId))])
                    overlayIds in
  pass overlayIds s = (Normal tt, s, t) /\
  subscribes t = 0%nat /\
  pushes t = length overlayIds.
Proof.
  intros Htext t. split_and!.
  - by apply pass_all_text.
  - apply subscribes_none. subst t. clear Htext.
    induction overlayIds as [|o rest IH]; [constructor|].
    cbn [flat_map]. rewrite <- app_assoc. apply Forall_app. split; [apply removal_no_listen|].
    constructor; [done|apply IH].
  - subst t. clear Htext. unfold pushes. induction overlayIds as [|o rest IH]; [done|].
    cbn [flat_map]. rewrite <- app_assoc, filter_app, List.length_app.
    cbn [app]. rewrite filter_cons_True by done. cbn [length]. rewrite IH.
    replace (filter _ (removal (currentListeners s !! o))) with (@nil Effect); [done|].
    unfold removal. by destruct (currentListeners s !! o) as [[lt [h|] dev]|].
Qed.

(** X8.  A pass releases only handles that [currentListeners] recorded when
    the pass began, each for one of the overlay ids of the pass: it never
    releases a subscription it has opened itself, also when an overlay id
    occurs more than once and when the pass throws. *)
Theorem pass_releases_recorded_handles (overlayIds : list string) (s s' : Store)
    (c : Completion unit) (t : list Effect) (h : Handle) :
  pass overlayIds s = (c, s', t) -> In (RemoveListener h) t ->
  exists overlayId b,
    In overlayId overlayIds /\
    currentListeners s !! overlayId = Some b /\ Binding.listener b = Some h.
Proof. apply pass_releases_from. intros o. by left. Qed.

(** X9.  What a pass does to [currentListeners].  Every entry after the pass
    is the entry the pass found, or it is the entry of one of the overlay
    ids and records a subscription the pass has opened: its handle is the
    one returned by a [listen] call of the trace on the interface of the
    recorded listener type, and its device stamp is the device setting of
    the slot.  Hence the entries of other slots are untouched, and no entry
    is ever removed. *)
Theorem pass_store_entries (overlayIds : list string) (s s' : Store)
    (c : Completion unit) (t : list Effect) :
  pass overlayIds s = (c, s', t) ->
  (nextHandle s <= nextHandle s')%nat /\
  (forall overlayId,
     currentListeners s' !! overlayId = currentListeners s !! overlayId \/
     (In overlayId overlayIds /\
      exists lt deviceId callback h,
        currentListeners s' !! overlayId =
          Some {| Binding.listenerType := lt; Binding.listener := Some h;
                  Binding.device := Overlay.device (getOverlay settings overlayId) |} /\
        In (Listen deviceId (interfaceOf lt) callback h) t /\
        (nextHandle s <= h < nextHandle s')%nat)) /\
  (forall overlayId, ~ In overlayId overlayIds ->
     currentListeners s' !! overlayId = currentListeners s !! overlayId) /\
  (forall overlayId, is_Some (currentListeners s !! overlayId) ->
     is_Some (currentListeners s' !! overlayId)).
Proof.
  intros Hrun.
  assert (Hmain : (nextHandle s <= nextHandle s')%nat /\
    forall overlayId,
     currentListeners s' !! overlayId = currentListeners s !! overlayId \/
     (In overlayId overlayIds /\
      exists lt deviceId callback h,
        currentListeners s' !! overlayId =
          Some {| Binding.listenerType := lt; Binding.listener := Some h;
                  Binding.device := Overlay.device (getOverlay settings overlayId) |} /\
        In (Listen deviceId (interfaceOf lt) callback h) t /\
        (nextHandle s <= h < nextHandle s')%nat)).
  { revert s t Hrun. induction overlayIds as [|o rest IH]; intros s t Hrun.
    - cbv in Hrun. simplify_eq. split; [lia|]. intros o. by left.
    - rewrite pass_step in Hrun. destruct (slot_run getDeviceById settings id o s).
      + rewrite (Hrest s eq_refl) in Hrun.
        destruct (pass rest s) as [[c2 s2] t2] eqn:Hpass. simplify_eq.
        destruct (IH _ _ Hpass) as [Hle Hent]. split; [done|].
        intros o'. destruct (Hent o') as [Heq|(Hin & lt & dev & cb & h & H1 & H2 & H3)].
        * by left.
        * right. split; [by right|]. exists lt, dev, cb, h. split_and!; [done| |lia|lia].
          apply in_or_app. by right.
      + rewrite (Hthrow s eq_refl) in Hrun. simplify_eq. split; [lia|]. intros o'. by left.
      + rewrite Hrun0 in Hrun. cbv beta iota in Hrun.
        match type of Hrun with context [listenersIntevalFn _ rest _ _ ?sa] =>
          destruct (pass rest sa) as [[c2 s2] t2] eqn:Hpass end.
        simplify_eq. destruct (IH _ _ Hpass) as [Hle Hent]. cbn [nextHandle] in Hle.
        split; [lia|].
        intros o'. destruct (Hent o') as [Heq|(Hin & lt' & dev & cb & h & H1 & H2 & H3)].
        * cbn [currentListeners] in Heq. destruct (decide (o = o')) as [<-|Hne].
          -- right. split; [by left|]. rewrite lookup_insert_eq in Heq.
             eexists lt, deviceId, _, (nextHandle s). split_and!; [exact Heq| |lia|lia].
             apply in_or_app. left. right. apply in_or_app. right. by left.
          -- left. by rewrite lookup_insert_ne in Heq.
        * right. split; [by right|]. cbn [nextHandle] in H3.
          exists lt', dev, cb, h. split_and!; [done| |lia|lia].
          apply in_or_app. by right. }
  destruct Hmain as [Hle Hent]. split_and!; [done|done| |].
  - intros o Hno. by destruct (Hent o) as [?|[? _]].
  - intros o Hsome. destruct (Hent o) as [->|(_ & lt & dev & cb & h & -> & _)]; [done|by eexists].
Qed.

(** X10.  A pass throws at a [FaceDetection] slot only, and only a
    [TypeError], when the host id is not empty and does not resolve in the
    registry: the store and the trace it leaves are those of the pass over
    the overlay ids before this slot, which ended normally. *)
Theorem pass_throws_at_face_slot_only (overlayIds : list string) (s s' : Store) (e : JSError)
    (t : list Effect) :
  pass overlayIds s = (Throw e, s', t) ->
  e = TypeError /\ truthy (VString id) = true /\ getDeviceById (VString id) = None /\
  exists pre overlayId post,
    overlayIds = pre ++ overlayId :: post /\
    strict_eq (Overlay.type (getOverlay settings overlayId))
      (OverlayType_value FaceDetection) = true /\
    pass pre s = (Normal tt, s', t).
Proof.
  revert s t. induction overlayIds as [|o rest IH]; intros s t Hrun.
  - cbv in Hrun. by simplify_eq.
  - rewrite pass_step in Hrun.
    assert (Hgo : forall s1 t1 t2, slot o s = (Normal tt, s1, t1) ->
              pass rest s1 = (Throw e, s', t2) ->
              e = TypeError /\ truthy (VString id) = true /\ getDeviceById (VString id) = None /\
              exists pre overlayId post,
                o :: rest = pre ++ overlayId :: post /\
                strict_eq (Overlay.type (getOverlay settings overlayId))
                  (OverlayType_value FaceDetection) = true /\
                pass pre s = (Normal tt, s', t1 ++ t2)).
    { intros s1 t1 t2 Hslot Hpass.
      destruct (IH _ _ Hpass) as (He & Hid & Hhost & pre & o' & post & -> & Hface & Hpre).
      split_and!; try done. exists (o :: pre), o', post. split_and!; try done.
      by rewrite pass_step, Hslot, Hpre. }
    destruct (slot_run getDeviceById settings id o s).
    + pose proof (Hrest s eq_refl) as Hslot. rewrite Hslot in Hrun.
      destruct (pass rest s) as [[c2 s2] t2] eqn:Hpass. simplify_eq.
      by eapply Hgo.
    + rewrite (Hthrow s eq_refl) in Hrun. simplify_eq.
      split_and!; try done. by exists [], o, rest.
    + pose proof Hrun0 as Hslot. rewrite Hrun0 in Hrun. cbv beta iota in Hrun.
      match type of Hrun with context [listenersIntevalFn _ rest _ _ ?sa] =>
        destruct (pass rest sa) as [[c2 s2] t2] eqn:Hpass end.
      simplify_eq. by eapply Hgo.
Qed.

(** X11.  A [FaceDetection] slot.  With an empty host id, or with an entry
    that is already of kind [Face], the slot is left alone, whatever device
    its entry is stamped with.  Otherwise, when the host resolves, the slot
    logs, releases the handle its entry records (if any) and subscribes to
    [ObjectDetection] on the host; no push follows the subscription, and the
    new entry is stamped with the device setting of the slot. *)
Theorem face_slot_subscription (overlayId : string) (s : Store) :
  let overlay := getOverlay settings overlayId in
  let entry := currentListeners s !! overlayId in
  strict_eq (Overlay.type overlay) (OverlayType_value FaceDetection) = true ->
  (truthy (VString id) = false -> slot overlayId s = (Normal tt, s, [])) /\
  (forall b, entry = Some b -> Binding.listenerType b = Face ->
     slot overlayId s = (Normal tt, s, [])) /\
  (forall d, truthy (VString id) = true -> getDeviceById (VString id) = Some d ->
     (forall b, entry = Some b -> Binding.listenerType b <> Face) ->
     slot overlayId s =
     (Normal tt,
      {| currentListeners :=
           <[overlayId := {| Binding.listenerType := Face;
                             Binding.listener := Some (nextHandle s);
                             Binding.device := Overlay.device overlay |}]>
             (currentListeners s);
         nextHandle := S (nextHandle s) |},
      ConsoleLog (StartingListener overlayId (name d) Face ObjectDetection)
        :: removal entry
        ++ [Listen (VString id) ObjectDetection
              (updateProps overlayId Face ObjectDetection d) (nextHandle s)])).
Proof.
  intros overlay entry Hface.
  assert (HnotD : strict_eq (Overlay.type overlay) (OverlayType_value Device) = false).
  { apply strict_eq_string in Hface. by rewrite Hface. }
  assert (Hbody := slot_resolved getDeviceById settings id overlayId Face ObjectDetection
                     (VString id) s).
  cbv zeta in Hbody. fold overlay entry in Hbody.
  rewrite Hbody by (intros s'; unfold resolveListener; fold overlay; by rewrite HnotD, Hface).
  clear Hbody. unfold changed. rewrite HnotD. fold entry. split_and!.
  - intros ->. done.
  - intros b -> ->. rewrite listenerType_differs_same. by rewrite andb_false_r.
  - intros d Hid Hd Hkind. rewrite Hid, Hd, orb_false_r. cbn [andb firstPush].
    destruct entry as [b|] eqn:He; [|done].
    rewrite listenerType_differs_decide.
    by rewrite bool_decide_eq_false_2 by (by apply Hkind).
Qed.

End PassInvariants.

Lemma static_pass_witness :
  listenersIntevalFn registry_without_camera ["1"; "2"]
    (text_slot "1" "Hello" ++ text_slot "2" "World") "camera"
    (bound_store Face 0 VUndefined) =
  (Normal tt, bound_store Face 0 VUndefined,
   [RemoveListener 0; textPush "1" (VString "Hello"); textPush "2" (VString "World")]) /\
  pushes [RemoveListener 0; textPush "1" (VString "Hello"); textPush "2" (VString "World")]
    = 2%nat.
Proof.
  assert (H : forall overlayId, In overlayId ["1"; "2"] ->
            strict_eq (Overlay.type (getOverlay (text_slot "1" "Hello" ++ text_slot "2" "World")
                                       overlayId))
              (OverlayType_value Text) = true).
  { intros o [<-|[<-|[]]]; vm_compute; reflexivity. }
  pose proof (static_pass registry_without_camera _ "camera" ["1"; "2"]
                (bound_store Face 0 VUndefined) H) as (H1 & _ & H3).
  split; [exact H1|exact H3].
Defined.

Lemma pass_releases_recorded_handles_witness :
  exists overlayId b,
    In overlayId ["1"] /\
    currentListeners (bound_store Temperature 0 (VString "deviceA")) !! overlayId = Some b /\
    Binding.listener b = Some 0%nat.
Proof.
  eapply (pass_releases_recorded_handles registry (bound_to "1" "deviceB") "camera" ["1"]
            (bound_store Temperature 0 (VString "deviceA"))).
  - vm_compute. reflexivity.
  - right. left. reflexivity.
Defined.

Lemma pass_store_entries_witness :
  (nextHandle emptyStore <= nextHandle first_pass_sample.1.2)%nat /\
  currentListeners first_pass_sample.1.2 !! "3" = currentListeners emptyStore !! "3".
Proof.
  assert (H : listenersIntevalFn registry ["1"; "2"] (bound_to "1" "deviceA" ++ face_slot "2")
                "camera" emptyStore =
              (first_pass_sample.1.1, first_pass_sample.1.2, first_pass_sample.2))
    by (vm_compute; reflexivity).
  pose proof (pass_store_entries _ _ _ _ _ _ _ _ H) as (H1 & _ & H3 & _).
  split; [exact H1|]. apply H3. intros [Heq|[Heq|[]]]; discriminate Heq.
Defined.

Lemma pass_throws_at_face_slot_only_witness :
  TypeError = TypeError /\ truthy (VString "camera") = true /\
  registry_without_camera (VString "camera") = None /\
  exists pre overlayId post,
    ["2"; "1"; "2"] = pre ++ overlayId :: post /\
    strict_eq (Overlay.type (getOverlay (face_slot "1" ++ text_slot "2" "Hello") overlayId))
      (OverlayType_value FaceDetection) = true /\
    listenersIntevalFn registry_without_camera pre (face_slot "1" ++ text_slot "2" "Hello")
      "camera" emptyStore = (Normal tt, emptyStore, [textPush "2" (VString "Hello")]).
Proof.
  apply (pass_throws_at_face_slot_only registry_without_camera
           (face_slot "1" ++ text_slot "2" "Hello") "camera" ["2"; "1"; "2"] emptyStore).
  vm_compute. reflexivity.
Defined.

Lemma face_slot_subscription_witness :
  reconcileOverlay registry (face_slot "1") "camera" "1"
    (bound_store Temperature 0 (VString "deviceA")) =
  (Normal tt,
   {| currentListeners :=
        <[ "1" := {| Binding.listenerType := Face; Binding.listener := Some 1%nat;
                     Binding.device := VUndefined |}]>
          (currentListeners (bound_store Temperature 0 (VString "deviceA")));
      nextHandle := 2 |},
   [ConsoleLog (StartingListener "1" "Camera" Face ObjectDetection);
    RemoveListener 0;
    Listen (VString "camera") ObjectDetection (updateProps "1" Face ObjectDetection camera)
      1%nat]).
Proof.
  pose proof (face_slot_subscription registry (face_slot "1") "camera" "1"
                (bound_store Temperature 0 (VString "deviceA")) eq_refl) as (_ & _ & H).
  apply (H camera eq_refl eq_refl).
  intros b Hb. vm_compute in Hb. injection Hb as <-. discriminate.
Defined.

(** X12.  To [Text] and back.  After a pass, a pass under settings that make
    every slot a [Text] slot releases every handle the entries of the slots
    record and leaves the entries as they are; a pass under the first
    settings that follows it then finds every slot bound as before, and
    opens no subscription: the slots stay recorded as subscribed on handles
    that have been released. *)
Theorem text_and_back_opens_no_subscription
    (getDeviceById : prim -> option ScryptedDevice) (settings settingsText : list Setting)
    (id : string) (overlayIds : list string) (s s1 : Store) (c : Completion unit)
    (t1 : list Effect) :
  listenersIntevalFn getDeviceById overlayIds settings id s = (c, s1, t1) ->
  (forall overlayId, In overlayId overlayIds ->
     strict_eq (Overlay.type (getOverlay settingsText overlayId)) (OverlayType_value Text) = true) ->
  exists t2 t3,
    listenersIntevalFn getDeviceById overlayIds settingsText id s1 = (Normal tt, s1, t2) /\
    (forall overlayId b h,
       In overlayId overlayIds -> currentListeners s1 !! overlayId = Some b ->
       Binding.listener b = Some h -> In (RemoveListener h) t2) /\
    listenersIntevalFn getDeviceById overlayIds settings id s1 = (c, s1, t3) /\
    subscribes t3 = 0%nat.
Proof.
  intros Hrun Htext.
  destruct (pass_again _ _ _ _ _ _ _ _ Hrun) as (t3 & Hagain & Hlisten & _).
  eexists _, t3. split_and!.
  - by apply pass_all_text.
  - intros o b h Ho Hb Hh. apply in_flat_map. exists o. split; [done|].
    apply in_or_app. left. rewrite Hb. unfold removal. rewrite Hh. by left.
  - exact Hagain.
  - by apply subscribes_none.
Qed.

Lemma text_and_back_opens_no_subscription_witness :
  exists t2 t3,
    listenersIntevalFn registry ["1"] (text_slot "1" "Hello") "camera" first_subscription.1.2 =
      (Normal tt, first_subscription.1.2, t2) /\
    (forall overlayId b h,
       In overlayId ["1"] -> currentListeners first_subscription.1.2 !! overlayId = Some b ->
       Binding.listener b = Some h -> In (RemoveListener h) t2) /\
    listenersIntevalFn registry ["1"] (bound_to "1" "deviceA") "camera" first_subscription.1.2 =
      (Normal tt, first_subscription.1.2, t3) /\
    subscribes t3 = 0%nat.
Proof.
  apply (text_and_back_opens_no_subscription registry (bound_to "1" "deviceA")
           (text_slot "1" "Hello") "camera" ["1"] emptyStore _ _ first_subscription.2).
  - vm_compute. reflexivity.
  - intros o [<-|[]]. vm_compute. reflexivity.
Defined.

Section SlotEdges.

Variable getDeviceById : prim -> option ScryptedDevice.
Variable settings : list Setting.
Variable id : string.

Local Abbreviation slot := (reconcileOverlay getDeviceById settings id).

(** X13.  A slot whose type is none of [Text], [Device] and [FaceDetection]
    (a string of another spelling, a number) is skipped: no call is made,
    and the subscription its entry records is neither released nor
    replaced. *)
Theorem slot_of_unknown_type_is_skipped (overlayId : string) (s : Store) :
  let overlay := getOverlay settings overlayId in
  strict_eq (Overlay.type overlay) (OverlayType_value Text) = false ->
  strict_eq (Overlay.type overlay) (OverlayType_value Device) = false ->
  strict_eq (Overlay.type overlay) (OverlayType_value FaceDetection) = false ->
  slot overlayId s = (Normal tt, s, []).
Proof.
  intros overlay HtT HtD HtF. unfold reconcileOverlay, resolveListener. fold overlay.
  unfold_M. by rewrite HtD, HtF, HtT.
Qed.

(** X14.  A [Device] slot whose device setting is falsy (missing, empty)
    never subscribes and never releases, also when the registry resolves
    this id to a sensor: the slot ends normally with the store as it is. *)
Theorem device_slot_without_device_id (overlayId : string) (s : Store) :
  let overlay := getOverlay settings overlayId in
  strict_eq (Overlay.type overlay) (OverlayType_value Device) = true ->
  truthy (Overlay.device overlay) = false ->
  exists t, slot overlayId s = (Normal tt, s, t) /\
            subscribes t = 0%nat /\ releases t = 0%nat /\ pushes t = 0%nat.
Proof.
  intros overlay HtD Hfalsy.
  destruct (getDeviceById (Overlay.device overlay)) as [d|] eqn:Hd.
  - destruct (sensorKind d) as [[lt li]|] eqn:Hkind.
    + exists []. split; [|done].
      rewrite (slot_sensor getDeviceById settings id overlayId s d lt li HtD Hd Hkind).
      fold overlay. unfold changed. by rewrite Hfalsy.
    + exists []. split; [|done]. unfold sensorKind in Hkind.
      destruct (includes Thermometer (interfaces d)) eqn:Hth; [done|].
      destruct (includes HumiditySensor (interfaces d)) eqn:Hhu; [done|].
      by eapply slot_device_incapable.
  - eexists. split; [by apply slot_device_not_found|done].
Qed.

End SlotEdges.

Lemma slot_of_unknown_type_is_skipped_witness :
  reconcileOverlay registry [setting "1" "type" (VString "device")] "camera" "1"
    (bound_store Temperature 0 (VString "deviceA")) =
  (Normal tt, bound_store Temperature 0 (VString "deviceA"), []).
Proof.
  exact (slot_of_unknown_type_is_skipped registry [setting "1" "type" (VString "device")]
           "camera" "1" (bound_store Temperature 0 (VString "deviceA"))
           eq_refl eq_refl eq_refl).
Defined.

Lemma device_slot_without_device_id_witness :
  exists t,
    reconcileOverlay registry [setting "1" "type" (VString "Device")] "camera" "1"
      (bound_store Temperature 0 (VString "deviceA")) =
    (Normal tt, bound_store Temperature 0 (VString "deviceA"), t) /\
    subscribes t = 0%nat /\ releases t = 0%nat /\ pushes t = 0%nat.
Proof.
  exact (device_slot_without_device_id registry [setting "1" "type" (VString "Device")]
           "camera" "1" (bound_store Temperature 0 (VString "deviceA")) eq_refl eq_refl).
Defined.

(** * Further properties of the formatter *)

Lemma digitsValueFrom_uint (d : uint) (acc : positive) :
  digitsValueFrom (Zpos acc) (NilEmpty.string_of_uint d) = Zpos (Pos.of_uint_acc d acc).
Proof.
  revert acc. induction d; intros acc; cbn [NilEmpty.string_of_uint digitsValueFrom Pos.of_uint_acc];
    [done|..]; rewrite <- IHd; f_equal;
    match goal with |- context [nat_of_ascii ?c] =>
      let v := eval vm_compute in (Z.of_nat (nat_of_ascii c)) in
      change (Z.of_nat (nat_of_ascii c)) with v end; lia.
Qed.

Lemma digitsValue_uint (d : uint) :
  digitsValue (NilEmpty.string_of_uint d) = Z.of_N (N.of_uint d).
Proof.
  unfold digitsValue, N.of_uint.
  induction d; cbn [NilEmpty.string_of_uint digitsValueFrom Pos.of_uint]; [done|exact IHd|..];
    cbn [Z.of_N]; rewrite <- digitsValueFrom_uint; f_equal.
Qed.

Lemma digitsValue_decimal (n : Z) : (0 <= n)%Z -> digitsValue (decimal n) = n.
Proof.
  intros Hn. unfold decimal, NilZero.string_of_uint.
  assert (H : N.of_uint (N.to_uint (Z.to_N n)) = Z.to_N n) by apply DecimalN.Unsigned.of_to.
  destruct (N.to_uint (Z.to_N n)) eqn:Hd;
    [|rewrite digitsValue_uint, H; lia..].
  cbn in H. change (digitsValue "0") with 0%Z. lia.
Qed.

Lemma digitsValue_zeros (k : nat) (m : string) : digitsValue (zeros k +:+ m) = digitsValue m.
Proof. unfold digitsValue. induction k as [|k IH]; [done|]. exact IH. Qed.

Lemma substring_all (s : string) : substring 0 (String.length s) s = s.
Proof. induction s as [|c s IH]; [done|]. cbn. by f_equal. Qed.

Lemma substring_cut (s : string) (n : nat) :
  (n <= String.length s)%nat ->
  substring 0 n s +:+ substring n (String.length s - n) s = s.
Proof.
  revert n. induction s as [|c s IH]; intros [|n] Hn; cbn [String.length] in Hn.
  - done.
  - lia.
  - rewrite Nat.sub_0_r, substring_all. by destruct s.
  - cbn [substring String.length Nat.sub]. rewrite append_cons. f_equal. apply IH. lia.
Qed.

(** The digits of [pointed], read without the point, denote the number. *)
Lemma pointed_denotes (n : Z) (f : nat) :
  (0 <= n)%Z -> (0 < f)%nat ->
  exists int frac,
    pointed n f = int +:+ "." +:+ frac /\
    String.length frac = f /\ digitsValue (int +:+ frac) = n.
Proof.
  intros Hn Hf. unfold pointed. destruct f as [|f']; [lia|].
  set (m0 := if (n =? 0)%Z then "0" else decimal n).
  assert (Hm0 : digitsValue m0 = n /\ (1 <= String.length m0)%nat).
  { unfold m0. destruct (Z.eqb_spec n 0) as [->|Hne]; [done|].
    split; [by apply digitsValue_decimal|apply decimal_nonempty]. }
  destruct Hm0 as [Hv0 Hl0].
  set (m := if (String.length m0 <=? S f')%nat
            then zeros (S f' + 1 - String.length m0) +:+ m0 else m0).
  assert (Hm : digitsValue m = n /\ (S f' + 1 <= String.length m)%nat).
  { unfold m. destruct (String.length m0 <=? S f')%nat eqn:Hk.
    - apply Nat.leb_le in Hk. split.
      + by rewrite digitsValue_zeros.
      + rewrite length_app, length_zeros. lia.
    - apply Nat.leb_gt in Hk. split; [done|lia]. }
  destruct Hm as [Hv Hl].
  exists (substring 0 (String.length m - S f') m), (substring (String.length m - S f') (S f') m).
  split_and!.
  - done.
  - apply length_substring. lia.
  - pose proof (substring_cut m (String.length m - S f')) as Hcut.
    replace (String.length m - (String.length m - S f'))%nat with (S f') in Hcut by lia.
    rewrite Hcut by lia. done.
Qed.

Lemma pointed_denotes_integer (n : Z) : (0 <= n)%Z -> digitsValue (pointed n 0) = n.
Proof.
  intros Hn. unfold pointed. destruct (Z.eqb_spec n 0) as [->|Hne]; [done|].
  by apply digitsValue_decimal.
Qed.

Lemma nearest_nonneg (x : Q) (f : Z) : (0 <= Qnum x)%Z -> (0 <= f)%Z -> (0 <= nearest x f)%Z.
Proof.
  intros Hx Hf. unfold nearest. apply Z.div_pos; [|lia].
  assert (0 <= 10 ^ f)%Z by (apply Z.pow_nonneg; lia). nia.
Qed.

Lemma Qabs_num_nonneg (q : Q) : (0 <= Qnum (Qabs q))%Z.
Proof. destruct q as [n d]. cbn. apply Z.abs_nonneg. Qed.

Section FormatterProperties.

Variable getDeviceById : prim -> option ScryptedDevice.
Variable StringToNumber : string -> jsnum.
Variable NumberToString : Q -> string.

Local Abbreviation toFixed' := (toFixed StringToNumber NumberToString).
Local Abbreviation parse := (parseOverlayData getDeviceById StringToNumber NumberToString).
Local Abbreviation Number' := (Number_or_0 StringToNumber).

(** X15.  [toFixed] rounds to the nearest.  For a finite number of magnitude
    [x] below 1e21 and [f] fraction digits (from 0 to 100), the digits
    printed after the sign denote, read without the point, the integer [n]
    with [n <= x * 10^f + 1/2 < n + 1]: the multiple of [10^-f] nearest to
    [x], the one of larger magnitude of two; [f] of the digits follow the
    point. *)
Theorem toFixed_rounds_to_nearest (q : Q) (fractionDigits : prim) (f : Z) :
  ToIntegerOrInfinity StringToNumber fractionDigits = IInteger f ->
  (0 <= f <= 100)%Z ->
  Qle_bool (inject_Z (10 ^ 21)) (Qabs q) = false ->
  exists (n : Z) (digits : string),
    toFixed' (Finite q) fractionDigits = Normal (sign q +:+ digits) /\
    (2 * n * Zpos (Qden (Qabs q)) <= 2 * Qnum (Qabs q) * 10 ^ f + Zpos (Qden (Qabs q))
     < 2 * (n + 1) * Zpos (Qden (Qabs q)))%Z /\
    (f = 0%Z -> digitsValue digits = n) /\
    ((0 < f)%Z ->
     exists int frac,
       digits = int +:+ "." +:+ frac /\
       String.length frac = Z.to_nat f /\ digitsValue (int +:+ frac) = n).
Proof.
  intros Hf Hrange Hsmall.
  exists (nearest (Qabs q) f), (pointed (nearest (Qabs q) f) (Z.to_nat f)).
  assert (Hn : (0 <= nearest (Qabs q) f)%Z).
  { apply nearest_nonneg; [apply Qabs_num_nonneg|lia]. }
  split_and!.
  - by apply toFixed_finite.
  - apply nearest_spec.
  - apply nearest_spec.
  - intros ->. by apply pointed_denotes_integer.
  - intros Hpos. apply pointed_denotes; [done|lia].
Qed.

Lemma toFixed_cases (x : jsnum) (fractionDigits : prim) :
  (toFixed' x fractionDigits = Throw RangeError /\
   outOfRange (ToIntegerOrInfinity StringToNumber fractionDigits) = true) \/
  ((exists v, toFixed' x fractionDigits = Normal v) /\
   outOfRange (ToIntegerOrInfinity StringToNumber fractionDigits) = false).
Proof.
  unfold toFixed, outOfRange.
  destruct (ToIntegerOrInfinity StringToNumber fractionDigits) as [neg|f]; [by left|].
  destruct ((f <? 0)%Z || (100 <? f)%Z); [by left|]. right. split; [|done].
  destruct x as [|neg|q]; [by eexists|by eexists|].
  destruct (Qle_bool _ _); by eexists.
Qed.

(** X16.  For the listener kinds [Temperature] and [Humidity], formatting
    throws a [RangeError] exactly when maxDecimals coerces to an infinity or
    to an integer below 0 or above 100, whatever the data, the template and
    the registry are. *)
Theorem maxDecimals_out_of_range (lt : ListenerType) (data : any) (overlay : Overlay.t) :
  lt <> Face ->
  parse (Some lt) data overlay = Throw RangeError <->
  outOfRange (ToIntegerOrInfinity StringToNumber (Overlay.maxDecimals overlay)) = true.
Proof.
  intros Hlt. unfold parseOverlayData.
  destruct (toFixed_cases (Number' data) (Overlay.maxDecimals overlay))
    as [[Htf Hout]|[[v Htf] Hout]]; rewrite Hout.
  - destruct lt; [done| |]; cbn [mbind Completion_bind]; rewrite Htf;
      cbn [mbind Completion_bind]; done.
  - split; [|done].
    destruct lt; [done| |]; cbn [mbind Completion_bind]; rewrite Htf;
      cbn [mbind Completion_bind fst snd].
    + destruct (truthy_string (Some v)); [|done].
      by destruct (Overlay.regex overlay).
    + destruct (if truthy (Overlay.device overlay) then _ else _); [|done].
      cbn [mbind Completion_bind fst snd]. destruct (truthy_string (Some v)); [|done].
      by destruct (Overlay.regex overlay).
Qed.

(** X17.  Formatting depends on maxDecimals through its coercion to an
    integer only; in particular a slot that is read without a maxDecimals
    setting ([undefined], as [getOverlay] leaves it) is formatted as with
    maxDecimals 0, without fraction digits. *)
Theorem maxDecimals_coercion (lt : option ListenerType) (data : any)
    (text type device regex maxDecimals maxDecimals' : prim) :
  (ToIntegerOrInfinity StringToNumber maxDecimals =
   ToIntegerOrInfinity StringToNumber maxDecimals' ->
   parse lt data {| Overlay.text := text; Overlay.type := type; Overlay.device := device;
                    Overlay.regex := regex; Overlay.maxDecimals := maxDecimals |} =
   parse lt data {| Overlay.text := text; Overlay.type := type; Overlay.device := device;
                    Overlay.regex := regex; Overlay.maxDecimals := maxDecimals' |}) /\
  parse lt data {| Overlay.text := text; Overlay.type := type; Overlay.device := device;
                   Overlay.regex := regex; Overlay.maxDecimals := VUndefined |} =
  parse lt data {| Overlay.text := text; Overlay.type := type; Overlay.device := device;
                   Overlay.regex := regex; Overlay.maxDecimals := VNumber (Finite 0) |}.
Proof.
  assert (H : forall md md',
    ToIntegerOrInfinity StringToNumber md = ToIntegerOrInfinity StringToNumber md' ->
    parse lt data {| Overlay.text := text; Overlay.type := type; Overlay.device := device;
                     Overlay.regex := regex; Overlay.maxDecimals := md |} =
    parse lt data {| Overlay.text := text; Overlay.type := type; Overlay.device := device;
                     Overlay.regex := regex; Overlay.maxDecimals := md' |}).
  { intros md md' Heq. unfold parseOverlayData. cbn [Overlay.text Overlay.regex Overlay.device
      Overlay.maxDecimals]. unfold toFixed. by rewrite Heq. }
  split; [apply H|]. apply H. reflexivity.
Qed.

(** X18.  Only the [Temperature] kind consults the registry: for the other
    kinds, and without a kind, formatting gives the same result in every
    registry, and whatever the type and the device of the slot are. *)
Theorem only_temperature_reads_registry (getDeviceById' : prim -> option ScryptedDevice)
    (lt : option ListenerType) (data : any) (overlay overlay' : Overlay.t) :
  lt <> Some Temperature ->
  Overlay.text overlay' = Overlay.text overlay ->
  Overlay.regex overlay' = Overlay.regex overlay ->
  Overlay.maxDecimals overlay' = Overlay.maxDecimals overlay ->
  parseOverlayData getDeviceById' StringToNumber NumberToString lt data overlay' =
  parse lt data overlay.
Proof.
  intros Hlt Htext Hregex Hmd. unfold parseOverlayData. rewrite Htext, Hregex, Hmd.
  by destruct lt as [[]|].
Qed.

(** X19.  With a template that holds neither placeholder, whatever
    formatting returns is the static text of the slot or the template as it
    is: no reading and no label is shown. *)
Theorem template_without_placeholders (lt : option ListenerType) (data : any)
    (overlay : Overlay.t) (template : string) (v : prim) :
  Overlay.regex overlay = VString template ->
  String.index 0 "${value}" template = None ->
  String.index 0 "${unit}" template = None ->
  parse lt data overlay = Normal v ->
  v = Overlay.text overlay \/ v = VString template.
Proof.
  intros Hregex Hvalue Hunit. unfold parseOverlayData. rewrite Hregex.
  assert (Hsame : forall a b, replace (replace template "${value}" a) "${unit}" b = template).
  { intros a b. by rewrite (replace_absent template), replace_absent. }
  destruct lt as [[]|]; cbn [mbind Completion_bind].
  - cbn [fst snd]. destruct (truthy_string _); rewrite ?Hsame; intros H; simplify_eq; tauto.
  - destruct (toFixed' _ _) as [x|e]; [|done]. cbn [mbind Completion_bind fst snd].
    destruct (truthy_string _); rewrite ?Hsame; intros H; simplify_eq; tauto.
  - destruct (toFixed' _ _) as [x|e]; [|done]. cbn [mbind Completion_bind].
    destruct (if truthy (Overlay.device overlay) then _ else _); [|done].
    cbn [mbind Completion_bind fst snd].
    destruct (truthy_string _); rewrite ?Hsame; intros H; simplify_eq; tauto.
  - cbn [fst snd truthy_string]. intros H; simplify_eq; tauto.
Qed.

End FormatterProperties.

Lemma append_empty_r (s : string) : s +:+ EmptyString = s.
Proof. induction s as [|c s IH]; [done|]. rewrite append_cons. by f_equal. Qed.

Lemma prefix_split (a s : string) :
  String.prefix a s = true ->
  s = a +:+ substring (String.length a) (String.length s - String.length a) s.
Proof.
  revert s. induction a as [|c a IH]; intros s H.
  - rewrite append_empty. cbn [String.length]. by rewrite Nat.sub_0_r, substring_all.
  - destruct s as [|c' s]; [done|]. cbn [String.prefix] in H.
    destruct (ascii_dec c c') as [->|]; [|done].
    rewrite append_cons. cbn [String.length substring Nat.sub]. f_equal. by apply IH.
Qed.

(** The first occurrence of a string cuts the string it occurs in in three. *)
Lemma index_split (a s : string) (pos : nat) :
  String.index 0 a s = Some pos ->
  s = substring 0 pos s +:+ a +:+
      substring (pos + String.length a) (String.length s - (pos + String.length a)) s /\
  String.length (substring 0 pos s) = pos.
Proof.
  revert pos. induction s as [|c s IH]; intros pos H.
  - cbn [index] in H. destruct a; [|done]. by simplify_eq.
  - cbn [index] in H. destruct (String.prefix a (String c s)) eqn:Hpre.
    + simplify_eq. split; [|done]. cbn [substring Nat.add]. rewrite append_empty.
      by apply prefix_split.
    + destruct (index 0 a s) as [n|] eqn:Hn; [|done]. simplify_eq.
      destruct (IH n eq_refl) as [Hcut Hlen].
      cbn [substring String.length Nat.add Nat.sub]. rewrite append_cons.
      split; [by f_equal|by f_equal].
Qed.

(** X20.  [replace] substitutes the first occurrence only.  When the pattern
    occurs in the string, the string is cut at the first occurrence and the
    expansion of the replacement is put in its place; what follows the
    occurrence is copied as it is, further occurrences included.  A
    replacement without [$] is inserted as it is, and the replacement [$&]
    (a label or a unit of this form) puts the placeholder back. *)
Theorem replace_first_occurrence (s searchValue replaceValue : string) (pos : nat) :
  String.index 0 searchValue s = Some pos ->
  exists before after,
    s = before +:+ searchValue +:+ after /\
    String.length before = pos /\
    (forall p, (p < pos)%nat ->
       substring p (String.length searchValue) s <> searchValue) /\
    replace s searchValue replaceValue =
      before +:+ getSubstitution searchValue before after replaceValue +:+ after /\
    (no_dollar replaceValue = true ->
     replace s searchValue replaceValue = before +:+ replaceValue +:+ after) /\
    replace s searchValue "$&" = s.
Proof.
  intros Hidx. destruct (index_split _ _ _ Hidx) as [Hcut Hlen].
  eexists _, _. split_and!.
  - exact Hcut.
  - exact Hlen.
  - intros p Hp. apply (index_correct2 _ _ _ _ Hidx); lia.
  - unfold replace. by rewrite Hidx.
  - intros Hplain. unfold replace. by rewrite Hidx, getSubstitution_plain.
  - unfold replace. rewrite Hidx. cbn [getSubstitution]. cbn [Ascii.eqb Bool.eqb].
    rewrite append_empty_r. by rewrite <- Hcut.
Qed.

Lemma toFixed_rounds_to_nearest_witness :
  exists (n : Z) (digits : string),
    toFixed noNumericString exponentForm (Finite (- 21456 # 1000)) (VNumber (Finite (2 # 1))) =
      Normal (sign (- 21456 # 1000) +:+ digits) /\
    (2 * n * 1000 <= 2 * 21456 * 10 ^ 2 + 1000 < 2 * (n + 1) * 1000)%Z /\
    (2%Z = 0%Z -> digitsValue digits = n) /\
    ((0 < 2)%Z ->
     exists int frac,
       digits = int +:+ "." +:+ frac /\
       String.length frac = Z.to_nat 2 /\ digitsValue (int +:+ frac) = n).
Proof.
  apply (toFixed_rounds_to_nearest noNumericString exponentForm (- 21456 # 1000)
           (VNumber (Finite (2 # 1))) 2).
  - reflexivity.
  - lia.
  - reflexivity.
Defined.

Lemma maxDecimals_out_of_range_witness :
  parseOverlayData registry noNumericString exponentForm (Some Humidity) (APrim VUndefined)
    (sample_overlay (VString "${value}") (VNumber (Finite (101 # 1)))) = Throw RangeError.
Proof.
  apply (maxDecimals_out_of_range registry noNumericString exponentForm Humidity).
  - discriminate.
  - reflexivity.
Defined.

Lemma maxDecimals_coercion_witness :
  parseOverlayData registry noNumericString exponentForm (Some Humidity)
    (APrim (VNumber (Finite (405 # 10))))
    {| Overlay.text := VString "Hello"; Overlay.type := VString "Device";
       Overlay.device := VString "deviceB"; Overlay.regex := VString "${value}${unit}";
       Overlay.maxDecimals := VNumber (Finite (19 # 10)) |} =
  parseOverlayData registry noNumericString exponentForm (Some Humidity)
    (APrim (VNumber (Finite (405 # 10))))
    {| Overlay.text := VString "Hello"; Overlay.type := VString "Device";
       Overlay.device := VString "deviceB"; Overlay.regex := VString "${value}${unit}";
       Overlay.maxDecimals := VNumber (Finite (1 # 1)) |}.
Proof.
  apply (proj1 (maxDecimals_coercion registry noNumericString exponentForm (Some Humidity)
                  (APrim (VNumber (Finite (405 # 10)))) (VString "Hello") (VString "Device")
                  (VString "deviceB") (VString "${value}${unit}")
                  (VNumber (Finite (19 # 10))) (VNumber (Finite (1 # 1))))).
  reflexivity.
Defined.

Lemma only_temperature_reads_registry_witness :
  parseOverlayData registry_without_camera noNumericString exponentForm (Some Humidity)
    (APrim (VNumber (Finite (40 # 1))))
    (sample_overlay (VString "${value}${unit}") (VNumber (Finite (1 # 1)))) =
  parseOverlayData registry noNumericString exponentForm (Some Humidity)
    (APrim (VNumber (Finite (40 # 1))))
    {| Overlay.text := VString "Hello"; Overlay.type := VString "Text";
       Overlay.device := VString "deviceC"; Overlay.regex := VString "${value}${unit}";
       Overlay.maxDecimals := VNumber (Finite (1 # 1)) |}.
Proof.
  apply only_temperature_reads_registry.
  - discriminate.
  - reflexivity.
  - reflexivity.
  - reflexivity.
Defined.

Lemma template_without_placeholders_witness :
  VString "Humidity" = Overlay.text (sample_overlay (VString "Humidity") (VNumber (Finite (1 # 1))))
  \/ VString "Humidity" = VString "Humidity".
Proof.
  apply (template_without_placeholders registry noNumericString exponentForm (Some Humidity)
           (APrim (VNumber (Finite (40 # 1))))
           (sample_overlay (VString "Humidity") (VNumber (Finite (1 # 1)))) "Humidity").
  - reflexivity.
  - reflexivity.
  - reflexivity.
  - vm_compute. reflexivity.
Defined.

Lemma replace_first_occurrence_witness :
  exists before after,
    "${value} / ${value}" = before +:+ "${value}" +:+ after /\
    String.length before = 0%nat /\
    (forall p, (p < 0)%nat ->
       substring p (String.length "${value}") "${value} / ${value}" <> "${value}") /\
    replace "${value} / ${value}" "${value}" "21.5" =
      before +:+ getSubstitution "${value}" before after "21.5" +:+ after /\
    (no_dollar "21.5" = true ->
     replace "${value} / ${value}" "${value}" "21.5" = before +:+ "21.5" +:+ after) /\
    replace "${value} / ${value}" "${value}" "$&" = "${value} / ${value}".
Proof.
  apply (replace_first_occurrence "${value} / ${value}" "${value}" "21.5" 0).
  reflexivity.
Defined.
